(** * Performance_Testing_Cucumber_K6_Browser: the measurement engine and its consumer

    A shallow embedding of [k6/ui_performance.js] (the in-browser measurement
    engine) and of [step_definitions/steps.js] (the Cucumber consumer that
    scrapes the k6 summary and enforces thresholds), with the properties of
    the specification stated and proved over the embedding. The hooks of
    [step_definitions/hook.js], which pass the tags of a scenario to the
    engine through the environment, are embedded as well.

    Conventions.
    - A JavaScript string is the list of its UTF-16 code units ([list N]).
    - A JavaScript number is an IEEE-754 binary64 value ([spec_float] at
      precision 53), NaN and the infinities included.
    - Wall-clock readings ([Date.now()]) are integers of milliseconds ([Z]).
    - A JavaScript [Map] or environment object is a [gmap]. *)

From Stdlib Require Import ZArith List Lia Bool String Ascii DecimalString DecimalN.
From Stdlib Require Import Floats.SpecFloat Sorting.Sorted.
From stdpp Require Import base option list functions gmap strings.

#[local] Set Warnings "-register-all".
Import ListNotations.

#[local] Open Scope Z_scope.

(* ------------------------------------------------------------------------- *)
(** ** JavaScript strings *)
(* ------------------------------------------------------------------------- *)

Module JsString.

(** A string of UTF-16 code units. *)
Abbreviation jsstr := (list N).

(** The code units of an ASCII literal of the source. *)
Definition lit (s : string) : jsstr :=
  List.map N_of_ascii (list_ascii_of_string s).

Definition in_range (lo hi c : N) : bool := ((lo <=? c) && (c <=? hi))%N.

Definition is_digit (c : N) : bool := in_range 48 57 c.
Definition is_lower (c : N) : bool := in_range 97 122 c.
Definition is_upper (c : N) : bool := in_range 65 90 c.
Definition is_alnum (c : N) : bool := is_lower c || is_upper c || is_digit c.

(** ECMAScript [\s]: WhiteSpace and LineTerminator code points. *)
Definition is_space (c : N) : bool :=
  in_range 9 13 c || (c =? 32)%N || (c =? 160)%N || (c =? 5760)%N
  || in_range 8192 8202 c || (c =? 8232)%N || (c =? 8233)%N
  || (c =? 8239)%N || (c =? 8287)%N || (c =? 12288)%N || (c =? 65279)%N.

(** Membership of a code unit in the characters of an ASCII literal. *)
Definition one_of (s : string) (c : N) : bool :=
  existsb (N.eqb c) (lit s).

Fixpoint prefixb (p s : jsstr) : bool :=
  match p, s with
  | [], _ => true
  | a :: p', b :: s' => (a =? b)%N && prefixb p' s'
  | _ :: _, [] => false
  end.

(** [String.prototype.includes]. *)
Fixpoint includes (s t : jsstr) : bool :=
  prefixb t s ||
  match s with
  | [] => false
  | _ :: s' => includes s' t
  end.

(** [String.prototype.trim]: strips [\s] code units at both ends. *)
Fixpoint trimStart (s : jsstr) : jsstr :=
  match s with
  | c :: s' => if is_space c then trimStart s' else s
  | [] => []
  end.

Definition trimEnd (s : jsstr) : jsstr := rev (trimStart (rev s)).

Definition trim (s : jsstr) : jsstr := trimEnd (trimStart s).

(** JavaScript truthiness of a possibly undefined string. *)
Definition truthy (o : option jsstr) : bool :=
  match o with
  | Some (_ :: _) => true
  | _ => false
  end.

(** [a || b] on possibly undefined strings, with a defined default. *)
Definition or_str (o : option jsstr) (d : jsstr) : jsstr :=
  match o with
  | Some (c :: s) => c :: s
  | _ => d
  end.

(** [Array.prototype.join] *)
Fixpoint join (sep : jsstr) (parts : list jsstr) : jsstr :=
  match parts with
  | [] => []
  | [x] => x
  | x :: rest => x ++ sep ++ join sep rest
  end.

End JsString.

(* ------------------------------------------------------------------------- *)
(** ** JavaScript numbers *)
(* ------------------------------------------------------------------------- *)

Module JsNumber.
Import JsString.

Definition prec : Z := 53.
Definition emax : Z := 1024.

(** The Number nearest to an integer (ties to even). *)
Definition of_Z (z : Z) : spec_float := binary_normalize prec emax z 0 false.

Definition NaN : spec_float := S754_nan.

Definition isNaN (x : spec_float) : bool :=
  match x with
  | S754_nan => true
  | _ => false
  end.

Definition div (x y : spec_float) : spec_float := SFdiv prec emax x y.

(** The relational operators [<] and [>=]: false as soon as one side is NaN. *)
Definition lt (x y : spec_float) : bool := SFltb x y.
Definition ge (x y : spec_float) : bool := SFleb y x.

(** ToBoolean on a Number: false for [+0], [-0] and [NaN]. *)
Definition to_boolean (x : spec_float) : bool :=
  match x with
  | S754_zero _ | S754_nan => false
  | _ => true
  end.

(** [x || d] on Numbers. *)
Definition or_num (x d : spec_float) : spec_float :=
  if to_boolean x then x else d.

(** [Math.max(a, b)]: NaN when an argument is NaN, and [+0] above [-0]. *)
Definition Math_max (a b : spec_float) : spec_float :=
  match SFcompare a b with
  | None => NaN
  | Some Lt => b
  | Some Gt => a
  | Some Eq =>
      match a with
      | S754_zero true => b
      | _ => a
      end
  end.

(** *** Decimal literals *)

Fixpoint span_digits (s : jsstr) : jsstr * jsstr :=
  match s with
  | c :: s' =>
      if is_digit c
      then let '(d, r) := span_digits s' in (c :: d, r)
      else ([], s)
  | [] => ([], [])
  end.

(** The mathematical value of a run of decimal digits. *)
Definition digits_value (d : jsstr) : Z :=
  fold_left (fun acc c => 10 * acc + (Z.of_N c - 48)) d 0.

(** The Number nearest to [(-1)^neg * m * 10^e10], for [0 <= m]. *)
Definition of_decimal (neg : bool) (m e10 : Z) : spec_float :=
  match m with
  | Zpos pm =>
      if 0 <=? e10
      then binary_normalize prec emax
             ((if neg then Z.opp else id) (m * 10 ^ e10)) 0 false
      else SFdiv prec emax (S754_finite neg pm 0)
             (S754_finite false (Z.to_pos (10 ^ (- e10))) 0)
  | _ => S754_zero neg
  end.

(** An exponent part [e[+-]digits], when one is present with its digits. *)
Definition scan_exponent (s : jsstr) : Z * jsstr :=
  match s with
  | c :: s1 =>
      if one_of "eE" c then
        let '(neg, s2) :=
          match s1 with
          | sg :: s2 =>
              if (sg =? 45)%N then (true, s2)
              else if (sg =? 43)%N then (false, s2)
              else (false, s1)
          | [] => (false, s1)
          end in
        match span_digits s2 with
        | ([], _) => (0, s)
        | (d, r) => ((if neg then Z.opp else id) (digits_value d), r)
        end
      else (0, s)
  | [] => (0, s)
  end.

(** The longest prefix that is a StrUnsignedDecimalLiteral, with its value
    and the rest of the input. *)
Definition scan_unsigned (neg : bool) (s : jsstr) : option (spec_float * jsstr) :=
  if prefixb (lit "Infinity") s
  then Some (S754_infinity neg, drop 8 s)
  else
    let '(ip, r1) := span_digits s in
    match r1 with
    | 46%N :: r1' =>
        let '(fp, r2) := span_digits r1' in
        match ip, fp with
        | [], [] => None
        | _, _ =>
            let '(e, r3) := scan_exponent r2 in
            Some (of_decimal neg (digits_value (ip ++ fp))
                    (e - Z.of_nat (length fp)), r3)
        end
    | _ =>
        match ip with
        | [] => None
        | _ =>
            let '(e, r3) := scan_exponent r1 in
            Some (of_decimal neg (digits_value ip) e, r3)
        end
    end.

(** The longest prefix that is a StrDecimalLiteral. *)
Definition scan_decimal (s : jsstr) : option (spec_float * jsstr) :=
  match s with
  | 45%N :: s' => scan_unsigned true s'
  | 43%N :: s' => scan_unsigned false s'
  | _ => scan_unsigned false s
  end.

(** [parseFloat(s)]. *)
Definition parseFloat (s : jsstr) : spec_float :=
  match scan_decimal (trimStart s) with
  | Some (x, _) => x
  | None => NaN
  end.

(** The value of a digit in a radix, letters included. *)
Definition digit_in_radix (radix : Z) (c : N) : option Z :=
  let v :=
    if is_digit c then Z.of_N c - 48
    else if is_lower c then Z.of_N c - 87
    else if is_upper c then Z.of_N c - 55
    else radix in
  if v <? radix then Some v else None.

Fixpoint radix_value (radix : Z) (s : jsstr) (acc : Z) : option Z :=
  match s with
  | [] => Some acc
  | c :: s' =>
      match digit_in_radix radix c with
      | Some v => radix_value radix s' (radix * acc + v)
      | None => None
      end
  end.

Definition radix_literal (radix : Z) (s : jsstr) : spec_float :=
  match s with
  | [] => NaN
  | _ =>
      match radix_value radix s 0 with
      | Some v => of_Z v
      | None => NaN
      end
  end.

(** StringToNumber. *)
Definition StringToNumber (s : jsstr) : spec_float :=
  match trim s with
  | [] => S754_zero false
  | 48%N :: c :: r =>
      if one_of "xX" c then radix_literal 16 r
      else if one_of "oO" c then radix_literal 8 r
      else if one_of "bB" c then radix_literal 2 r
      else
        match scan_decimal (trim s) with
        | Some (x, []) => x
        | _ => NaN
        end
  | t =>
      match scan_decimal t with
      | Some (x, []) => x
      | _ => NaN
      end
  end.

(** Unary [+] on a possibly undefined string. *)
Definition ToNumber (o : option jsstr) : spec_float :=
  match o with
  | Some s => StringToNumber s
  | None => NaN
  end.

End JsNumber.

(* ------------------------------------------------------------------------- *)
(** ** Regular expressions: the backtracking matcher of ECMAScript *)
(* ------------------------------------------------------------------------- *)

Module Regex.
Import JsString.

(** The constructs that the regular expressions of the sources use. *)
Inductive regex : Type :=
| Eps
| Chr (c : N)
| Cls (p : N -> bool)
| Seq (r1 r2 : regex)
| Alt (r1 r2 : regex)
| Opt (r : regex)
| Star (r : regex)
| Grp (i : nat) (r : regex)
| Bol
| Eol.

(** [r+] *)
Definition Plus (r : regex) : regex := Seq r (Star r).

(** A literal run of characters. *)
Definition Lit (l : jsstr) : regex := fold_right (fun c r => Seq (Chr c) r) Eps l.

(** Captures, most recent first. *)
Definition caps : Type := list (nat * jsstr).

Fixpoint capture (i : nat) (c : caps) : option jsstr :=
  match c with
  | [] => None
  | (j, v) :: c' => if Nat.eqb i j then Some v else capture i c'
  end.

(** The state of a match: the input that is left and the captures. *)
Definition cont : Type := jsstr -> caps -> option (jsstr * caps).

(** The iterations of [r*], where [step] matches [r] once. *)
Fixpoint star_iter (step : jsstr -> caps -> cont -> option (jsstr * caps))
  (k : cont) (fuel : nat) (s : jsstr) (c : caps) : option (jsstr * caps) :=
  match fuel with
  | O => k s c
  | S fuel' =>
      match step s c
              (fun s' c' =>
                 if (length s' <? length s)%nat
                 then star_iter step k fuel' s' c' else None) with
      | Some res => Some res
      | None => k s c
      end
  end.

(** [rmatch n r s c k]: match [r] at the front of [s] (a suffix of an input
    of length [n]) and continue with [k]; alternatives are tried in priority
    order, quantifiers are greedy, and an iteration of [*] that consumes
    nothing is rejected. *)
Fixpoint rmatch (n : nat) (r : regex) (s : jsstr) (c : caps) (k : cont)
  : option (jsstr * caps) :=
  match r with
  | Eps => k s c
  | Chr a =>
      match s with
      | x :: s' => if (x =? a)%N then k s' c else None
      | [] => None
      end
  | Cls p =>
      match s with
      | x :: s' => if p x then k s' c else None
      | [] => None
      end
  | Seq r1 r2 => rmatch n r1 s c (fun s' c' => rmatch n r2 s' c' k)
  | Alt r1 r2 =>
      match rmatch n r1 s c k with
      | Some res => Some res
      | None => rmatch n r2 s c k
      end
  | Opt r1 =>
      match rmatch n r1 s c k with
      | Some res => Some res
      | None => k s c
      end
  | Star r1 => star_iter (rmatch n r1) k (length s) s c
  | Grp i r1 =>
      rmatch n r1 s c
        (fun s' c' => k s' ((i, take (length s - length s') s) :: c'))
  | Bol => if (length s =? n)%nat then k s c else None
  | Eol =>
      match s with
      | [] => k s c
      | _ :: _ => None
      end
  end.

Definition accept : cont := fun s c => Some (s, c).

(** A match: where it starts, where it ends and what it captured. *)
Record match_result : Type := MatchResult {
  m_index : nat;
  m_rest : jsstr;
  m_caps : caps
}.

(** The leftmost match at or after an offset. *)
Fixpoint search_from (n : nat) (r : regex) (i : nat) (s : jsstr)
  : option match_result :=
  match rmatch n r s [] accept with
  | Some (rest, c) => Some (MatchResult i rest c)
  | None =>
      match s with
      | [] => None
      | _ :: s' => search_from n r (S i) s'
      end
  end.

(** [s.match(r)] and [r.exec(s)] for a regular expression without flags. *)
Definition exec (r : regex) (s : jsstr) : option match_result :=
  search_from (length s) r 0 s.

(** [r.test(s)]. *)
Definition test (r : regex) (s : jsstr) : bool :=
  match exec r s with
  | Some _ => true
  | None => false
  end.

(** [s.replace(r, by)] for a regular expression with the [g] flag and a
    replacement without [$] patterns. *)
Fixpoint replace_from (fuel n : nat) (r : regex) (by_ : jsstr) (s : jsstr)
  : jsstr :=
  match fuel with
  | O => s
  | S fuel' =>
      match rmatch n r s [] accept, s with
      | Some (rest, _), x :: s' =>
          if (length rest <? length s)%nat
          then by_ ++ replace_from fuel' n r by_ rest
          else by_ ++ x :: replace_from fuel' n r by_ s'
      | Some (_, _), [] => by_
      | None, x :: s' => x :: replace_from fuel' n r by_ s'
      | None, [] => []
      end
  end.

Definition replaceAll (r : regex) (by_ : jsstr) (s : jsstr) : jsstr :=
  replace_from (S (length s)) (length s) r by_ s.

End Regex.

(* ------------------------------------------------------------------------- *)
(** ** The consumer: [step_definitions/steps.js] *)
(* ------------------------------------------------------------------------- *)

Module Steps.
Import JsString JsNumber Regex.

(** [[.\s]] *)
Definition dot_or_space (c : N) : bool := one_of "." c || is_space c.

(** [[0-9.]] *)
Definition digit_or_dot (c : N) : bool := is_digit c || one_of "." c.

(** [(ms|s)] *)
Definition unit_group : regex := Grp 2 (Alt (Lit (lit "ms")) (Lit (lit "s"))).

(** [<name>[.\s]*:\s*avg=([0-9.]+)] followed by the unit. *)
Definition metric_pattern (name : string) (unit : regex) : regex :=
  Seq (Lit (lit name))
    (Seq (Star (Cls dot_or_space))
       (Seq (Chr 58)
          (Seq (Star (Cls is_space))
             (Seq (Lit (lit "avg="))
                (Seq (Grp 1 (Plus (Cls digit_or_dot))) unit))))).

(** [/subcomponent_load_time[.\s]*:\s*avg=([0-9.]+)(ms|s)/] *)
Definition subcomponent_pattern : regex :=
  metric_pattern "subcomponent_load_time" unit_group.

(** [/main_page_load_time[.\s]*:\s*avg=([0-9.]+)(ms|s)?/] *)
Definition main_page_pattern : regex :=
  metric_pattern "main_page_load_time" (Opt unit_group).

(** What a step throws. The message of [ThresholdExceeded] renders the load
    time with [toFixed(2)]; the error keeps the two numbers instead. *)
Inductive error : Type :=
| NoOutput (message : jsstr)
| MetricNotFound (message : jsstr)
| ThresholdExceeded (selector : option jsstr) (loadTime : spec_float) (maxTime : Z).

Definition newline : jsstr := [10%N].

Definition no_main_output : jsstr :=
  lit "No k6 output found for main page. Did you run the main page step?".

Definition no_sub_outputs : jsstr :=
  lit "No k6 outputs found. Did you run the subcomponents step?".

Definition main_not_found (k6Output : jsstr) : jsstr :=
  lit "Could not find main_page_load_time metric in k6 output. Output was:"
  ++ newline ++ k6Output.

Definition sub_not_found (selector output : jsstr) : jsstr :=
  lit "Could not find subcomponent_load_time metric for selector " ++ selector
  ++ lit " in k6 output. Output was:" ++ newline ++ output.

(** [parseFloat(match[i])] *)
Definition parseFloat_capture (i : nat) (m : match_result) : spec_float :=
  match capture i (m_caps m) with
  | Some v => parseFloat v
  | None => NaN
  end.

Definition is_ms (unit : option jsstr) : bool :=
  match unit with
  | Some u => bool_decide (u = lit "ms")
  | None => false
  end.

(** Lines 166-181: the load time of the main page, in seconds. *)
Definition main_page_load_time (k6Output : jsstr) : error + spec_float :=
  match exec main_page_pattern k6Output with
  | None => inl (MetricNotFound (main_not_found k6Output))
  | Some m =>
      let loadTime := parseFloat_capture 1 m in
      let unit := capture 2 (m_caps m) in
      inr (if is_ms unit then div loadTime (of_Z 1000) else loadTime)
  end.

(** Lines 127-138: the load time of a subcomponent, in seconds. *)
Definition subcomponent_load_time (selector output : jsstr) : error + spec_float :=
  match exec subcomponent_pattern output with
  | None => inl (MetricNotFound (sub_not_found selector output))
  | Some loadTimeMatch =>
      let value := parseFloat_capture 1 loadTimeMatch in
      let unit := capture 2 (m_caps loadTimeMatch) in
      inr (if is_ms unit then div value (of_Z 1000) else value)
  end.

(** [if (isNaN(loadTime) || loadTime >= maxTime) throw ...] *)
Definition check_threshold (selector : option jsstr) (loadTime : spec_float)
  (maxTime : Z) : error + unit :=
  if isNaN loadTime || ge loadTime (of_Z maxTime)
  then inl (ThresholdExceeded selector loadTime maxTime)
  else inr tt.

(** Then "the main page load time should be less than {int} seconds";
    [k6Output] is [null] until the When step has run. *)
Definition main_page_step (k6Output : option jsstr) (maxTime : Z) : error + unit :=
  match k6Output with
  | Some (c :: out) =>
      match main_page_load_time (c :: out) with
      | inl e => inl e
      | inr loadTime => check_threshold None loadTime maxTime
      end
  | _ => inl (NoOutput no_main_output)
  end.

(** The loop over the captured outputs, one per selector. *)
Fixpoint subcomponent_loop (k6Outputs : list (jsstr * jsstr)) (maxTime : Z)
  : error + unit :=
  match k6Outputs with
  | [] => inr tt
  | (selector, output) :: more =>
      match subcomponent_load_time selector output with
      | inl e => inl e
      | inr loadTime =>
          match check_threshold (Some selector) loadTime maxTime with
          | inl e => inl e
          | inr _ => subcomponent_loop more maxTime
          end
      end
  end.

(** Then "each subcomponent load time should be less than {int} seconds". *)
Definition subcomponent_step (k6Outputs : list (jsstr * jsstr)) (maxTime : Z)
  : error + unit :=
  match k6Outputs with
  | [] => inl (NoOutput no_sub_outputs)
  | _ => subcomponent_loop k6Outputs maxTime
  end.

Definition message (e : error) : option jsstr :=
  match e with
  | NoOutput m | MetricNotFound m => Some m
  | ThresholdExceeded _ _ _ => None
  end.

End Steps.

(* ------------------------------------------------------------------------- *)
(** ** The engine: configuration ([CONFIG], lines 277-309) *)
(* ------------------------------------------------------------------------- *)

Module Config.
Import JsString JsNumber Regex.

(** [__ENV]: the environment of the k6 process. *)
Abbreviation env := (gmap string jsstr).

Record timeouts : Type := Timeouts {
  domcontentloaded : spec_float;
  element : spec_float;
  component : spec_float;
  http : spec_float;
  screenshot : spec_float
}.

Record features : Type := Features {
  screenshots : bool;
  networkLogging : bool;
  highlighting : bool
}.

Record config : Type := MkConfig {
  vus : spec_float;
  iterations : spec_float;
  connectivityTimeThreshold : spec_float;
  testUrl : option jsstr;
  subcomponentSelector : option jsstr;
  expectedText : option jsstr;
  cfg_timeouts : timeouts;
  pollInterval : spec_float;
  network_condition : jsstr;
  network_profile : jsstr;
  cpu_condition : jsstr;
  cpu_throttling : spec_float;
  cfg_features : features
}.

(** [Math.max(floor, +__ENV.KEY || fallback)] *)
Definition floored (e : env) (key : string) (floor fallback : Z) : spec_float :=
  Math_max (of_Z floor) (or_num (ToNumber (e !! key)) (of_Z fallback)).

(** [__ENV.KEY !== "false"] *)
Definition enabled (e : env) (key : string) : bool :=
  negb (bool_decide (e !! key = Some (lit "false"))).

Definition CONFIG (e : env) : config :=
  {| vus := floored e "VUS" 1 1;
     iterations := floored e "ITERATIONS" 1 1;
     connectivityTimeThreshold := floored e "USER_CONNECTIVITY_TIME" 100 1000;
     testUrl := trim <$> e !! "TEST_URL";
     subcomponentSelector := trim <$> e !! "SUBCOMPONENT_SELECTOR";
     expectedText := trim <$> e !! "EXPECTED_TEXT";
     cfg_timeouts :=
       {| domcontentloaded := floored e "DOM_TIMEOUT" 5000 20000;
          element := floored e "ELEMENT_TIMEOUT" 1000 10000;
          component := floored e "COMPONENT_TIMEOUT" 1000 5000;
          http := floored e "HTTP_TIMEOUT" 1000 5000;
          screenshot := floored e "SCREENSHOT_TIMEOUT" 200 500 |};
     pollInterval := floored e "POLL_INTERVAL" 50 100;
     network_condition := or_str (e !! "K6_NETWORK_CONDITION") (lit "WIFI");
     network_profile := or_str (e !! "K6_NETWORK_PROFILE") (lit "WiFi");
     cpu_condition := or_str (e !! "K6_CPU_CONDITION") (lit "HighCPU");
     cpu_throttling := floored e "K6_CPU_THROTTLING" 1 1;
     cfg_features :=
       {| screenshots := enabled e "ENABLE_SCREENSHOTS";
          networkLogging := enabled e "ENABLE_NETWORK_LOGGING";
          highlighting := enabled e "ENABLE_HIGHLIGHTING" |} |}.

(** *** [validateRequiredEnvironmentVariables] (lines 359-393) *)

(** [/^https?:\/\/[^\s]+$/] *)
Definition urlPattern : regex :=
  Seq Bol
    (Seq (Lit (lit "http"))
       (Seq (Opt (Chr 115))
          (Seq (Lit (lit "://"))
             (Seq (Plus (Cls (fun c => negb (is_space c)))) Eol)))).

(** The class of [selectorPattern]; code unit 34 is the double quote. *)
Definition selector_char (c : N) : bool :=
  is_alnum c || one_of "[]=':._#-(),>+~*|^$" c || (c =? 34)%N || is_space c.

(** [/^[a-zA-Z0-9\[\]=...\s\(\),>+~*|^$]+$/] *)
Definition selectorPattern : regex :=
  Seq Bol (Seq (Plus (Cls selector_char)) Eol).

Definition url_required : jsstr := lit "TEST_URL is required and cannot be empty".

Definition url_invalid (url : jsstr) : jsstr :=
  lit "TEST_URL must be a valid URL with http or https protocol, got: " ++ url.

Definition selector_invalid (sel : jsstr) : jsstr :=
  lit "SUBCOMPONENT_SELECTOR must be a valid CSS selector, got: " ++ sel.

(** The violations, in the order they are pushed. *)
Definition validationErrors (cfg : config) : list jsstr :=
  (match testUrl cfg with
   | Some (c :: u) =>
       if test urlPattern (c :: u) then [] else [url_invalid (c :: u)]
   | _ => [url_required]
   end)
  ++
  (match subcomponentSelector cfg with
   | Some (c :: sel) =>
       if test selectorPattern (c :: sel) then [] else [selector_invalid (c :: sel)]
   | _ => []
   end).

Definition validation_message (errors : list jsstr) : jsstr :=
  lit "Environment validation failed:" ++ [10%N]
  ++ join [10%N] (List.map (fun e => lit "  - " ++ e) errors).

(** The function returns normally ([inr]) or throws one [Error] ([inl])
    whose message lists every violation. *)
Definition validateRequiredEnvironmentVariables (cfg : config) : jsstr + unit :=
  match validationErrors cfg with
  | [] => inr tt
  | errors => inl (validation_message errors)
  end.

End Config.

(* ------------------------------------------------------------------------- *)
(** ** The engine: one iteration (the default export, lines 964-1057) *)
(* ------------------------------------------------------------------------- *)

Module Iteration.
Import JsString Config.

(** What an iteration does to the outside world, in the order it does it. *)
Inductive effect : Type :=
| HttpGet
| NewContext
| NewPage
| Measure
| ErrorScreenshot
| ClosePage
| CloseContext.

(** How the outside world answers: which calls throw. *)
Record world : Type := World {
  http_get_throws : bool;
  newContext_throws : bool;
  newPage_throws : bool;
  measure_throws : bool;
  close_throws : bool
}.

Inductive outcome : Type :=
| Returned
| Thrown (message : option jsstr).

(** The [finally] block: the page and the context that exist are closed. *)
Definition cleanup (w : world) (page context : bool) : list effect :=
  (if page then [ClosePage] else [])
  ++ (if page && close_throws w then []
      else if context then [CloseContext] else []).

Definition default_export (cfg : config) (w : world) : list effect * outcome :=
  match validateRequiredEnvironmentVariables cfg with
  | inl message => ([], Thrown (Some message))
  | inr _ =>
      if http_get_throws w then ([HttpGet], Thrown None)
      else if newContext_throws w
      then ([HttpGet; NewContext] ++ cleanup w false false, Thrown None)
      else if newPage_throws w
      then ([HttpGet; NewContext; NewPage] ++ cleanup w false true, Thrown None)
      else if measure_throws w
      then ([HttpGet; NewContext; NewPage; Measure; ErrorScreenshot]
              ++ cleanup w true true, Thrown None)
      else ([HttpGet; NewContext; NewPage; Measure] ++ cleanup w true true,
            Returned)
  end.

End Iteration.

(* ------------------------------------------------------------------------- *)
(** ** The engine: the scope of the module *)
(* ------------------------------------------------------------------------- *)

Module Scope.
Import JsString Config Iteration.

(** The binding of the module that the iterations of a virtual user share:
    [CONFIG] (lines 278-309), assigned once, when the module is loaded. The
    functions of the file read it; the scope is threaded through the
    iterations all the same, so that a write would show. *)
Record scope : Type := MkScope {
  scope_CONFIG : config
}.


(** One call of the default export in the loaded module. *)
Definition iteration (w : world) (s : scope) : (list effect * outcome) * scope :=
  (default_export (scope_CONFIG s) w, s).

(** The iterations of a virtual user, in order. *)
Fixpoint iterations (ws : list world) (s : scope)
  : list (list effect * outcome) * scope :=
  match ws with
  | [] => ([], s)
  | w :: ws' =>
      let '(r, s1) := iteration w s in
      let '(rs, s2) := iterations ws' s1 in
      (r :: rs, s2)
  end.

End Scope.

(* ------------------------------------------------------------------------- *)
(** ** The engine: the readiness poller
       ([waitForReactComponentReady], lines 506-615) *)
(* ------------------------------------------------------------------------- *)

Module Poller.
Import JsString JsNumber.

Record ComponentState : Type := MkState {
  isVisible : bool;
  isEnabled : bool;
  isInteractable : bool;
  containsExpectedText : bool;
  expectedTextIsVisible : bool;
  paintWorkCompleted : bool;
  loadTime : Z
}.

Definition initialState : ComponentState :=
  MkState false false false false false false 0.

(** The awaited operations that sample the page, in checklist order. *)
Inductive op : Type :=
| OpQuery          (* page.$(selector) *)
| OpIsVisible      (* element.isVisible() *)
| OpIsEnabled      (* element.isEnabled() *)
| OpTextContent    (* element.textContent() *)
| OpTextVisible    (* page.locator(...).first().isVisible() *)
| OpPaint.         (* checkPaintCompletion(page) *)

Inductive answer (A : Type) : Type :=
| Ok (a : A)
| Throws.
Arguments Ok {A} a.
Arguments Throws {A}.

(** The page as the poller observes it: what each operation answers when it
    is started at a given clock reading, how long it takes, and how long
    [page.waitForTimeout(d)] takes for a Number [d] of milliseconds.
    [checkPaintCompletion] catches its own errors. *)
Record Page : Type := MkPage {
  query_selector : Z -> answer bool;
  element_isVisible : Z -> answer bool;
  has_isEnabled : bool;
  element_isEnabled : Z -> answer bool;
  element_textContent : Z -> answer (option jsstr);
  locator_isVisible : Z -> answer bool;
  checkPaintCompletion : Z -> bool;
  latency : op -> Z -> nat;
  timer : spec_float -> Z -> nat
}.

(** The mutable variables of the function, the clock, and (not in the
    source) the record of what each sampling tick evaluated, newest first. *)
Record World : Type := MkWorld {
  now : Z;
  lastCheckTime : Z;
  componentState : ComponentState;
  ticks : list (list (op * bool))
}.

(** State and exceptions. *)
Definition M (A : Type) : Type := World -> answer A * World.

Definition ret {A} (a : A) : M A := fun w => (Ok a, w).

Definition bind {A B} (m : M A) (f : A -> M B) : M B :=
  fun w =>
    match m w with
    | (Ok a, w') => f a w'
    | (Throws, w') => (Throws, w')
    end.

Notation "'let*' x := m 'in' k" := (bind m (fun x => k))
  (at level 10, x name, m at level 100, k at level 200).
Notation "'run*' m 'in' k" := (bind m (fun _ => k))
  (at level 10, m at level 100, k at level 200).

Definition get {A} (f : World -> A) : M A := fun w => (Ok (f w), w).

Definition set_lastCheckTime (t : Z) : M unit :=
  fun w => (Ok tt, MkWorld (now w) t (componentState w) (ticks w)).

Definition update (f : ComponentState -> ComponentState) : M unit :=
  fun w => (Ok tt, MkWorld (now w) (lastCheckTime w) (f (componentState w)) (ticks w)).

Definition advance (d : Z) (w : World) : World :=
  MkWorld (now w + d) (lastCheckTime w) (componentState w) (ticks w).

Definition begin_tick : M unit :=
  fun w => (Ok tt, MkWorld (now w) (lastCheckTime w) (componentState w) ([] :: ticks w)).

Definition note (o : op) (met : bool) (w : World) : World :=
  MkWorld (now w) (lastCheckTime w) (componentState w)
    (match ticks w with
     | t :: ts => ((o, met) :: t) :: ts
     | [] => [[(o, met)]]
     end).

(** [a < x] for the difference [a] of two readings of [Date.now()] and a
    Number [x]. The readings are integers below 2^53, so that the difference
    is a Number that binary64 holds exactly, and the operator compares the
    two values: [x] is [(-1)^s * m * 2^e], an infinity or NaN. *)
Definition lt_int (a : Z) (x : spec_float) : bool :=
  match x with
  | S754_zero _ => a <? 0
  | S754_infinity s => negb s
  | S754_nan => false
  | S754_finite s m e =>
      let v := if s then Z.neg m else Z.pos m in
      if 0 <=? e then a <? v * 2 ^ e else a * 2 ^ (- e) <? v
  end.

Section Run.
Variable page : Page.
Variable pollInterval : spec_float.      (* CONFIG.pollInterval *)
Variable expectedText : option jsstr.
Variable timeout : spec_float.           (* by default CONFIG.timeouts.component *)
Variable startTime : Z.

(** [await page.waitForTimeout(d)] *)
Definition waitForTimeout (d : spec_float) : M unit :=
  fun w => (Ok tt, advance (Z.of_nat (timer page d (now w))) w).

(** An awaited page operation: it answers for the moment it is started,
    takes its latency, and is recorded with the value it gives the check. *)
Definition sample {A} (o : op) (f : Z -> answer A) (met : answer A -> bool) : M A :=
  fun w =>
    let r := f (now w) in
    (r, note o (met r) (advance (Z.of_nat (latency page o (now w))) w)).

Definition met_bool (r : answer bool) : bool :=
  match r with
  | Ok b => b
  | Throws => false
  end.

Definition contains (tc : answer (option jsstr)) : bool :=
  match tc, expectedText with
  | Ok (Some t), Some e => includes t e
  | _, _ => false
  end.

Definition set_isVisible (b : bool) (s : ComponentState) : ComponentState :=
  MkState b (isEnabled s) (isInteractable s) (containsExpectedText s)
    (expectedTextIsVisible s) (paintWorkCompleted s) (loadTime s).
Definition set_isEnabled (b : bool) (s : ComponentState) : ComponentState :=
  MkState (isVisible s) b (isInteractable s) (containsExpectedText s)
    (expectedTextIsVisible s) (paintWorkCompleted s) (loadTime s).
Definition set_isInteractable (s : ComponentState) : ComponentState :=
  MkState (isVisible s) (isEnabled s) (isVisible s && isEnabled s)
    (containsExpectedText s) (expectedTextIsVisible s) (paintWorkCompleted s)
    (loadTime s).
Definition set_containsExpectedText (b : bool) (s : ComponentState) : ComponentState :=
  MkState (isVisible s) (isEnabled s) (isInteractable s) b
    (expectedTextIsVisible s) (paintWorkCompleted s) (loadTime s).
Definition set_expectedTextIsVisible (b : bool) (s : ComponentState) : ComponentState :=
  MkState (isVisible s) (isEnabled s) (isInteractable s) (containsExpectedText s)
    b (paintWorkCompleted s) (loadTime s).
Definition set_paintWorkCompleted (b : bool) (s : ComponentState) : ComponentState :=
  MkState (isVisible s) (isEnabled s) (isInteractable s) (containsExpectedText s)
    (expectedTextIsVisible s) b (loadTime s).
Definition set_loadTime (t : Z) (s : ComponentState) : ComponentState :=
  MkState (isVisible s) (isEnabled s) (isInteractable s) (containsExpectedText s)
    (expectedTextIsVisible s) (paintWorkCompleted s) t.

(** How the [try] block of one loop iteration ends. *)
Inductive ctrl : Type :=
| Continue   (* a [continue] statement *)
| Break      (* the [break] statement *)
| Next.      (* the end of the block *)

Definition minCheckInterval : spec_float := Math_max (of_Z 50) pollInterval.

(** The paint check and what follows it (lines 577-584 and 591-597). *)
Definition paint_and_finish : M ctrl :=
  let* p := sample OpPaint (fun t => Ok (checkPaintCompletion page t)) met_bool in
  run* update (set_paintWorkCompleted p) in
  if p then
    let* t := get now in
    run* update (set_loadTime (t - startTime)) in
    ret Break
  else ret Next.

(** [componentState.expectedTextIsVisible = await textElement.isVisible()]
    in its own [try], whose [catch] falls back on [componentState.isVisible]
    (lines 568-574). *)
Definition text_visible : M unit :=
  fun w =>
    let visible := isVisible (componentState w) in
    match sample OpTextVisible (locator_isVisible page)
            (fun r => match r with Ok b => b | Throws => visible end) w with
    | (Ok b, w') => update (set_expectedTextIsVisible b) w'
    | (Throws, w') => update (set_expectedTextIsVisible visible) w'
    end.

(** The text checks (lines 562-586). *)
Definition text_checks : M ctrl :=
  let* tc := sample OpTextContent (element_textContent page) contains in
  run* update (set_containsExpectedText (contains (Ok tc))) in
  let* has := get (fun w => containsExpectedText (componentState w)) in
  if has then
    run* text_visible in
    let* shown := get (fun w => expectedTextIsVisible (componentState w)) in
    if shown then paint_and_finish else ret Next
  else ret Next.

(** The body of the [try] block (lines 530-599). *)
Definition try_block : M ctrl :=
  let* t := get now in
  let* last := get lastCheckTime in
  if lt_int (t - last) minCheckInterval then
    run* waitForTimeout (SFsub prec emax minCheckInterval (of_Z (t - last))) in
    ret Continue
  else
    run* set_lastCheckTime t in
    run* begin_tick in
    let* element := sample OpQuery (query_selector page) met_bool in
    if negb element then
      run* waitForTimeout pollInterval in
      ret Continue
    else
      let* v := sample OpIsVisible (element_isVisible page) met_bool in
      run* update (set_isVisible v) in
      if negb v then
        run* waitForTimeout pollInterval in
        ret Continue
      else
        let* en := (if has_isEnabled page
                    then sample OpIsEnabled (element_isEnabled page) met_bool
                    else ret true) in
        run* update (set_isEnabled en) in
        run* update set_isInteractable in
        let* interactable := get (fun w => isInteractable (componentState w)) in
        if interactable then
          if truthy expectedText then text_checks
          else
            run* update (set_containsExpectedText true) in
            run* update (set_expectedTextIsVisible true) in
            paint_and_finish
        else ret Next.

(** One iteration of the [while] loop: [true] when the loop goes on. An
    exception is caught and logged, then the iteration ends as usual. *)
Definition iteration (w : World) : bool * World :=
  match try_block w with
  | (Ok Continue, w') => (true, w')
  | (Ok Break, w') => (false, w')
  | (Ok Next, w') | (Throws, w') => (true, snd (waitForTimeout pollInterval w'))
  end.

(** The [while] loop, with a bound on the number of iterations: [None]
    when the loop has not ended within the bound. *)
Fixpoint loop (fuel : nat) (w : World) : option World :=
  if lt_int (now w - startTime) timeout then
    match fuel with
    | O => None
    | S fuel' =>
        let '(again, w') := iteration w in
        if again then loop fuel' w' else Some w'
    end
  else Some w.

(** Lines 607-612: the load time of a run that timed out. *)
Definition finish (w : World) : World :=
  if (loadTime (componentState w) =? 0)
  then snd (update (set_loadTime (now w - startTime)) w)
  else w.

End Run.

Definition initialWorld (startTime : Z) : World :=
  MkWorld startTime 0 initialState [].

(** The whole run, started when the clock reads [startTime], with a bound
    on the number of iterations of its loop. *)
Definition run (fuel : nat) (page : Page) (pollInterval : spec_float)
  (expectedText : option jsstr) (timeout : spec_float) (startTime : Z)
  : option World :=
  finish startTime
    <$> loop page pollInterval expectedText timeout startTime fuel
          (initialWorld startTime).

Definition waitForReactComponentReady (fuel : nat) (page : Page)
  (pollInterval : spec_float) (expectedText : option jsstr)
  (timeout : spec_float) (startTime : Z) : option ComponentState :=
  componentState <$> run fuel page pollInterval expectedText timeout startTime.

(** The names of the failed checks, in the insertion order of the [checks]
    object of [performReactComponentChecks] (lines 653-670). *)
Definition failedChecks (s : ComponentState) (expectedText : option jsstr)
  : list jsstr :=
  let entry (name : string) (ok : bool) := if ok then [] else [lit name] in
  entry "Component is visible" (isVisible s)
  ++ entry "Component is enabled" (isEnabled s)
  ++ entry "Component is interactable" (isInteractable s)
  ++ entry "Component paint work completed" (paintWorkCompleted s)
  ++ (if truthy expectedText
      then entry "Component contains expected text" (containsExpectedText s)
           ++ entry "Expected text is visible" (expectedTextIsVisible s)
      else []).

(** [performReactComponentChecks] (lines 652-698): it returns, or throws an
    error that names every failed check; code unit 34 is the double quote. *)
Definition performReactComponentChecks (s : ComponentState)
  (expectedText : option jsstr) (selector : jsstr) : jsstr + unit :=
  match failedChecks s expectedText with
  | [] => inr tt
  | failed =>
      inl (lit "Component validation failed for " ++ [34%N] ++ selector
             ++ [34%N] ++ lit ". Failed: " ++ join (lit ", ") failed)
  end.

End Poller.

(* ------------------------------------------------------------------------- *)
(** ** The engine: the network correlator
       (the listeners of [measureReactUIPerformance], lines 810-848) *)
(* ------------------------------------------------------------------------- *)

Module Network.
Import JsString.

(** What the listeners read of a request: [method] may be undefined, and
    [_guid] is defined on some platforms only. *)
Record Request : Type := MkRequest {
  req_method : option jsstr;
  req_guid : option jsstr;
  req_url : jsstr
}.

Record Response : Type := MkResponse {
  res_request : Request;
  res_status : Z
}.

(** A value of the [requestTimings] map. *)
Record Timing : Type := MkTiming {
  start : Z;
  t_method : jsstr;
  t_url : jsstr
}.

(** An element of [networkLogs]. *)
Record LogEntry : Type := MkLog {
  method : jsstr;
  url : jsstr;
  responseTime : Z;
  status : Z
}.

Record State : Type := MkNet {
  requestTimings : gmap jsstr Timing;
  networkLogs : list LogEntry
}.

Definition initial : State := MkNet ∅ [].

Definition apiMethods : list jsstr :=
  [lit "GET"; lit "POST"; lit "PUT"; lit "PATCH"; lit "DELETE"].

(** [String.prototype.toUpperCase] on ASCII letters; the listeners below
    take the conversion as a parameter. *)
Definition ascii_upper (s : jsstr) : jsstr :=
  List.map (fun c => if is_lower c then (c - 32)%N else c) s.

Section Listeners.
Variable toUpperCase : jsstr -> jsstr.

(** [apiMethods.includes(method?.toUpperCase())] *)
Definition tracked (r : Request) : bool :=
  match req_method r with
  | Some m => bool_decide (toUpperCase m ∈ apiMethods)
  | None => false
  end.

(** [req._guid || req.url()] *)
Definition requestId (r : Request) : jsstr := or_str (req_guid r) (req_url r).

(** [page.on("request", ...)], called when the clock reads [t]. *)
Definition on_request (t : Z) (req : Request) (st : State) : State :=
  match req_method req with
  | Some m =>
      if tracked req
      then MkNet (<[requestId req := MkTiming t (toUpperCase m) (req_url req)]>
                    (requestTimings st))
             (networkLogs st)
      else st
  | None => st
  end.

(** [page.on("response", ...)], called when the clock reads [t]. *)
Definition on_response (t : Z) (res : Response) (st : State) : State :=
  let req := res_request res in
  match req_method req with
  | Some m =>
      if tracked req then
        match requestTimings st !! requestId req with
        | Some timing =>
            MkNet (delete (requestId req) (requestTimings st))
              (networkLogs st
                 ++ [MkLog (toUpperCase m) (req_url req) (t - start timing)
                       (res_status res)])
        | None => st
        end
      else st
  | None => st
  end.

(** The events that the page delivers, each with the clock reading. *)
Inductive event : Type :=
| RequestEvent (t : Z) (req : Request)
| ResponseEvent (t : Z) (res : Response).

Definition deliver (st : State) (e : event) : State :=
  match e with
  | RequestEvent t req => on_request t req st
  | ResponseEvent t res => on_response t res st
  end.

(** Any interleaving of events, delivered in order. *)
Definition deliver_all (events : list event) : State :=
  fold_left deliver events initial.

(** The listeners are registered only when [CONFIG.features.networkLogging]
    is set (line 815). *)
Definition observe (networkLogging : bool) (events : list event) : State :=
  if networkLogging then deliver_all events else initial.

End Listeners.
End Network.

(* ------------------------------------------------------------------------- *)
(** ** The engine: screenshots ([takeScreenshot], lines 190-275) *)
(* ------------------------------------------------------------------------- *)

Module Screenshot.
Import JsString Regex Config.

(** The test types and statuses that the callers pass. *)
Inductive TestType : Type := component_test | page_test | error_test.
Inductive Status : Type := pass | fail | partial.

Definition testType_name (t : TestType) : jsstr :=
  match t with
  | component_test => lit "component"
  | page_test => lit "page"
  | error_test => lit "error"
  end.

Definition status_name (s : Status) : jsstr :=
  match s with
  | pass => lit "pass"
  | fail => lit "fail"
  | partial => lit "partial"
  end.

(** The decimal digits of an identifier, as a template literal prints it. *)
Definition decimal (n : N) : jsstr :=
  lit (DecimalString.NilEmpty.string_of_uint (N.to_uint n)).

(** [String.prototype.substring(0, n)] *)
Definition substring0 (n : nat) (s : jsstr) : jsstr := take n s.

(** [String.prototype.slice(0, -n)] *)
Definition slice0_minus (n : nat) (s : jsstr) : jsstr := take (length s - n) s.

(** [/[^a-zA-Z0-9\s]/g] *)
Definition not_alnum_space : regex := Cls (fun c => negb (is_alnum c || is_space c)).

(** [/\s+/g] *)
Definition spaces : regex := Plus (Cls is_space).

(** [/[@,]/g] *)
Definition at_or_comma : regex := Cls (one_of "@,").

(** [/[:.]/g] *)
Definition colon_or_dot : regex := Cls (one_of ":.").

(** Line 204-207, from the text of [new Date().toISOString()]. *)
Definition timestamp (iso : jsstr) : jsstr :=
  slice0_minus 5 (replaceAll colon_or_dot (lit "-") iso).

(** Lines 217-220. *)
Definition scenarioName (e : env) : jsstr :=
  substring0 30
    (replaceAll spaces (lit "_")
       (replaceAll not_alnum_space []
          (or_str (e !! "SCENARIO_NAME") (lit "unknown_scenario")))).

(** Lines 222-225. *)
Definition scenarioTags (e : env) : jsstr :=
  substring0 20
    (replaceAll spaces (lit "_")
       (replaceAll at_or_comma [] (or_str (e !! "SCENARIO_TAGS") []))).

(** Lines 227-232. *)
Definition cleanExpectedText (expectedText : option jsstr) : jsstr :=
  match expectedText with
  | Some (c :: t) =>
      substring0 15
        (replaceAll spaces (lit "_") (replaceAll not_alnum_space [] (c :: t)))
  | _ => []
  end.

(** [.filter(Boolean)] on strings: the empty ones go. *)
Definition nonempty (s : jsstr) : bool :=
  match s with
  | [] => false
  | _ :: _ => true
  end.

(** Lines 234-243. *)
Definition filenameParts (e : env) (iso : jsstr) (testType : TestType)
  (status : Status) (expectedText : option jsstr) (vuId iterationId : N)
  : list jsstr :=
  List.filter nonempty
    [timestamp iso;
     scenarioName e;
     scenarioTags e;
     testType_name testType;
     status_name status;
     cleanExpectedText expectedText;
     lit "VU" ++ decimal vuId;
     lit "Iter" ++ decimal iterationId].

(** Line 245. *)
Definition filename (e : env) (iso : jsstr) (testType : TestType)
  (status : Status) (expectedText : option jsstr) (vuId iterationId : N)
  : jsstr :=
  join (lit "_")
    (filenameParts e iso testType status expectedText vuId iterationId)
  ++ lit ".png".

(** Line 246. *)
Definition screenshotPath (e : env) (iso : jsstr) (testType : TestType)
  (status : Status) (expectedText : option jsstr) (vuId iterationId : N)
  : jsstr :=
  lit "screenshots/" ++ filename e iso testType status expectedText vuId iterationId.

(** What [takeScreenshot] returns: [null] when screenshots are disabled or
    when the capture throws, the path otherwise. *)
Definition takeScreenshot (e : env) (capture_throws : bool) (iso : jsstr)
  (testType : TestType) (status : Status) (expectedText : option jsstr)
  (vuId iterationId : N) : option jsstr :=
  if screenshots (cfg_features (CONFIG e)) then
    if capture_throws then None
    else Some (screenshotPath e iso testType status expectedText vuId iterationId)
  else None.

(** The characters that every file system takes in a file name. *)
Definition filename_safe (c : N) : bool :=
  is_alnum c || one_of "_-" c.

End Screenshot.

(* ------------------------------------------------------------------------- *)
(** ** The engine: highlighting
       ([applyHighlighting], lines 28-93; [removeHighlighting], lines 161-178) *)
(* ------------------------------------------------------------------------- *)

Module Highlight.
Import JsString.

(** The values of the six properties that the highlight reads and writes:
    the object [original] of line 53 and the object of line 62. A value
    stands for its normal form, as the style declaration serializes it. *)
Record Style : Type := MkStyle {
  backgroundColor : jsstr;
  padding : jsstr;
  border : jsstr;
  borderRadius : jsstr;
  boxShadow : jsstr;
  fontWeight : jsstr
}.

(** What an inline style declares for one of the six properties and, for
    [padding], [border] and [borderRadius], which are shorthands, for the
    longhands that the property sets. [Assigned v] is what assigning [v] to
    the property leaves: the declarations that [v] expands to, none for the
    empty string. [Declared d r] is any other set of declarations [d] (a
    lone longhand such as [padding-left: 5px], a declaration marked
    [!important]) with what reading the property gives for it ([r]: the
    empty string for a shorthand that cannot stand for its longhands). *)
Inductive Property : Type :=
| Assigned (value : jsstr)
| Declared (declarations reads : jsstr).

(** [element.style.property] *)
Definition read (d : Property) : jsstr :=
  match d with
  | Assigned v => v
  | Declared _ r => r
  end.

(** The declarations of an inline style for the six properties. *)
Record Inline : Type := MkInline {
  i_backgroundColor : Property;
  i_padding : Property;
  i_border : Property;
  i_borderRadius : Property;
  i_boxShadow : Property;
  i_fontWeight : Property
}.

(** The object literal of lines 53-60. *)
Definition read_style (i : Inline) : Style :=
  {| backgroundColor := read (i_backgroundColor i);
     padding := read (i_padding i);
     border := read (i_border i);
     borderRadius := read (i_borderRadius i);
     boxShadow := read (i_boxShadow i);
     fontWeight := read (i_fontWeight i) |}.

(** [Object.assign(element.style, values)]: each assignment replaces what
    the style declares for the property and its longhands. *)
Definition assign_style (values : Style) : Inline :=
  {| i_backgroundColor := Assigned (backgroundColor values);
     i_padding := Assigned (padding values);
     i_border := Assigned (border values);
     i_borderRadius := Assigned (borderRadius values);
     i_boxShadow := Assigned (boxShadow values);
     i_fontWeight := Assigned (fontWeight values) |}.

(** An element: what its inline style declares for the six properties, the
    declarations of its inline style for every other property, and
    [dataset.highlighted]. *)
Record Element : Type := MkElement {
  style : Inline;
  otherStyle : jsstr;
  highlighted : option jsstr
}.

(** The subtree under the selected element; an element node carries the
    identity of its object. *)
Inductive Node : Type :=
| TextNode (textContent : jsstr)
| ElementNode (id : nat) (childNodes : list Node).

(** [window._highlightedElements] *)
Inductive Slot : Type :=
| Undefined
| Null
| Elements (saved : list (nat * Style)).

(** The page: the element objects by identity, and the window property. *)
Record Page : Type := MkPage {
  elements : nat -> Element;
  highlightedElements : Slot
}.

Definition highlightStyle : Style :=
  {| backgroundColor := lit "rgba(255,255,0,0.8)";
     padding := lit "4px 8px";
     border := lit "2px solid rgba(255,165,0,0.9)";
     borderRadius := lit "4px";
     boxShadow := lit "0 0 8px rgba(255,165,0,0.6)";
     fontWeight := lit "bold" |}.

(** The text nodes under a node in document order, each with its
    [parentElement]: what the TreeWalker with [SHOW_TEXT] yields. *)
Fixpoint textNodes (parent : nat) (n : Node) : list (nat * jsstr) :=
  match n with
  | TextNode t => [(parent, t)]
  | ElementNode id kids =>
      (fix walk (l : list Node) : list (nat * jsstr) :=
         match l with
         | [] => []
         | k :: l' => textNodes id k ++ walk l'
         end) kids
  end.

(** One turn of the [while] loop of [applyHighlighting] (lines 50-74). *)
Definition highlight_node (text : jsstr)
  (acc : (nat -> Element) * list (nat * Style)) (node : nat * jsstr)
  : (nat -> Element) * list (nat * Style) :=
  let '(els, highlightedElements) := acc in
  let '(parent, textContent) := node in
  if includes textContent text && negb (truthy (highlighted (els parent)))
  then
    let original := read_style (style (els parent)) in
    (<[parent := MkElement (assign_style highlightStyle) (otherStyle (els parent))
                   (Some (lit "true"))]> els,
     highlightedElements ++ [(parent, original)])
  else acc.

(** The function evaluated in the page by [applyHighlighting]; [root] is
    what [document.querySelector(sel)] returns. *)
Definition applyHighlighting (enabled : bool) (root : option Node)
  (text : option jsstr) (p : Page) : Page :=
  if enabled then
    match root, text with
    | Some n, Some (c :: t) =>
        let '(els, saved) :=
          fold_left (highlight_node (c :: t)) (textNodes 0 n) (elements p, []) in
        MkPage els (Elements saved)
    | _, _ => p
    end
  else p.

(** One call of the [forEach] callback of [removeHighlighting]. *)
Definition restore_element (els : nat -> Element) (entry : nat * Style)
  : nat -> Element :=
  let '(element, original) := entry in
  <[element := MkElement (assign_style original) (otherStyle (els element)) None]> els.

(** The function evaluated in the page by [removeHighlighting]. *)
Definition removeHighlighting (enabled : bool) (p : Page) : Page :=
  if enabled then
    match highlightedElements p with
    | Elements saved => MkPage (fold_left restore_element saved (elements p)) Null
    | _ => p
    end
  else p.

End Highlight.

(* ------------------------------------------------------------------------- *)
(** ** The vocabulary of the specification *)
(* ------------------------------------------------------------------------- *)

(** *** The metric report grammar (section 6 of the specification) *)

Module Grammar.
Import JsString JsNumber Regex Steps.

Fixpoint take_while (p : N -> bool) (s : jsstr) : jsstr :=
  match s with
  | x :: s' => if p x then x :: take_while p s' else []
  | [] => []
  end.

Fixpoint drop_while (p : N -> bool) (s : jsstr) : jsstr :=
  match s with
  | x :: s' => if p x then drop_while p s' else s
  | [] => []
  end.

(** [r*] for a character class, by recursion on the input: take a character
    of the class and go on, or else continue. *)
Fixpoint star_class (p : N -> bool) (k : cont) (s : jsstr) (c : caps)
  : option (jsstr * caps) :=
  match s with
  | x :: s' =>
      if p x then
        match star_class p k s' c with
        | Some res => Some res
        | None => k s c
        end
      else k s c
  | [] => k s c
  end.

(** [unit ::= "ms" | "s"], read at the front of what follows the number. *)
Definition unit_of (rest : jsstr) : option jsstr :=
  if prefixb (lit "ms") rest then Some (lit "ms")
  else if prefixb (lit "s") rest then Some (lit "s")
  else None.

Definition starts_outside (p : N -> bool) (rest : jsstr) : Prop :=
  match rest with
  | x :: _ => p x = false
  | [] => True
  end.

(** [s] reads [<name><dots or whitespace>:<whitespace>avg=<number>] and
    then [unit], the number being all the digits and dots that are there. *)
Definition metric_line (name : string) (s number : jsstr) (unit : option jsstr)
  : Prop :=
  exists dots ws rest,
    s = lit name ++ dots ++ [58%N] ++ ws ++ lit "avg=" ++ number ++ rest
    /\ forallb dot_or_space dots = true
    /\ forallb is_space ws = true
    /\ number <> []
    /\ forallb digit_or_dot number = true
    /\ starts_outside digit_or_dot rest
    /\ unit = unit_of rest.

(** An occurrence of the line at offset [i] of the text; the unit may be
    missing only where it is optional. *)
Definition occurs (optional : bool) (name : string) (text : jsstr) (i : nat)
  (number : jsstr) (unit : option jsstr) : Prop :=
  (i <= length text)%nat
  /\ metric_line name (drop i text) number unit
  /\ (optional = false -> is_Some unit).

Definition first_occurrence (optional : bool) (name : string) (text : jsstr)
  (i : nat) (number : jsstr) (unit : option jsstr) : Prop :=
  occurs optional name text i number unit
  /\ forall j n u, (j < i)%nat -> ~ occurs optional name text j n u.

(** The line read by a deterministic scan: number, unit, and what is left. *)
Definition scan_metric (optional : bool) (name : string) (s : jsstr)
  : option (jsstr * option jsstr * jsstr) :=
  if prefixb (lit name) s then
    match drop_while dot_or_space (drop (length (lit name)) s) with
    | 58%N :: s2 =>
        let s3 := drop_while is_space s2 in
        if prefixb (lit "avg=") s3 then
          let s4 := drop 4 s3 in
          let number := take_while digit_or_dot s4 in
          let rest := drop_while digit_or_dot s4 in
          match number with
          | [] => None
          | _ =>
              match unit_of rest with
              | Some u => Some (number, Some u, drop (length u) rest)
              | None => if optional then Some (number, None, rest) else None
              end
          end
        else None
    | _ => None
    end
  else None.

(** The captures that a scan corresponds to. *)
Definition scan_result (r : jsstr * option jsstr * jsstr) : jsstr * caps :=
  let '(number, unit, rest) := r in
  (rest,
   match unit with
   | Some u => [(2%nat, u); (1%nat, number)]
   | None => [(1%nat, number)]
   end).

(** The unit of the pattern: optional for the main page, required for a
    subcomponent. *)
Definition unit_pattern (optional : bool) : regex :=
  if optional then Opt unit_group else unit_group.

(** A binary64 value within half a unit in the last place of [num / den]. *)
Definition nearest_to (x : spec_float) (num den : Z) : Prop :=
  match x with
  | S754_finite false m e =>
      e <= 0 /\ Z.pos (digits2_pos m) = 53
      /\ 2 * Z.abs (den * Z.pos m - num * 2 ^ (- e)) <= den
  | _ => False
  end.

End Grammar.

(** *** Configuration rules (section 4.1 of the specification) *)

Module Rules.
Import JsString Regex.

Definition strip_prefix (p s : jsstr) : option jsstr :=
  if prefixb p s then Some (drop (length p) s) else None.

(** Something is left, and nothing of it is whitespace. *)
Definition nonblank (o : option jsstr) : bool :=
  match o with
  | Some (x :: r) => forallb (fun c => negb (is_space c)) (x :: r)
  | _ => false
  end.

(** [http://] or [https://], then at least one character, none a space. *)
Definition http_url (u : jsstr) : bool :=
  nonblank (strip_prefix (lit "https://") u)
  || nonblank (strip_prefix (lit "http://") u).

Definition http_prefixed (u : jsstr) : bool :=
  prefixb (lit "http://") u || prefixb (lit "https://") u.

(** The end of input, as a continuation. *)
Definition at_end : cont :=
  fun s c =>
    match s with
    | [] => Some ([], c)
    | _ :: _ => None
    end.

End Rules.

Module Floors.
Import JsNumber.


End Floors.

(** *** The network log (section 3 of the specification) *)

Module Pending.
Import JsString Network.

(** Every pending entry carries one of the tracked methods. *)
Definition pending_tracked (st : State) : Prop :=
  forall id timing,
    requestTimings st !! id = Some timing -> t_method timing ∈ apiMethods.

(** The identifier that an event is filed under. *)
Definition event_id (e : event) : jsstr :=
  match e with
  | RequestEvent _ req => requestId req
  | ResponseEvent _ res => requestId (res_request res)
  end.

End Pending.

(** *** Highlighting (section 4.6 of the specification) *)

Module Marks.
Import JsString Highlight.

(** The page holds a list of saved styles that has not been restored. *)
Definition pending (p : Page) : bool :=
  match highlightedElements p with
  | Elements _ => true
  | _ => false
  end.

(** [applyHighlighting] gets past its early return. *)
Definition applies (root : option Node) (text : option jsstr) : bool :=
  match root with
  | Some _ => truthy text
  | None => false
  end.

(** The state of the loop of [applyHighlighting] agrees with the page it
    started from: the saved elements are distinct, each was unmarked and is
    saved with the values that its six properties read, and carries the
    highlight; the others are as they were. *)
Definition consistent (els0 : nat -> Element)
  (acc : (nat -> Element) * list (nat * Style)) : Prop :=
  NoDup (acc.2).*1
  /\ (forall id original, (id, original) ∈ acc.2 ->
        original = read_style (style (els0 id))
        /\ truthy (highlighted (els0 id)) = false
        /\ acc.1 id = MkElement (assign_style highlightStyle)
                        (otherStyle (els0 id)) (Some (lit "true")))
  /\ (forall id, id ∉ (acc.2).*1 -> acc.1 id = els0 id).

(** The six properties of an inline style are as assignments leave them:
    reading them and assigning what was read gives the declarations back. *)
Definition restorable (i : Inline) : Prop := assign_style (read_style i) = i.

(** An inline style that declares none of the six properties. *)
Definition undeclared : Inline := assign_style (MkStyle [] [] [] [] [] []).

End Marks.

(** *** The readiness checklist (section 4.3 of the specification) *)

Module Checklist.
Import JsString JsNumber Poller.

(** The page operations of a tick, in checklist order: exists, visible,
    enabled, contains the expected text, expected text visible, paint
    completed. "Interactable" is derived from visible and enabled without
    looking at the page, "enabled" is sampled only when the element has the
    method, and the text checks apply only when a text is expected. *)
Definition checklist (page : Page) (expectedText : option jsstr) : list op :=
  [OpQuery; OpIsVisible]
  ++ (if has_isEnabled page then [OpIsEnabled] else [])
  ++ (if truthy expectedText then [OpTextContent; OpTextVisible] else [])
  ++ [OpPaint].

(** A tick, oldest operation first, is short-circuited: it went down the
    checklist in order, without skipping, and only the last operation it
    evaluated may be unmet. *)
Fixpoint short_circuit (checks : list op) (tick : list (op * bool)) : Prop :=
  match tick, checks with
  | [], _ => True
  | (o, met) :: rest, c :: checks' =>
      o = c /\ (rest <> [] -> met = true) /\ short_circuit checks' rest
  | _ :: _, [] => False
  end.

(** What the check of an operation finds when the operation is started at
    [t]; the fallback of the text locator is the visibility of the
    component, which has been found at that point. *)
Definition met (page : Page) (expectedText : option jsstr) (o : op) (t : Z)
  : bool :=
  match o with
  | OpQuery => met_bool (query_selector page t)
  | OpIsVisible => met_bool (element_isVisible page t)
  | OpIsEnabled => met_bool (element_isEnabled page t)
  | OpTextContent => contains expectedText (element_textContent page t)
  | OpTextVisible =>
      match locator_isVisible page t with
      | Ok b => b
      | Throws => true
      end
  | OpPaint => checkPaintCompletion page t
  end.

(** A list of checks evaluated top to bottom from the clock reading [t] on,
    stopping at the first unmet condition; an operation is started when the
    one before it has answered. *)
Fixpoint sampled (page : Page) (expectedText : option jsstr) (checks : list op)
  (t : Z) : list (op * bool) :=
  match checks with
  | [] => []
  | o :: rest =>
      (o, met page expectedText o t)
      :: if met page expectedText o t
         then sampled page expectedText rest (t + Z.of_nat (latency page o t))
         else []
  end.

(** The tick that starts at [t], oldest operation first. *)
Definition tick_at (page : Page) (expectedText : option jsstr) (t : Z)
  : list (op * bool) :=
  sampled page expectedText (checklist page expectedText) t.

(** A recorded tick (newest operation first) is the tick that starts at
    some clock reading of the run. *)
Definition is_tick (page : Page) (expectedText : option jsstr) (startTime : Z)
  (tick : list (op * bool)) : Prop :=
  exists t, startTime <= t /\ rev tick = tick_at page expectedText t.

(** Every check of the state holds. *)
Definition all_checks (s : ComponentState) : Prop :=
  isVisible s = true /\ isEnabled s = true /\ isInteractable s = true
  /\ containsExpectedText s = true /\ expectedTextIsVisible s = true.

(** The invariant of section 3 on a ComponentState, with the tick that
    produced it: when the paint is completed, that tick went through the
    whole checklist and met every check. *)
Definition state_invariant (page : Page) (expectedText : option jsstr)
  (w : World) : Prop :=
  0 <= loadTime (componentState w)
  /\ (paintWorkCompleted (componentState w) = true ->
      all_checks (componentState w)
      /\ exists tick older,
           ticks w = tick :: older
           /\ rev tick = List.map (fun o => (o, true)) (checklist page expectedText)).

(** What holds at the head of the loop. *)
Definition loop_invariant (page : Page) (expectedText : option jsstr)
  (startTime : Z) (w : World) : Prop :=
  startTime <= now w
  /\ paintWorkCompleted (componentState w) = false
  /\ loadTime (componentState w) = 0
  /\ Forall (is_tick page expectedText startTime) (ticks w).

(** What holds when the loop is left by [break]. *)
Definition break_invariant (page : Page) (expectedText : option jsstr)
  (startTime : Z) (w : World) : Prop :=
  startTime <= now w
  /\ paintWorkCompleted (componentState w) = true
  /\ loadTime (componentState w) = now w - startTime
  /\ all_checks (componentState w)
  /\ (exists tick older,
        ticks w = tick :: older
        /\ rev tick = List.map (fun o => (o, true)) (checklist page expectedText))
  /\ Forall (is_tick page expectedText startTime) (ticks w).

(** The smallest integer that is not below a finite Number: an integer
    [a] is below the Number exactly when it is below this one. *)
Definition ceiling (x : spec_float) : Z :=
  match x with
  | S754_finite s m e =>
      let v := if s then Z.neg m else Z.pos m in
      if 0 <=? e then v * 2 ^ e else - ((- v) / 2 ^ (- e))
  | _ => 0
  end.

(** A page that answers at once, and on which a wait for the poll interval
    takes the poll interval. *)
Definition instant (page : Page) (pollInterval : spec_float) : Prop :=
  (forall o t, latency page o t = 0%nat)
  /\ (forall t, timer page pollInterval t = Z.to_nat (ceiling pollInterval)).

(** The clock moves on during every wait. *)
Definition ticking (page : Page) : Prop :=
  forall d t, (0 < timer page d t)%nat.

(** Every applicable check is met when the page is sampled at [t]. *)
Definition ready (page : Page) (expectedText : option jsstr) (t : Z) : bool :=
  met_bool (query_selector page t)
  && met_bool (element_isVisible page t)
  && (if has_isEnabled page then met_bool (element_isEnabled page t) else true)
  && (if truthy expectedText
      then contains expectedText (element_textContent page t)
           && match locator_isVisible page t with
              | Ok b => b
              | Throws => true
              end
      else true)
  && checkPaintCompletion page t.

(** [element.isVisible()] never answers true. *)
Definition never_visible (page : Page) : Prop :=
  forall t, element_isVisible page t <> Ok true.

End Checklist.

(* ------------------------------------------------------------------------- *)
(** ** Control flow of the scripts: state and exceptions *)
(* ------------------------------------------------------------------------- *)

Module Js.

(** A computation over a state [S] that returns a value ([inr]) or throws
    ([inl]). *)
Definition M (S X A : Type) : Type := S -> (X + A) * S.

Section Monad.
Context {S X : Type}.

Definition ret {A} (a : A) : M S X A := fun s => (inr a, s).

Definition throw {A} (x : X) : M S X A := fun s => (inl x, s).

Definition bind {A B} (m : M S X A) (f : A -> M S X B) : M S X B :=
  fun s =>
    match m s with
    | (inr a, s') => f a s'
    | (inl x, s') => (inl x, s')
    end.

(** [try { m } catch (x) { handler(x) }] *)
Definition try_catch {A} (m : M S X A) (handler : X -> M S X A) : M S X A :=
  fun s =>
    match m s with
    | (inl x, s') => handler x s'
    | (inr a, s') => (inr a, s')
    end.

Definition gets {A} (f : S -> A) : M S X A := fun s => (inr (f s), s).

Definition modify (f : S -> S) : M S X unit := fun s => (inr tt, f s).

End Monad.

Notation "'let!' x := m 'in' k" := (bind m (fun x => k))
  (at level 10, x name, m at level 100, k at level 200).
Notation "'run!' m 'in' k" := (bind m (fun _ => k))
  (at level 10, m at level 100, k at level 200).

End Js.

(* ------------------------------------------------------------------------- *)
(** ** The hooks: [step_definitions/hook.js] *)
(* ------------------------------------------------------------------------- *)

Module Hooks.
Import JsString Config.

(** The keys of [NETWORK_CONDITIONS] (lines 22-35) and of [CPU_CONDITIONS]
    (lines 38-47). *)
Inductive Network : Type := Net4G | NetWIFI | Net3G.
Inductive Cpu : Type := HighCPU | LowCPU.

Definition network_name (n : Network) : jsstr :=
  match n with
  | Net4G => lit "4G"
  | NetWIFI => lit "WIFI"
  | Net3G => lit "3G"
  end.

(** [NETWORK_CONDITIONS[n].profile] *)
Definition profile (n : Network) : jsstr :=
  match n with
  | Net4G => lit "Regular 4G"
  | NetWIFI => lit "WiFi"
  | Net3G => lit "Fast 3G"
  end.

Definition cpu_name (c : Cpu) : jsstr :=
  match c with
  | HighCPU => lit "HighCPU"
  | LowCPU => lit "LowCPU"
  end.

(** [CPU_CONDITIONS[c].throttling.toString()] *)
Definition throttling (c : Cpu) : jsstr :=
  match c with
  | HighCPU => lit "1"
  | LowCPU => lit "4"
  end.

(** The variables of the module and [process.env]. *)
Record State : Type := MkHooks {
  currentScenario : option jsstr;
  networkCondition : option Network;
  cpuCondition : option Cpu;
  process_env : env
}.

(** The bodies of the hooks tagged [@4G], [@WIFI] and [@3G] (lines 50-78). *)
Definition before_network (n : Network) (s : State) : State :=
  MkHooks (currentScenario s) (Some n) (cpuCondition s)
    (<["K6_NETWORK_PROFILE" := profile n]>
       (<["K6_NETWORK_CONDITION" := network_name n]> (process_env s))).

(** The bodies of the hooks tagged [@HighCPU] and [@LowCPU] (lines 81-99). *)
Definition before_cpu (c : Cpu) (s : State) : State :=
  MkHooks (currentScenario s) (networkCondition s) (Some c)
    (<["K6_CPU_THROTTLING" := throttling c]>
       (<["K6_CPU_CONDITION" := cpu_name c]> (process_env s))).

(** The untagged [Before] hook (lines 102-124); [tags] are the names of
    [scenario.pickle.tags], each with its [@]. *)
Definition before_scenario (name : jsstr) (tags : list jsstr) (s : State) : State :=
  MkHooks (Some name) (networkCondition s) (cpuCondition s)
    (<["SCENARIO_TAGS" := join (lit ", ") tags]>
       (<["SCENARIO_NAME" := name]> (process_env s))).

(** The [After] hook (lines 127-147). *)
Definition after (s : State) : State :=
  MkHooks (currentScenario s) None None
    (delete "SCENARIO_TAGS"
       (delete "SCENARIO_NAME"
          (delete "K6_CPU_THROTTLING"
             (delete "K6_CPU_CONDITION"
                (delete "K6_NETWORK_PROFILE"
                   (delete "K6_NETWORK_CONDITION" (process_env s))))))).

(** A hook registered with [{ tags: "@T" }] runs for the scenarios that
    carry the tag. *)
Definition tagged (tag : string) (tags : list jsstr) (hook : State -> State)
  (s : State) : State :=
  if bool_decide (lit tag ∈ tags) then hook s else s.

(** The [Before] hooks of a scenario, run in the order in which the file
    registers them. *)
Definition before (name : jsstr) (tags : list jsstr) (s : State) : State :=
  before_scenario name tags
    (tagged "@LowCPU" tags (before_cpu LowCPU)
       (tagged "@HighCPU" tags (before_cpu HighCPU)
          (tagged "@3G" tags (before_network Net3G)
             (tagged "@WIFI" tags (before_network NetWIFI)
                (tagged "@4G" tags (before_network Net4G) s))))).

End Hooks.

(* ------------------------------------------------------------------------- *)
(** ** The consumer: the Given and When steps
       ([step_definitions/steps.js], lines 9-112) *)
(* ------------------------------------------------------------------------- *)

Module Scenario.
Import JsString Config Steps Js.

(** What [execSync] throws when k6 exits with a non-zero code; [stdout] and
    [stderr] may be undefined. *)
Record ExecError : Type := MkExecError {
  err_stdout : option jsstr;
  err_stderr : option jsstr
}.

(** An element of [k6Outputs]. *)
Record Captured : Type := MkCaptured {
  selector : jsstr;
  expectedText : jsstr;
  output : jsstr
}.

(** The variables of the module and (not in the source) the environments
    that k6 was started with, oldest first. *)
Record World : Type := MkWorld {
  url : option jsstr;
  k6Output : option jsstr;
  k6Outputs : list Captured;
  runs : list env
}.

Definition initial : World := MkWorld None None [] [].

Inductive error : Type :=
| UrlNotSet (message : jsstr)
| EnvFileError.

Definition url_not_set : jsstr :=
  lit "TEST_URL is not set. Make sure to use the Given step to set the app URL.".

(** Given "page url - {string}" (lines 13-15). *)
Definition given_page_url (url1 : jsstr) (w : World) : World :=
  MkWorld (Some url1) (k6Output w) (k6Outputs w) (runs w).

Section Steps.
(** [process.env] when the step runs. *)
Variable process_env : env.
(** The variables of [k6env.yaml] as the child process gets them; [None]
    when the file cannot be read or parsed. *)
Variable k6env : option env.
(** [execSync("k6 run k6/ui_performance.js", { env })]: the standard output
    of the n-th run of the scenario, or what it throws. *)
Variable execSync : nat -> env -> ExecError + jsstr.

(** [(err.stdout || "") + (err.stderr || "")] *)
Definition captured (err : ExecError) : jsstr :=
  or_str (err_stdout err) [] ++ or_str (err_stderr err) [].

(** [{ ...process.env, ...envVars, TEST_URL: testUrl }] *)
Definition page_env (envVars : env) (testUrl : jsstr) : env :=
  <["TEST_URL" := testUrl]> (envVars ∪ process_env).

(** [{ ...process.env, ...envVars, TEST_URL: testUrl,
       SUBCOMPONENT_SELECTOR: selector, EXPECTED_TEXT: expectedText }] *)
Definition component_env (envVars : env) (testUrl selector expectedText : jsstr)
  : env :=
  <["EXPECTED_TEXT" := expectedText]>
    (<["SUBCOMPONENT_SELECTOR" := selector]> (page_env envVars testUrl)).

Definition set_k6Outputs (l : list Captured) : M World error unit :=
  modify (fun w => MkWorld (url w) (k6Output w) l (runs w)).

Definition set_k6Output (o : jsstr) : M World error unit :=
  modify (fun w => MkWorld (url w) (Some o) (k6Outputs w) (runs w)).

(** The output that a step keeps of a run: the result of [execSync], or in
    the [catch] block what the error carries. *)
Definition kept (r : ExecError + jsstr) : jsstr :=
  match r with
  | inr result => result
  | inl err => captured err
  end.

(** What the step keeps of one row of the table, run as the n-th run of the
    scenario. *)
Definition capture_row (envVars : env) (testUrl : jsstr) (n : nat)
  (row : jsstr * jsstr) : Captured :=
  MkCaptured row.1 row.2
    (kept (execSync n (component_env envVars testUrl row.1 row.2))).

(** The call of [execSync] in its [try] block, with its [catch] block. *)
Definition run_k6 (e : env) : M World error jsstr :=
  fun w =>
    (inr (kept (execSync (length (runs w)) e)),
     MkWorld (url w) (k6Output w) (k6Outputs w) (runs w ++ [e])).

(** [const testUrl = url; if (!testUrl) throw ...] *)
Definition the_url : M World error jsstr :=
  let! testUrl := gets url in
  match testUrl with
  | Some (c :: u) => ret (c :: u)
  | _ => throw (UrlNotSet url_not_set)
  end.

(** [yaml.load(fs.readFileSync("k6env.yaml", "utf8"))] *)
Definition load_k6env : M World error env :=
  match k6env with
  | Some envVars => ret envVars
  | None => throw EnvFileError
  end.

(** The loop over the rows of the data table (lines 33-71). *)
Fixpoint each_row (envVars : env) (testUrl : jsstr) (rows : list (jsstr * jsstr))
  : M World error unit :=
  match rows with
  | [] => ret tt
  | (selector, expectedText) :: more =>
      let! out := run_k6 (component_env envVars testUrl selector expectedText) in
      let! outs := gets k6Outputs in
      run! set_k6Outputs (outs ++ [MkCaptured selector expectedText out]) in
      each_row envVars testUrl more
  end.

(** When "I load the subcomponents with selectors and text" (lines 19-72);
    a row of the table is its selector and its expected text. *)
Definition load_subcomponents (rows : list (jsstr * jsstr)) : M World error unit :=
  run! set_k6Outputs [] in
  let! testUrl := the_url in
  let! envVars := load_k6env in
  each_row envVars testUrl rows.

(** When "I load the main page" (lines 74-112). *)
Definition load_main_page : M World error unit :=
  let! testUrl := the_url in
  let! envVars := load_k6env in
  let! out := run_k6 (page_env envVars testUrl) in
  set_k6Output out.

End Steps.

(** k6 that exits with an error and has written nothing. *)
Definition silent (r : ExecError + jsstr) : Prop :=
  exists err, r = inl err
              /\ truthy (err_stdout err) = false
              /\ truthy (err_stderr err) = false.

(** The Then steps of [Steps], on the variables of the module. *)
Definition then_main_page (w : World) (maxTime : Z) : Steps.error + unit :=
  main_page_step (k6Output w) maxTime.

Definition then_subcomponents (w : World) (maxTime : Z) : Steps.error + unit :=
  subcomponent_step
    (List.map (fun c => (selector c, output c)) (k6Outputs w)) maxTime.

End Scenario.

(* ------------------------------------------------------------------------- *)
(** ** The engine: network and CPU simulation
       ([applySimulationConditions], lines 476-496) *)
(* ------------------------------------------------------------------------- *)

Module Simulation.
Import JsString JsNumber Config Js.

(** The calls made on the page, oldest first. *)
Inductive call : Type :=
| EmulateNetworkConditions (profile : jsstr)
| EmulateCPUThrottling (rate : spec_float).

(** Which calls throw on this page. *)
Record Page : Type := MkPage {
  emulateNetworkConditions_throws : bool;
  emulateCPUThrottling_throws : bool
}.

Definition invoke (c : call) (throws : bool) : M (list call) unit unit :=
  fun calls => (if throws then inl tt else inr tt, calls ++ [c]).

Definition when (b : bool) (m : M (list call) unit unit) : M (list call) unit unit :=
  if b then m else ret tt.

Definition applySimulationConditions (cfg : config) (page : Page)
  : M (list call) unit unit :=
  try_catch
    (run! when (truthy (Some (network_condition cfg))
                && negb (bool_decide (network_condition cfg = lit "WIFI")))
            (invoke (EmulateNetworkConditions (network_profile cfg))
               (emulateNetworkConditions_throws page)) in
     when (truthy (Some (cpu_condition cfg)) && lt (of_Z 1) (cpu_throttling cfg))
       (invoke (EmulateCPUThrottling (cpu_throttling cfg))
          (emulateCPUThrottling_throws page)))
    (fun _ => ret tt).

End Simulation.

(* ------------------------------------------------------------------------- *)
(** ** The engine: waiting for an element with retries
       ([waitForElementSafe], lines 403-441) *)
(* ------------------------------------------------------------------------- *)

Module ElementWait.
Import JsString JsNumber Screenshot Js.

(** The calls made on the page, oldest first. *)
Inductive call : Type :=
| WaitForSelector (timeout : spec_float)
| WaitForTimeout (ms : spec_float).

(** What [page.waitForSelector] does on an attempt: it resolves to an
    element or to [null], or it rejects with an error, whose [message] may
    be undefined. *)
Inductive outcome : Type :=
| Found (element : nat)
| Null
| Rejected (message : option jsstr).

Section Wait.
(** The outcome of each attempt, counted from 1. *)
Variable waitForSelector : nat -> outcome.
Variable pollInterval : spec_float.
Variable selector : jsstr.
Variable timeout : spec_float.
Variable retries : nat.

Definition called (c : call) : M (list call) jsstr unit :=
  modify (fun calls => calls ++ [c]).

(** The message of the error thrown after the loop (lines 436-440), from the
    message of [lastError]; code unit 34 is the double quote. *)
Definition failure (lastError : option jsstr) : jsstr :=
  lit "Failed to find element " ++ [34%N] ++ selector ++ [34%N]
  ++ lit " after " ++ decimal (N.of_nat retries) ++ lit " attempts: "
  ++ or_str lastError (lit "Unknown error").

(** The [for] loop from [attempt] on, with [left] attempts to go. The pause
    between two attempts ([page.waitForTimeout], line 431) is taken not to
    throw. *)
Fixpoint attempts (left attempt : nat) (lastError : option jsstr)
  : M (list call) jsstr nat :=
  match left with
  | O => throw (failure lastError)
  | S left' =>
      run! called (WaitForSelector (div timeout (of_Z (Z.of_nat retries)))) in
      match waitForSelector attempt with
      | Found element => ret element
      | Null => attempts left' (S attempt) lastError
      | Rejected message =>
          run! (if (attempt <? retries)%nat
                then called (WaitForTimeout pollInterval) else ret tt) in
          attempts left' (S attempt) message
      end
  end.

Definition waitForElementSafe : M (list call) jsstr nat :=
  attempts retries 1 None.

(** The calls of one attempt: the wait for the selector and, behind a
    rejection that is not the last attempt, the pause. *)
Definition attempt_calls (attempt : nat) : list call :=
  WaitForSelector (div timeout (of_Z (Z.of_nat retries)))
  :: match waitForSelector attempt with
     | Rejected _ =>
         if (attempt <? retries)%nat then [WaitForTimeout pollInterval] else []
     | _ => []
     end.

(** The message of the last rejection among [n] attempts from [attempt] on,
    or [init] when none rejects. *)
Fixpoint last_rejection (attempt n : nat) (init : option jsstr) : option jsstr :=
  match n with
  | O => init
  | S n' =>
      last_rejection (S attempt) n'
        match waitForSelector attempt with
        | Rejected message => message
        | _ => init
        end
  end.

Definition found (attempt : nat) : bool :=
  match waitForSelector attempt with
  | Found _ => true
  | _ => false
  end.

End Wait.
End ElementWait.

(* ------------------------------------------------------------------------- *)
(** ** The engine: typing into a field ([typeTextSafe], lines 449-469) *)
(* ------------------------------------------------------------------------- *)

Module Typing.
Import JsString Js.

(** The calls made on the element, oldest first. *)
Inductive call : Type :=
| Clear
| Type_ (text : jsstr) (delay : Z).

(** The element handle: whether [clear] and [type] reject, and with which
    message ([Some None] is an error without a message). *)
Record Element : Type := MkElement {
  clear_rejects : option (option jsstr);
  type_rejects : option (option jsstr)
}.

(** A template literal prints an undefined message as [undefined]. *)
Definition printed (message : option jsstr) : jsstr :=
  match message with
  | Some m => m
  | None => lit "undefined"
  end.

Definition invoke (c : call) (rejects : option (option jsstr))
  : M (list call) (option jsstr) unit :=
  fun calls =>
    (match rejects with
     | Some message => inl message
     | None => inr tt
     end, calls ++ [c]).

(** [element] is [None] for [null] or [undefined]; [text] is [None] for a
    value that is not a string. What is thrown is the message of the error. *)
Definition typeTextSafe (element : option Element) (text : option jsstr)
  (fieldName : jsstr) : M (list call) jsstr unit :=
  match element with
  | None =>
      throw (lit "Cannot type into " ++ fieldName
               ++ lit ": element is null or undefined")
  | Some el =>
      match text with
      | Some (c :: t) =>
          fun calls =>
            match (run! invoke Clear (clear_rejects el) in
                   invoke (Type_ (c :: t) 50) (type_rejects el)) calls with
            | (inl message, calls') =>
                (inl (lit "Failed to type into " ++ fieldName ++ lit ": "
                        ++ printed message), calls')
            | (inr _, calls') => (inr tt, calls')
            end
      | _ =>
          throw (lit "Cannot type into " ++ fieldName
                   ++ lit ": text must be a non-empty string")
      end
  end.

End Typing.

(* ------------------------------------------------------------------------- *)
(** ** The engine: waiting for a text to show
       ([waitForTextVisibility], lines 101-155) *)
(* ------------------------------------------------------------------------- *)

Module TextVisibility.
Import JsString JsNumber.

(** What the check reads of the parent element of a text node. *)
Record Box : Type := MkBox {
  offsetWidth : Z;
  offsetHeight : Z;
  rect_width : spec_float;
  rect_height : spec_float
}.

Record TextNode : Type := MkText {
  textContent : jsstr;
  parentElement : option Box
}.

(** The document as the check observes it: the text nodes under
    [document.body] in document order at a clock reading, and by how much a
    timer started at a clock reading is late. *)
Record Document : Type := MkDocument {
  body : Z -> list TextNode;
  late : Z -> nat
}.

(** The test of lines 123-131 on one text node. *)
Definition shown (targetText : jsstr) (node : TextNode) : bool :=
  includes (textContent node) targetText
  && match parentElement node with
     | Some element =>
         (0 <? offsetWidth element) && (0 <? offsetHeight element)
         && lt (S754_zero false) (rect_width element)
         && lt (S754_zero false) (rect_height element)
     | None => false
     end.

Section Check.
Variable document : Document.
Variable targetText : jsstr.
Variable maxTimeout : Z.
Variable startTime : Z.

(** [checkText] called when the clock reads [now], with a bound on the
    number of timers: what the promise resolves to, and when. *)
Fixpoint checkText (timers : nat) (now : Z) : option (bool * Z) :=
  if maxTimeout <? now - startTime then Some (false, now)
  else if existsb (shown targetText) (body document now) then Some (true, now)
  else
    match timers with
    | O => None
    | S timers' => checkText timers' (now + 100 + Z.of_nat (late document now))
    end.

End Check.

(** The function evaluated in the page, started when the clock reads
    [startTime]; a timer takes 100 ms or more, so [maxTimeout / 100 + 1]
    timers are enough. *)
Definition evaluate (document : Document) (text : jsstr) (timeout startTime : Z)
  : option (bool * Z) :=
  checkText document text timeout startTime
    (S (Z.to_nat (timeout / 100))) startTime.

(** [waitForTextVisibility(page, text, timeout)]: the [catch] block answers
    false when [page.evaluate] throws. *)
Definition waitForTextVisibility (evaluate_throws : bool) (document : Document)
  (text : jsstr) (timeout startTime : Z) : option bool :=
  if evaluate_throws then Some false
  else fst <$> evaluate document text timeout startTime.

End TextVisibility.

(* ------------------------------------------------------------------------- *)
(** ** The engine: the network report
       ([logNetworkPerformance], lines 895-959) *)
(* ------------------------------------------------------------------------- *)

Module NetworkReport.
Import JsString Screenshot Network.

(** [Array.prototype.sort] with the comparator
    [(a, b) => b.responseTime - a.responseTime]: the stable sort by
    decreasing response time. *)
Fixpoint insert_desc (x : LogEntry) (l : list LogEntry) : list LogEntry :=
  match l with
  | [] => [x]
  | y :: l' =>
      if responseTime y <=? responseTime x then x :: l
      else y :: insert_desc x l'
  end.

Definition sort_desc (l : list LogEntry) : list LogEntry :=
  fold_right insert_desc [] l.

(** [log.url.includes("/api/")] *)
Definition is_api (log : LogEntry) : bool := includes (url log) (lit "/api/").

(** [String.prototype.indexOf], [None] for -1. *)
Fixpoint indexOf (s t : jsstr) : option nat :=
  if prefixb t s then Some 0%nat
  else
    match s with
    | [] => None
    | _ :: s' => S <$> indexOf s' t
    end.

(** Lines 919-920. *)
Definition truncatedUrl (log : LogEntry) : jsstr :=
  match indexOf (url log) (lit "/api/") with
  | Some apiIndex => drop apiIndex (url log)
  | None => url log
  end.

(** [String.prototype.padEnd] and [padStart] with spaces. *)
Definition padEnd (n : nat) (s : jsstr) : jsstr :=
  s ++ replicate (n - length s) 32%N.

Definition padStart (n : nat) (s : jsstr) : jsstr :=
  replicate (n - length s) 32%N ++ s.

(** [String(z)] on an integer. *)
Definition String_of (z : Z) : jsstr :=
  if z <? 0 then lit "-" ++ decimal (Z.to_N (- z)) else decimal (Z.to_N z).

(** The four cells of a row of the table (lines 926-932). *)
Record Row : Type := MkRow {
  cell_method : jsstr;
  cell_responseTime : jsstr;
  cell_status : jsstr;
  cell_url : jsstr
}.

Definition row (log : LogEntry) : Row :=
  {| cell_method := padEnd 6 (method log);
     cell_responseTime := padStart 12 (String_of (responseTime log));
     cell_status :=
       padStart 6 (if status log =? 0 then [] else String_of (status log));
     cell_url :=
       if (68 <? length (truncatedUrl log))%nat
       then take 65 (truncatedUrl log) ++ lit "..."
       else padEnd 68 (truncatedUrl log) |}.

(** Lines 897-899: the log sorted in place, then filtered. *)
Definition apiRequests (networkLogs : list LogEntry) : list LogEntry :=
  List.filter is_api (sort_desc networkLogs).

(** [apiRequests.slice(0, 10)] *)
Definition listed (networkLogs : list LogEntry) : list LogEntry :=
  take 10 (apiRequests networkLogs).

(** What the function adds to the [api_response_time] trend: a value and
    its [url] tag, in the order of the calls (line 923). *)
Definition api_samples (networkLogs : list LogEntry) : list (Z * jsstr) :=
  List.map (fun log => (responseTime log, truncatedUrl log)) (listed networkLogs).

(** The rows of the table, top to bottom. *)
Definition rows (networkLogs : list LogEntry) : list Row :=
  List.map row (listed networkLogs).

(** The count of the line "... and N more API requests" (lines 941-943). *)
Definition more (networkLogs : list LogEntry) : option nat :=
  if (10 <? length (apiRequests networkLogs))%nat
  then Some (length (apiRequests networkLogs) - 10)%nat
  else None.

(** [a] may stand before [b] in the sorted log. *)
Definition no_faster (a b : LogEntry) : Prop := responseTime b <= responseTime a.

End NetworkReport.

(* ------------------------------------------------------------------------- *)
(** ** The engine: the measurements
       ([measureReactComponentPerformance], lines 707-745;
        [measureReactPagePerformance], lines 752-803;
        [measureReactUIPerformance], lines 809-889) *)
(* ------------------------------------------------------------------------- *)

Module Measure.
Import JsString JsNumber Config Screenshot Network NetworkReport Js.

(** The trends of the [metrics] object (lines 312-318). *)
Inductive Trend : Type :=
| mainPageLoadTime
| subcomponentLoadTime
| apiResponseTime
| domContentLoadedTime
| networkIdleTime.

(** A call of [Trend.add]. *)
Record Sample : Type := MkSample {
  trend : Trend;
  value : Z;
  url_tag : option jsstr
}.

(** A call of [takeScreenshot], which catches what it throws. *)
Record Shot : Type := MkShot {
  shot_type : TestType;
  shot_status : Status
}.

(** The clock, and what the measurement has emitted, oldest first. *)
Record World : Type := MkWorld {
  now : Z;
  samples : list Sample;
  shots : list Shot
}.

(** The [timings] object of [measureReactPagePerformance]. *)
Record Timings : Type := MkTimings {
  domContentLoaded : Z;
  networkIdle : Z;
  total : Z;
  networkIdleSuccess : bool
}.

(** An awaited page operation started at a clock reading: the message of
    the error it rejects with, if it does, and how long it takes. *)
Definition awaited : Type := Z -> option jsstr * nat.

(** The page as the measurement observes it; [lag] is what the clock gains
    between the previous statement and a reading of [Date.now()]. *)
Record Page : Type := MkPage {
  lag : Z -> nat;
  goto : awaited;
  waitForLoadState_domcontentloaded : awaited;
  waitForLoadState_networkidle : spec_float -> awaited
}.

(** What [measureReactUIPerformance] returns: the load time of the component,
    or the timings of the page. *)
Definition measurement : Type := Z + Timings.

Section Measurements.
Variable cfg : config.
Variable page : Page.

Definition set_now (t : Z) (w : World) : World :=
  MkWorld t (samples w) (shots w).

(** [Date.now()] *)
Definition Date_now : M World jsstr Z :=
  fun w =>
    let t := now w + Z.of_nat (lag page (now w)) in
    (inr t, set_now t w).

(** [await op] *)
Definition await (op : awaited) : M World jsstr unit :=
  fun w =>
    let '(rejects, duration) := op (now w) in
    (match rejects with
     | Some message => inl message
     | None => inr tt
     end, set_now (now w + Z.of_nat duration) w).

(** [metrics.<trend>.add(value, tags)] *)
Definition add (t : Trend) (v : Z) (tag : option jsstr) : M World jsstr unit :=
  modify (fun w => MkWorld (now w) (samples w ++ [MkSample t v tag]) (shots w)).

(** [await takeScreenshot(page, testType, status, ...)] *)
Definition takeScreenshot (testType : TestType) (status : Status)
  : M World jsstr unit :=
  modify (fun w => MkWorld (now w) (samples w) (shots w ++ [MkShot testType status])).

(** Lines 719-744, on the state that [waitForReactComponentReady] returned
    (lines 713-717). *)
Definition measureReactComponentPerformance (componentState : Poller.ComponentState)
  (expectedText : option jsstr) (selector : jsstr) : M World jsstr Z :=
  try_catch
    (run! (match Poller.performReactComponentChecks componentState expectedText
                   selector with
           | inl message => throw message
           | inr _ => ret tt
           end) in
     run! add subcomponentLoadTime (Poller.loadTime componentState) None in
     run! takeScreenshot component_test pass in
     ret (Poller.loadTime componentState))
    (fun error =>
       run! takeScreenshot component_test fail in
       throw error).

(** [CONFIG.timeouts.http * 2] *)
Definition networkidle_timeout : spec_float :=
  SFmul prec emax (http (cfg_timeouts cfg)) (of_Z 2).

Definition measureReactPagePerformance : M World jsstr Timings :=
  let! startTime := Date_now in
  try_catch
    (let! domStartTime := Date_now in
     run! await (waitForLoadState_domcontentloaded page) in
     let! domEnd := Date_now in
     run! add domContentLoadedTime (domEnd - domStartTime) None in
     let! networkStartTime := Date_now in
     let! success :=
       try_catch
         (run! await (waitForLoadState_networkidle page networkidle_timeout) in
          ret true)
         (fun _ => ret false) in
     let! networkEnd := Date_now in
     run! add networkIdleTime (networkEnd - networkStartTime) None in
     let! finish := Date_now in
     run! add mainPageLoadTime (finish - startTime) None in
     run! takeScreenshot page_test (if success then pass else partial) in
     ret (MkTimings (domEnd - domStartTime) (networkEnd - networkStartTime)
            (finish - startTime) success))
    (fun error =>
       let! _ := Date_now in
       run! takeScreenshot page_test fail in
       throw error).

(** [logNetworkPerformance] as the trends see it. *)
Definition logNetworkPerformance (networkLogs : list LogEntry) : M World jsstr unit :=
  modify (fun w =>
    MkWorld (now w)
      (samples w
         ++ List.map (fun s => MkSample apiResponseTime s.1 (Some s.2))
              (api_samples networkLogs))
      (shots w)).

(** [measureReactUIPerformance]: [networkLogs] is what the listeners have
    logged when the measurement is over, and [componentState] is what the
    readiness poller returns on this page. [applySimulationConditions]
    (line 858) catches what it throws and emits nothing here. *)
Definition measureReactUIPerformance (networkLogs : list LogEntry)
  (componentState : Poller.ComponentState) : M World jsstr measurement :=
  run! await (goto page) in
  let! result :=
    match subcomponentSelector cfg with
    | Some (c :: sel) =>
        let! loadTime :=
          measureReactComponentPerformance componentState (expectedText cfg)
            (c :: sel) in
        ret (inl loadTime)
    | _ =>
        let! pageResult := measureReactPagePerformance in
        ret (inr pageResult)
    end in
  run! (if networkLogging (cfg_features cfg) && negb (bool_decide (networkLogs = []))
        then logNetworkPerformance networkLogs else ret tt) in
  ret result.

End Measurements.
End Measure.

(* ------------------------------------------------------------------------- *)
(** ** The engine: what a screenshot does to the document
       ([takeScreenshot], lines 198-274) *)
(* ------------------------------------------------------------------------- *)

Module Capture.
Import JsString Config Screenshot Highlight.

(** [selector && testType === "component" && CONFIG.features.highlighting] *)
Definition highlights (cfg : config) (testType : TestType)
  (selector : option jsstr) : bool :=
  truthy selector
  && match testType with
     | component_test => true
     | _ => false
     end
  && highlighting (cfg_features cfg).

(** The document after [takeScreenshot]: [root] is what
    [document.querySelector(selector)] returns, and [capture_throws] tells
    whether one of the awaited operations of lines 249-260 throws, which
    takes the function to its [catch] block. *)
Definition takeScreenshot (cfg : config) (testType : TestType)
  (selector expectedText : option jsstr) (root : option Node)
  (capture_throws : bool) (p : Page) : Page :=
  if screenshots (cfg_features cfg) then
    let p1 :=
      if highlights cfg testType selector
      then applyHighlighting (highlighting (cfg_features cfg)) root expectedText p
      else p in
    if capture_throws then p1
    else if highlights cfg testType selector
         then removeHighlighting (highlighting (cfg_features cfg)) p1
         else p1
  else p.

End Capture.

(* ------------------------------------------------------------------------- *)
(** ** The vocabulary of the properties of the hooks and of the report *)
(* ------------------------------------------------------------------------- *)

Module Conditions.
Import JsString Config Hooks.

(** The variables that the hooks set and delete. *)
Definition hook_keys : list string :=
  ["K6_NETWORK_CONDITION"; "K6_NETWORK_PROFILE"; "K6_CPU_CONDITION";
   "K6_CPU_THROTTLING"; "SCENARIO_NAME"; "SCENARIO_TAGS"].

(** The network hook of a scenario that is registered last. *)
Definition network_of (tags : list jsstr) : option Network :=
  if bool_decide (lit "@3G" ∈ tags) then Some Net3G
  else if bool_decide (lit "@WIFI" ∈ tags) then Some NetWIFI
  else if bool_decide (lit "@4G" ∈ tags) then Some Net4G
  else None.

(** The CPU hook of a scenario that is registered last. *)
Definition cpu_of (tags : list jsstr) : option Cpu :=
  if bool_decide (lit "@LowCPU" ∈ tags) then Some LowCPU
  else if bool_decide (lit "@HighCPU" ∈ tags) then Some HighCPU
  else None.

End Conditions.


(* ------------------------------------------------------------------------- *)
(** * Properties *)
(* ------------------------------------------------------------------------- *)

(** ** Strings and regular expressions *)

Module RegexFacts.
Import JsString JsNumber Regex Grammar.

Lemma prefixb_spec (p s : jsstr) : prefixb p s = true <-> exists r, s = p ++ r.
Proof.
  revert s; induction p as [|a p IH]; intros s; simpl.
  - split; eauto.
  - destruct s as [|b s]; simpl.
    + split; [discriminate | intros [r Hr]; discriminate].
    + rewrite andb_true_iff, N.eqb_eq, IH. split.
      * intros [-> [r ->]]. eauto.
      * intros [r Hr]. injection Hr as -> ->. eauto.
Qed.

Lemma prefixb_app (p r : jsstr) : prefixb p (p ++ r) = true.
Proof. apply prefixb_spec; eauto. Qed.

Lemma includes_suffix (a t : jsstr) : includes (a ++ t) t = true.
Proof.
  induction a as [|x a IH]; simpl.
  - assert (H : prefixb t t = true)
      by (apply prefixb_spec; exists []; now rewrite app_nil_r).
    destruct t; simpl in *; [reflexivity | now rewrite H].
  - rewrite IH. apply orb_true_r.
Qed.

Lemma rmatch_Lit n l s c k :
  rmatch n (Lit l) s c k = if prefixb l s then k (drop (length l) s) c else None.
Proof.
  revert s; induction l as [|a l IH]; intros s; simpl.
  - now rewrite drop_0.
  - destruct s as [|x s]; simpl; [reflexivity|].
    rewrite N.eqb_sym. destruct (a =? x)%N; simpl; [apply IH | reflexivity].
Qed.

Lemma star_iter_class n p k fuel s c :
  (length s <= fuel)%nat ->
  star_iter (rmatch n (Cls p)) k fuel s c = star_class p k s c.
Proof.
  revert s c; induction fuel as [|fuel IH]; intros s c Hlen.
  - destruct s; simpl in *; [reflexivity | lia].
  - destruct s as [|x s]; simpl; [reflexivity|].
    destruct (p x); [|reflexivity].
    replace (length s <? S (length s))%nat with true
      by (symmetry; apply Nat.ltb_lt; lia).
    rewrite IH by (simpl in Hlen; lia). reflexivity.
Qed.

Lemma rmatch_Star_class n p s c k :
  rmatch n (Star (Cls p)) s c k = star_class p k s c.
Proof.
  change (star_iter (rmatch n (Cls p)) k (length s) s c = star_class p k s c).
  now apply star_iter_class.
Qed.

(** When the continuation cannot start with a character of the class, the
    star takes them all and never gives one back. *)
Lemma star_class_commit p k s c :
  (forall x s' c', p x = true -> k (x :: s') c' = None) ->
  star_class p k s c = k (drop_while p s) c.
Proof.
  intros Hk. induction s as [|x s IH]; simpl; [reflexivity|].
  destruct (p x) eqn:Hp; [|reflexivity].
  rewrite IH. destruct (k (drop_while p s) c); [reflexivity|].
  now apply Hk.
Qed.

(** When the continuation accepts after the longest run, that is the match. *)
Lemma star_class_greedy p k s c res :
  k (drop_while p s) c = Some res -> star_class p k s c = Some res.
Proof.
  induction s as [|x s IH]; simpl; [auto|].
  destruct (p x); [|auto]. intros H. now rewrite (IH H).
Qed.

Lemma take_drop_while p s : take_while p s ++ drop_while p s = s.
Proof.
  induction s as [|x s IH]; simpl; [reflexivity|].
  destruct (p x); simpl; [now rewrite IH | reflexivity].
Qed.

Lemma take_while_all p s : forallb p (take_while p s) = true.
Proof.
  induction s as [|x s IH]; simpl; [reflexivity|].
  destruct (p x) eqn:Hp; simpl; [now rewrite Hp | reflexivity].
Qed.

Lemma drop_while_outside p s : starts_outside p (drop_while p s).
Proof.
  induction s as [|x s IH]; simpl; [exact I|].
  destruct (p x) eqn:Hp; simpl; auto.
Qed.

Lemma drop_while_app p l r :
  forallb p l = true -> starts_outside p r -> drop_while p (l ++ r) = r.
Proof.
  intros Hl Hr. induction l as [|x l IH]; simpl in *.
  - destruct r as [|y r]; simpl in *; [reflexivity | now rewrite Hr].
  - apply andb_true_iff in Hl as [-> Hl]. auto.
Qed.

Lemma take_while_app p l r :
  forallb p l = true -> starts_outside p r -> take_while p (l ++ r) = l.
Proof.
  intros Hl Hr. induction l as [|x l IH]; simpl in *.
  - destruct r as [|y r]; simpl in *; [reflexivity | now rewrite Hr].
  - apply andb_true_iff in Hl as [-> Hl]. now rewrite IH.
Qed.

Lemma take_length_diff (a b : jsstr) : take (length (a ++ b) - length b) (a ++ b) = a.
Proof.
  rewrite length_app. replace (length a + length b - length b)%nat with (length a) by lia.
  now rewrite take_app_length.
Qed.

Lemma unit_of_prefix rest u :
  unit_of rest = Some u -> exists r, rest = u ++ r /\ drop (length u) rest = r.
Proof.
  unfold unit_of. intros H.
  destruct (prefixb (lit "ms") rest) eqn:Hms.
  - injection H as <-. apply prefixb_spec in Hms as [r ->]. eauto.
  - destruct (prefixb (lit "s") rest) eqn:Hs; [|discriminate].
    injection H as <-. apply prefixb_spec in Hs as [r ->]. eauto.
Qed.

(** [(ms|s)] at the front of the input. *)
Lemma rmatch_unit_group n s c :
  rmatch n Steps.unit_group s c accept =
  match unit_of s with
  | Some u => Some (drop (length u) s, (2%nat, u) :: c)
  | None => None
  end.
Proof.
  unfold Steps.unit_group, unit_of.
  change (rmatch n (Grp 2 ?r) s c accept)
    with (rmatch n r s c
            (fun s' c' => accept s' ((2%nat, take (length s - length s') s) :: c'))).
  change (rmatch n (Alt ?r1 ?r2) s c ?k)
    with (match rmatch n r1 s c k with
          | Some res => Some res
          | None => rmatch n r2 s c k
          end).
  rewrite !rmatch_Lit.
  destruct (prefixb (lit "ms") s) eqn:Hms.
  - apply prefixb_spec in Hms as [r ->]. unfold accept.
    now rewrite !drop_app_length, (take_length_diff (lit "ms") r).
  - destruct (prefixb (lit "s") s) eqn:Hs; [|reflexivity].
    apply prefixb_spec in Hs as [r ->]. unfold accept.
    now rewrite !drop_app_length, (take_length_diff (lit "s") r).
Qed.

Lemma unit_of_outside x s : Steps.digit_or_dot x = true -> unit_of (x :: s) = None.
Proof.
  intros Hx. unfold unit_of.
  change (lit "ms") with [109%N; 115%N]. change (lit "s") with [115%N].
  cbn [prefixb].
  destruct (109 =? x)%N eqn:E1; [apply N.eqb_eq in E1; subst; discriminate|].
  destruct (115 =? x)%N eqn:E2; [apply N.eqb_eq in E2; subst; discriminate|].
  reflexivity.
Qed.

(** The pattern of a metric line behaves as the deterministic scan: no
    quantifier of the pattern ever gives a character back with success. *)
Lemma rmatch_metric (optional : bool) (name : string) (n : nat) (s : jsstr) :
  rmatch n
    (Steps.metric_pattern name (unit_pattern optional)) s [] accept
  = scan_result <$> scan_metric optional name s.
Proof.
  unfold Steps.metric_pattern, scan_metric, unit_pattern.
  change (rmatch n (Seq ?r1 ?r2) s [] ?k)
    with (rmatch n r1 s [] (fun s' c' => rmatch n r2 s' c' k)).
  rewrite rmatch_Lit.
  destruct (prefixb (lit name) s); [|reflexivity].
  set (s1 := drop (length (lit name)) s). clearbody s1.
  change (rmatch n (Seq ?r1 ?r2) s1 [] ?k)
    with (rmatch n r1 s1 [] (fun s' c' => rmatch n r2 s' c' k)).
  rewrite rmatch_Star_class, star_class_commit.
  2:{ intros x s' c' Hx.
      change (rmatch n (Seq (Chr 58) ?r2) (x :: s') c' ?k)
        with (if (x =? 58)%N then rmatch n r2 s' c' k else None).
      destruct (x =? 58)%N eqn:E; [|reflexivity].
      apply N.eqb_eq in E; subst; discriminate. }
  destruct (drop_while Steps.dot_or_space s1) as [|x s2]; [reflexivity|].
  change (rmatch n (Seq (Chr 58) ?r2) (x :: s2) [] ?k)
    with (if (x =? 58)%N then rmatch n r2 s2 [] k else None).
  destruct (N.eq_dec x 58%N) as [->|Hne].
  2:{ apply N.eqb_neq in Hne. rewrite Hne.
      destruct x as [|px]; [reflexivity|].
      do 6 (destruct px as [px|px|]; try reflexivity).
      now rewrite N.eqb_refl in Hne. }
  rewrite N.eqb_refl.
  change (rmatch n (Seq ?r1 ?r2) s2 [] ?k)
    with (rmatch n r1 s2 [] (fun s' c' => rmatch n r2 s' c' k)).
  rewrite rmatch_Star_class, star_class_commit.
  2:{ intros x s' c' Hx.
      change (rmatch n (Seq ?r1 ?r2) (x :: s') c' ?k)
        with (rmatch n r1 (x :: s') c' (fun s' c' => rmatch n r2 s' c' k)).
      rewrite rmatch_Lit.
      change (lit "avg=") with [97%N; 118%N; 103%N; 61%N]. cbn [prefixb].
      destruct (97 =? x)%N eqn:E; [|reflexivity].
      apply N.eqb_eq in E; subst; discriminate. }
  set (s3 := drop_while is_space s2). clearbody s3.
  change (rmatch n (Seq ?r1 ?r2) s3 [] ?k)
    with (rmatch n r1 s3 [] (fun s' c' => rmatch n r2 s' c' k)).
  rewrite rmatch_Lit.
  destruct (prefixb (lit "avg=") s3); [|reflexivity].
  change (length (lit "avg=")) with 4%nat.
  set (s4 := drop 4 s3). clearbody s4.
  change (rmatch n (Seq (Grp 1 (Plus ?r)) ?u) s4 [] accept)
    with (match s4 with
          | x :: s5 =>
              if Steps.digit_or_dot x
              then rmatch n (Star r) s5 []
                     (fun s' c' =>
                        rmatch n u s'
                          ((1%nat, take (length s4 - length s') s4) :: c') accept)
              else None
          | [] => None
          end).
  destruct s4 as [|x s5]; [reflexivity|].
  cbn [take_while drop_while].
  destruct (Steps.digit_or_dot x) eqn:Hx; [|reflexivity].
  rewrite rmatch_Star_class.
  assert (Hnum : take (length (x :: s5) - length (drop_while Steps.digit_or_dot s5))
                   (x :: s5) = x :: take_while Steps.digit_or_dot s5).
  { rewrite <- (take_drop_while Steps.digit_or_dot s5) at 1 3.
    apply (take_length_diff (x :: take_while _ s5)). }
  pose proof (drop_while_outside Steps.digit_or_dot s5) as Hout.
  set (D := drop_while Steps.digit_or_dot s5) in *.
  set (num := x :: take_while Steps.digit_or_dot s5) in *.
  destruct optional.
  - destruct (unit_of D) as [u|] eqn:Hu.
    + rewrite (star_class_greedy _ _ _ _
                 (drop (length u) D, [(2%nat, u); (1%nat, num)])); [reflexivity|].
      change (rmatch n (Opt ?r) ?s' ?c' accept)
        with (match rmatch n r s' c' accept with
              | Some res => Some res
              | None => accept s' c'
              end).
      fold D. now rewrite rmatch_unit_group, Hu, Hnum.
    + rewrite (star_class_greedy _ _ _ _ (D, [(1%nat, num)])); [reflexivity|].
      change (rmatch n (Opt ?r) ?s' ?c' accept)
        with (match rmatch n r s' c' accept with
              | Some res => Some res
              | None => accept s' c'
              end).
      fold D. now rewrite rmatch_unit_group, Hu, Hnum.
  - rewrite star_class_commit.
    2:{ intros y s' c' Hy. rewrite rmatch_unit_group.
        now rewrite unit_of_outside. }
    fold D. rewrite rmatch_unit_group, Hnum.
    destruct (unit_of D); reflexivity.
Qed.

Lemma dot_or_space_colon : Steps.dot_or_space 58 = false.
Proof. reflexivity. Qed.

(** What the scan finds is a metric line. *)
Lemma scan_metric_line (optional : bool) (name : string) s number unit rest' :
  scan_metric optional name s = Some (number, unit, rest') ->
  metric_line name s number unit /\ (optional = false -> is_Some unit).
Proof.
  unfold scan_metric.
  destruct (prefixb (lit name) s) eqn:Hname; [|discriminate].
  apply prefixb_spec in Hname as [r ->]. rewrite drop_app_length.
  pose proof (take_drop_while Steps.dot_or_space r) as Hr.
  pose proof (take_while_all Steps.dot_or_space r) as Hdots.
  destruct (drop_while Steps.dot_or_space r) as [|x s2]; [discriminate|].
  destruct (N.eq_dec x 58%N) as [->|Hne].
  2:{ destruct x as [|px]; [discriminate|].
      do 6 (destruct px as [px|px|]; try discriminate). congruence. }
  pose proof (take_drop_while is_space s2) as Hs2.
  pose proof (take_while_all is_space s2) as Hws.
  destruct (prefixb (lit "avg=") (drop_while is_space s2)) eqn:Havg; [|discriminate].
  apply prefixb_spec in Havg as [s4 Hs4]. rewrite Hs4 in *.
  change (drop 4 (lit "avg=" ++ s4)) with s4.
  pose proof (take_drop_while Steps.digit_or_dot s4) as Hnum.
  pose proof (take_while_all Steps.digit_or_dot s4) as Hdd.
  pose proof (drop_while_outside Steps.digit_or_dot s4) as Hout.
  destruct (take_while Steps.digit_or_dot s4) as [|d num] eqn:Htw; [discriminate|].
  intros H.
  assert (Hline : metric_line name (lit name ++ r) (d :: num)
                    (unit_of (drop_while Steps.digit_or_dot s4))).
  { exists (take_while Steps.dot_or_space r), (take_while is_space s2),
      (drop_while Steps.digit_or_dot s4).
    split; [|repeat split; auto; discriminate].
    rewrite Hnum. change ([58%N] ++ ?x) with (58%N :: x).
    now rewrite Hs2, Hr. }
  destruct (unit_of (drop_while Steps.digit_or_dot s4)) as [u|] eqn:Hu.
  - injection H as <- <- <-. split; [exact Hline | eauto].
  - destruct optional; [|discriminate].
    injection H as <- <- <-. split; [exact Hline | discriminate].
Qed.

(** A metric line is what the scan finds. *)
Lemma metric_line_scan (optional : bool) (name : string) s number unit :
  metric_line name s number unit ->
  (optional = false -> is_Some unit) ->
  exists rest', scan_metric optional name s = Some (number, unit, rest').
Proof.
  intros (dots & ws & rest & -> & Hdots & Hws & Hne & Hnum & Hout & ->) Hunit.
  unfold scan_metric. rewrite prefixb_app, drop_app_length.
  rewrite (drop_while_app _ dots) by (auto; apply dot_or_space_colon).
  cbn [app].
  rewrite (drop_while_app _ ws) by (auto; reflexivity).
  rewrite prefixb_app.
  change (drop 4 (lit "avg=" ++ ?x)) with x.
  rewrite take_while_app, drop_while_app by auto.
  destruct number as [|d num]; [congruence|].
  destruct (unit_of rest) as [u|]; [eauto|].
  destruct optional; [eauto|].
  destruct (Hunit eq_refl) as [? ?]; discriminate.
Qed.

(** The search returns the leftmost offset at which the pattern matches. *)
Lemma search_from_Some n r i s m :
  search_from n r i s = Some m ->
  exists j, (j <= length s)%nat /\ m_index m = (i + j)%nat
    /\ rmatch n r (drop j s) [] accept = Some (m_rest m, m_caps m)
    /\ forall j', (j' < j)%nat -> rmatch n r (drop j' s) [] accept = None.
Proof.
  revert i; induction s as [|x s IH]; intros i; simpl.
  - destruct (rmatch n r [] [] accept) as [[rest c]|] eqn:E; [|discriminate].
    intros [= <-]. exists 0%nat. simpl. repeat split; auto; lia.
  - destruct (rmatch n r (x :: s) [] accept) as [[rest c]|] eqn:E.
    + intros [= <-]. exists 0%nat. simpl. repeat split; auto; lia.
    + intros H. destruct (IH _ H) as (j & Hj & Hi & Hm & Hmin).
      exists (S j). simpl. repeat split; [lia | lia | exact Hm |].
      intros [|j'] Hlt; simpl; [exact E | apply Hmin; lia].
Qed.

Lemma search_from_None n r i s :
  search_from n r i s = None ->
  forall j, (j <= length s)%nat -> rmatch n r (drop j s) [] accept = None.
Proof.
  revert i; induction s as [|x s IH]; intros i; simpl.
  - destruct (rmatch n r [] [] accept) as [[rest c]|] eqn:E; [discriminate|].
    intros _ [|j] Hj; simpl; auto.
  - destruct (rmatch n r (x :: s) [] accept) as [[rest c]|] eqn:E; [discriminate|].
    intros H [|j] Hj; simpl; [exact E | apply (IH _ H); lia].
Qed.

Lemma occurs_rmatch (optional : bool) (name : string) text j number unit :
  occurs optional name text j number unit ->
  rmatch (length text) (Steps.metric_pattern name (unit_pattern optional))
    (drop j text) [] accept <> None.
Proof.
  intros (_ & Hline & Hunit).
  destruct (metric_line_scan optional name _ _ _ Hline Hunit) as [rest' Hscan].
  now rewrite rmatch_metric, Hscan.
Qed.

(** A match of the pattern is the first occurrence of the metric line, and
    its groups are the number and the unit. *)
Lemma exec_metric_Some (optional : bool) (name : string) text m :
  exec (Steps.metric_pattern name (unit_pattern optional)) text = Some m ->
  exists number unit,
    first_occurrence optional name text (m_index m) number unit
    /\ capture 1 (m_caps m) = Some number
    /\ capture 2 (m_caps m) = unit.
Proof.
  intros H. apply search_from_Some in H as (j & Hj & Hi & Hm & Hmin).
  simpl in Hi. subst j.
  rewrite rmatch_metric in Hm.
  destruct (scan_metric optional name (drop (m_index m) text))
    as [[[number unit] rest']|] eqn:Hscan; [|discriminate].
  apply scan_metric_line in Hscan as [Hline Hunit].
  exists number, unit. split; [split|].
  - repeat split; auto.
  - intros j n u Hlt Hocc. apply occurs_rmatch in Hocc. auto.
  - injection Hm as _ <-. destruct unit; auto.
Qed.

Lemma exec_metric_None (optional : bool) (name : string) text :
  exec (Steps.metric_pattern name (unit_pattern optional)) text = None ->
  forall i number unit, ~ occurs optional name text i number unit.
Proof.
  intros H i number unit Hocc.
  apply (occurs_rmatch _ _ _ _ _ _ Hocc).
  apply (search_from_None _ _ _ _ H). apply Hocc.
Qed.

End RegexFacts.

(** ** Numbers *)

Module NumberFacts.
Import JsNumber.

Lemma shr_1_nonneg mrs : 0 <= shr_m mrs -> 0 <= shr_m (shr_1 mrs).
Proof.
  destruct mrs as [m r t]; simpl.
  destruct m as [|p|p]; simpl; intros H; try lia;
    destruct p; simpl; lia.
Qed.

Lemma iter_pos_nonneg p mrs :
  0 <= shr_m mrs -> 0 <= shr_m (SpecFloat.iter_pos shr_1 p mrs).
Proof.
  revert mrs; induction p as [p IH|p IH|]; intros mrs H; simpl;
    auto using shr_1_nonneg.
Qed.

Lemma shr_fexp_nonneg m e l :
  0 <= m -> 0 <= shr_m (fst (shr_fexp prec emax m e l)).
Proof.
  intros H. unfold shr_fexp, shr.
  assert (H0 : 0 <= shr_m (shr_record_of_loc m l))
    by (destruct l as [|[]]; simpl; lia).
  destruct (fexp prec emax (Zdigits2 m + e) - e); simpl; auto.
  now apply iter_pos_nonneg.
Qed.

Lemma round_nearest_even_nonneg m l : 0 <= m -> 0 <= round_nearest_even m l.
Proof.
  intros H. destruct l as [|[]]; simpl; try lia.
  destruct (Z.even m); lia.
Qed.

(** Rounding a non-negative mantissa never yields NaN. *)
Lemma binary_round_aux_not_nan sx mx ex lx :
  0 <= mx -> isNaN (binary_round_aux prec emax sx mx ex lx) = false.
Proof.
  intros H. unfold binary_round_aux.
  pose proof (shr_fexp_nonneg mx ex lx H) as H1.
  destruct (shr_fexp prec emax mx ex lx) as [mrs' e']. simpl in H1.
  pose proof (shr_fexp_nonneg _ e' loc_Exact
                (round_nearest_even_nonneg _ (loc_of_shr_record mrs') H1)) as H2.
  destruct (shr_fexp prec emax
              (round_nearest_even (shr_m mrs') (loc_of_shr_record mrs')) e'
              loc_Exact) as [mrs'' e'']. simpl in H2.
  destruct (shr_m mrs'') as [|p|p]; [reflexivity | | lia].
  destruct (e'' <=? emax - prec); reflexivity.
Qed.

(** An integer limit is a number. *)
Lemma of_Z_not_nan z : isNaN (of_Z z) = false.
Proof.
  unfold of_Z, binary_normalize, binary_round.
  destruct z as [|p|p]; [reflexivity | |];
    destruct (shl_align p 0 _) as [mz ez];
    apply binary_round_aux_not_nan; lia.
Qed.

Lemma SFcompare_antisym x y c :
  SFcompare x y = Some c -> SFcompare y x = Some (CompOpp c).
Proof.
  destruct x as [sx|sx| |sx mx ex], y as [sy|sy| |sy my ey]; simpl;
    try discriminate;
    try (intros [= <-]; destruct sx; try destruct sy; reflexivity).
  intros [= <-]. f_equal.
  destruct sx, sy; try reflexivity;
    rewrite (Z.compare_antisym ex ey);
    destruct (ex ?= ey); simpl; try reflexivity;
    change (PosDef.Pos.compare_cont Eq my mx) with (my ?= mx)%positive;
    change (PosDef.Pos.compare_cont Eq mx my) with (mx ?= my)%positive;
    rewrite (Pos.compare_antisym mx my);
    destruct (mx ?= my)%positive; reflexivity.
Qed.

Lemma SFcompare_defined x y :
  isNaN x = false -> isNaN y = false -> exists c, SFcompare x y = Some c.
Proof.
  destruct x, y; simpl; try discriminate; eauto.
Qed.

(** On numbers, [x >= y] fails exactly when [x < y]. *)
Lemma ge_false_lt x y :
  isNaN x = false -> isNaN y = false -> ge x y = false <-> lt x y = true.
Proof.
  intros Hx Hy. unfold ge, lt, SFleb, SFltb.
  destruct (SFcompare_defined y x Hy Hx) as [c Hc].
  rewrite Hc, (SFcompare_antisym _ _ _ Hc).
  destruct c; simpl; split; congruence.
Qed.

Lemma lt_not_nan x y : lt x y = true -> isNaN x = false.
Proof. destruct x; try reflexivity. discriminate. Qed.

(** Equal numbers are not below one another. *)
Lemma eqb_ge x y : SFeqb x y = true -> ge x y = true.
Proof.
  unfold SFeqb, ge, SFleb.
  destruct (SFcompare x y) as [[]|] eqn:E; try discriminate.
  now rewrite (SFcompare_antisym _ _ _ E).
Qed.



End NumberFacts.

(** ** The consumer *)

Module StepsFacts.
Import JsString JsNumber Regex Steps Grammar RegexFacts NumberFacts.

Lemma main_not_found_includes text : includes (main_not_found text) text = true.
Proof.
  unfold main_not_found. rewrite app_assoc. apply includes_suffix.
Qed.

Lemma sub_not_found_includes selector text :
  includes (sub_not_found selector text) text = true.
Proof.
  unfold sub_not_found. rewrite !app_assoc. apply includes_suffix.
Qed.

Lemma is_ms_ms : is_ms (Some (lit "ms")) = true.
Proof. reflexivity. Qed.

Lemma is_ms_s : is_ms (Some (lit "s")) = false.
Proof. reflexivity. Qed.

(** What the extraction of a metric does, for either consumer. *)
Lemma load_time_spec (optional : bool) (name : string) (text : jsstr)
  (not_found : jsstr) :
  includes not_found text = true ->
  match
    match exec (metric_pattern name (unit_pattern optional)) text with
    | None => inl (MetricNotFound not_found)
    | Some m =>
        inr (if is_ms (capture 2 (m_caps m))
             then div (parseFloat_capture 1 m) (of_Z 1000)
             else parseFloat_capture 1 m)
    end
  with
  | inr seconds =>
      exists i number unit,
        first_occurrence optional name text i number unit
        /\ (unit = Some (lit "ms") -> seconds = div (parseFloat number) (of_Z 1000))
        /\ (unit = Some (lit "s") -> seconds = parseFloat number)
        /\ (unit = None -> seconds = parseFloat number)
  | inl e =>
      (forall i number unit, ~ occurs optional name text i number unit)
      /\ exists msg, e = MetricNotFound msg /\ includes msg text = true
  end.
Proof.
  intros Hincl.
  destruct (exec (metric_pattern name (unit_pattern optional)) text) as [m|] eqn:E.
  - apply exec_metric_Some in E as (number & unit & Hfirst & H1 & H2).
    exists (m_index m), number, unit. unfold parseFloat_capture.
    rewrite H1, H2. split; [exact Hfirst|].
    repeat split; intros ->; reflexivity.
  - split; [now apply exec_metric_None | eauto].
Qed.

(** C1. For every captured text, each consumer extracts the first
    occurrence of its metric name followed by dots or whitespace, a colon,
    whitespace and [avg=<number><unit>] (the main-page pattern also takes a
    number without unit, which is C10); the value in seconds is the number
    divided by 1000 when the unit is [ms] and the number itself when the unit
    is [s]. When the text has no such occurrence the consumer throws an error
    whose message includes the text. The line with [avg=996ms] gives the
    number nearest to 0.996 and the line with [avg=3.62s] the number nearest
    to 3.62. *)
Theorem metric_extraction :
  (forall text : jsstr,
     match main_page_load_time text with
     | inr seconds =>
         exists i number unit,
           first_occurrence true "main_page_load_time" text i number unit
           /\ (unit = Some (lit "ms") ->
               seconds = div (parseFloat number) (of_Z 1000))
           /\ (unit = Some (lit "s") -> seconds = parseFloat number)
     | inl e =>
         (forall i number unit,
            ~ occurs true "main_page_load_time" text i number unit)
         /\ exists msg, e = MetricNotFound msg /\ includes msg text = true
     end)
  /\ (forall selector text : jsstr,
        match subcomponent_load_time selector text with
        | inr seconds =>
            exists i number unit,
              first_occurrence false "subcomponent_load_time" text i number unit
              /\ (unit = Some (lit "ms") ->
                  seconds = div (parseFloat number) (of_Z 1000))
              /\ (unit = Some (lit "s") -> seconds = parseFloat number)
        | inl e =>
            (forall i number unit,
               ~ occurs false "subcomponent_load_time" text i number unit)
            /\ exists msg, e = MetricNotFound msg /\ includes msg text = true
        end)
  /\ (forall (text : jsstr) (maxTime : Z),
        (forall i number unit,
           ~ occurs true "main_page_load_time" text i number unit) ->
        exists e msg,
          main_page_step (Some text) maxTime = inl e
          /\ message e = Some msg /\ includes msg text = true)
  /\ (forall (selector text : jsstr) more (maxTime : Z),
        (forall i number unit,
           ~ occurs false "subcomponent_load_time" text i number unit) ->
        exists e msg,
          subcomponent_step ((selector, text) :: more) maxTime = inl e
          /\ message e = Some msg /\ includes msg text = true)
  /\ (exists x,
        main_page_load_time
          (lit "main_page_load_time.....: avg=996ms    min=996ms") = inr x
        /\ nearest_to x 996 1000)
  /\ (exists x,
        main_page_load_time
          (lit "main_page_load_time.....: avg=3.62s    min=3.62s    med=3.62s    max=3.62s")
        = inr x
        /\ nearest_to x 362 100).
Proof.
  assert (Hmain : forall text,
            match main_page_load_time text with
            | inr seconds =>
                exists i number unit,
                  first_occurrence true "main_page_load_time" text i number unit
                  /\ (unit = Some (lit "ms") ->
                      seconds = div (parseFloat number) (of_Z 1000))
                  /\ (unit = Some (lit "s") -> seconds = parseFloat number)
            | inl e =>
                (forall i number unit,
                   ~ occurs true "main_page_load_time" text i number unit)
                /\ exists msg, e = MetricNotFound msg /\ includes msg text = true
            end).
  { intros text.
    pose proof (load_time_spec true "main_page_load_time" text
                  (main_not_found text) (main_not_found_includes text)) as H.
    unfold main_page_load_time, main_page_pattern.
    change (Opt unit_group) with (unit_pattern true).
    destruct (exec _ text); [|exact H].
    destruct H as (i & number & unit & H1 & H2 & H3 & _). eauto 8. }
  assert (Hsub : forall selector text,
            match subcomponent_load_time selector text with
            | inr seconds =>
                exists i number unit,
                  first_occurrence false "subcomponent_load_time" text i number unit
                  /\ (unit = Some (lit "ms") ->
                      seconds = div (parseFloat number) (of_Z 1000))
                  /\ (unit = Some (lit "s") -> seconds = parseFloat number)
            | inl e =>
                (forall i number unit,
                   ~ occurs false "subcomponent_load_time" text i number unit)
                /\ exists msg, e = MetricNotFound msg /\ includes msg text = true
            end).
  { intros selector text.
    pose proof (load_time_spec false "subcomponent_load_time" text
                  (sub_not_found selector text)
                  (sub_not_found_includes selector text)) as H.
    unfold subcomponent_load_time, subcomponent_pattern.
    change unit_group with (unit_pattern false).
    destruct (exec _ text); [|exact H].
    destruct H as (i & number & unit & H1 & H2 & H3 & _). eauto 8. }
  split; [exact Hmain|]. split; [exact Hsub|]. split; [|split; [|split]].
  - intros text maxTime Hno. unfold main_page_step.
    destruct text as [|c out].
    { exists (NoOutput no_main_output), no_main_output. auto. }
    specialize (Hmain (c :: out)).
    destruct (main_page_load_time (c :: out)) as [e|seconds].
    + destruct Hmain as (_ & msg & -> & Hincl). eauto.
    + destruct Hmain as (i & number & unit & [Hocc _] & _).
      now destruct (Hno _ _ _ Hocc).
  - intros selector text more maxTime Hno.
    unfold subcomponent_step, subcomponent_loop.
    specialize (Hsub selector text).
    destruct (subcomponent_load_time selector text) as [e|seconds].
    + destruct Hsub as (_ & msg & -> & Hincl). eauto.
    + destruct Hsub as (i & number & unit & [Hocc _] & _).
      now destruct (Hno _ _ _ Hocc).
  - eexists. split; [vm_compute; reflexivity|].
    cbv [nearest_to]. repeat split; vm_compute; congruence.
  - eexists. split; [vm_compute; reflexivity|].
    cbv [nearest_to]. repeat split; vm_compute; congruence.
Qed.

Lemma metric_extraction_witness :
  exists e msg,
    main_page_step (Some (lit "running (0m01.0s), 0/1 VUs")) 5 = inl e
    /\ message e = Some msg
    /\ includes msg (lit "running (0m01.0s), 0/1 VUs") = true.
Proof.
  apply (proj1 (proj2 (proj2 metric_extraction))).
  apply (exec_metric_None true "main_page_load_time").
  vm_compute. reflexivity.
Defined.

Lemma check_threshold_pass selector L M :
  check_threshold selector L M = inr tt <-> lt L (of_Z M) = true.
Proof.
  unfold check_threshold.
  destruct (isNaN L) eqn:HL; simpl.
  - split; [discriminate|]. intros H. apply lt_not_nan in H. congruence.
  - rewrite <- (ge_false_lt L (of_Z M) HL (of_Z_not_nan M)).
    destruct (ge L (of_Z M)); split; congruence.
Qed.

Lemma check_threshold_fail selector L M :
  check_threshold selector L M <> inr tt ->
  check_threshold selector L M = inl (ThresholdExceeded selector L M).
Proof.
  unfold check_threshold. destruct (isNaN L || ge L (of_Z M)); congruence.
Qed.

Lemma subcomponent_loop_pass outs M :
  subcomponent_loop outs M = inr tt <->
  Forall (fun so => exists L, subcomponent_load_time so.1 so.2 = inr L
                              /\ lt L (of_Z M) = true) outs.
Proof.
  induction outs as [|[selector output] outs IH]; simpl.
  - split; auto.
  - rewrite Forall_cons. simpl.
    destruct (subcomponent_load_time selector output) as [e|L].
    + split; [discriminate | intros [(L & H & _) _]; discriminate].
    + pose proof (check_threshold_pass (Some selector) L M) as HL.
      destruct (check_threshold (Some selector) L M) as [e|[]].
      * split; [discriminate|]. intros [(L' & [= <-] & Hlt) _].
        apply HL in Hlt. discriminate.
      * rewrite IH. split; [|tauto]. intros H. split; [|exact H].
        exists L. split; [reflexivity | now apply HL].
Qed.

(** C2. The threshold validator passes exactly when the load time is
    strictly below the limit: a load time equal to the limit fails, and so
    does NaN. This holds of the check itself and of the two steps built on
    it; [avg=5.000s] and [avg=5000ms] against the limit 5 fail, and so does
    [avg=.s], whose number parses to NaN. *)
Theorem threshold_strict :
  (forall (selector : option jsstr) (L : spec_float) (M : Z),
     (check_threshold selector L M = inr tt <-> lt L (of_Z M) = true)
     /\ (SFeqb L (of_Z M) = true ->
         check_threshold selector L M = inl (ThresholdExceeded selector L M))
     /\ (isNaN L = true ->
         check_threshold selector L M = inl (ThresholdExceeded selector L M)))
  /\ (forall (text : jsstr) (M : Z),
        main_page_step (Some text) M = inr tt <->
        exists L, main_page_load_time text = inr L /\ lt L (of_Z M) = true
                  /\ text <> [])
  /\ (forall (outs : list (jsstr * jsstr)) (M : Z),
        subcomponent_step outs M = inr tt <->
        outs <> []
        /\ Forall (fun so => exists L,
                     subcomponent_load_time so.1 so.2 = inr L
                     /\ lt L (of_Z M) = true) outs)
  /\ main_page_step (Some (lit "main_page_load_time.....: avg=5.000s")) 5
     = inl (ThresholdExceeded None (of_Z 5) 5)
  /\ main_page_step (Some (lit "main_page_load_time.....: avg=5000ms")) 5
     = inl (ThresholdExceeded None (of_Z 5) 5)
  /\ main_page_step (Some (lit "main_page_load_time.....: avg=4999ms")) 5
     = inr tt
  /\ main_page_step (Some (lit "main_page_load_time.....: avg=.s")) 5
     = inl (ThresholdExceeded None NaN 5).
Proof.
  split; [|split; [|split; [|split; [|split; [|split]]]]].
  - intros selector L M. split; [apply check_threshold_pass|]. split.
    + intros H. apply check_threshold_fail. intros Hpass.
      apply check_threshold_pass in Hpass.
      apply eqb_ge in H. apply lt_not_nan in Hpass as Hnan.
      apply (ge_false_lt L (of_Z M) Hnan (of_Z_not_nan M)) in Hpass. congruence.
    + intros H. unfold check_threshold. now rewrite H.
  - intros text M. unfold main_page_step. destruct text as [|c out].
    + split; [discriminate | intros (L & _ & _ & H); congruence].
    + destruct (main_page_load_time (c :: out)) as [e|L].
      * split; [discriminate | intros (L & H & _); discriminate].
      * rewrite check_threshold_pass. split.
        -- intros H. exists L. repeat split; auto.
        -- intros (L' & [= <-] & H & _). exact H.
  - intros outs M. unfold subcomponent_step. destruct outs as [|so outs].
    + split; [discriminate | intros [H _]; congruence].
    + rewrite subcomponent_loop_pass. split; [|tauto].
      intros H. split; [discriminate | exact H].
  - vm_compute. reflexivity.
  - vm_compute. reflexivity.
  - vm_compute. reflexivity.
  - vm_compute. reflexivity.
Qed.

Lemma threshold_strict_witness :
  check_threshold None (of_Z 5) 5 = inl (ThresholdExceeded None (of_Z 5) 5)
  /\ check_threshold None NaN 5 = inl (ThresholdExceeded None NaN 5).
Proof.
  split.
  - apply (proj1 (proj2 (proj1 threshold_strict None (of_Z 5) 5))).
    vm_compute. reflexivity.
  - apply (proj2 (proj2 (proj1 threshold_strict None NaN 5))). reflexivity.
Defined.








End StepsFacts.

(** ** Configuration *)

Module ConfigFacts.
Import JsString JsNumber Regex Config Iteration Scope Grammar Rules Floors
  RegexFacts NumberFacts.

Lemma includes_middle (p a q : jsstr) : includes (p ++ a ++ q) a = true.
Proof.
  induction p as [|x p IH]; simpl.
  - destruct (a ++ q) eqn:E; simpl; rewrite <- E, prefixb_app; reflexivity.
  - rewrite IH. apply orb_true_r.
Qed.

Lemma prefixb_app_split (a b s : jsstr) :
  prefixb (a ++ b) s = prefixb a s && prefixb b (drop (length a) s).
Proof.
  revert s; induction a as [|x a IH]; intros s; simpl.
  - now rewrite drop_0.
  - destruct s as [|y s]; simpl; [reflexivity|].
    now rewrite IH, andb_assoc.
Qed.

Lemma search_from_cons n r i x s :
  search_from n r i (x :: s) =
  match rmatch n r (x :: s) [] accept with
  | Some (rest, c) => Some (MatchResult i rest c)
  | None => search_from n r (S i) s
  end.
Proof. reflexivity. Qed.

Lemma search_from_nil n r i :
  search_from n r i [] =
  match rmatch n r [] [] accept with
  | Some (rest, c) => Some (MatchResult i rest c)
  | None => None
  end.
Proof. reflexivity. Qed.

Lemma rmatch_Bol n r s c k :
  rmatch n (Seq Bol r) s c k =
  if (length s =? n)%nat then rmatch n r s c k else None.
Proof. reflexivity. Qed.

(** A pattern that starts with [^] can only match at the start. *)
Lemma search_from_Bol_later n r i s :
  (length s < n)%nat -> search_from n (Seq Bol r) i s = None.
Proof.
  revert i; induction s as [|x s IH]; intros i Hlen.
  - rewrite search_from_nil, rmatch_Bol.
    replace (length (@nil N) =? n)%nat with false
      by (symmetry; apply Nat.eqb_neq; simpl in *; lia).
    reflexivity.
  - rewrite search_from_cons, rmatch_Bol.
    replace (length (x :: s) =? n)%nat with false
      by (symmetry; apply Nat.eqb_neq; lia).
    apply IH. simpl in Hlen. lia.
Qed.

Lemma test_Bol r s :
  test (Seq Bol r) s =
  match rmatch (length s) r s [] accept with
  | Some _ => true
  | None => false
  end.
Proof.
  unfold test, exec. destruct s as [|x s].
  - rewrite search_from_nil, rmatch_Bol, Nat.eqb_refl.
    destruct (rmatch _ r [] [] accept) as [[]|]; reflexivity.
  - rewrite search_from_cons, rmatch_Bol, Nat.eqb_refl.
    destruct (rmatch _ r (x :: s) [] accept) as [[]|]; [reflexivity|].
    rewrite search_from_Bol_later by (simpl; lia). reflexivity.
Qed.

Lemma rmatch_Eol n s c : rmatch n Eol s c accept = at_end s c.
Proof. destruct s; reflexivity. Qed.

Lemma star_class_at_end p s c :
  star_class p at_end s c = if forallb p s then Some ([], c) else None.
Proof.
  induction s as [|x s IH]; simpl; [reflexivity|].
  destruct (p x); simpl; [|reflexivity].
  rewrite IH. destruct (forallb p s); reflexivity.
Qed.

(** [[class]+$] at the front of the input. *)
Lemma rmatch_Plus_class_Eol n p s c :
  rmatch n (Seq (Plus (Cls p)) Eol) s c accept =
  match s with
  | [] => None
  | _ :: _ => if forallb p s then Some ([], c) else None
  end.
Proof.
  destruct s as [|x s]; [reflexivity|].
  change (rmatch n (Seq (Plus (Cls p)) Eol) (x :: s) c accept)
    with (if p x
          then rmatch n (Star (Cls p)) s c (fun s' c' => rmatch n Eol s' c' accept)
          else None).
  cbn [forallb]. destruct (p x); [|reflexivity]. cbn [andb].
  rewrite rmatch_Star_class.
  replace (star_class p (fun s' c' => rmatch n Eol s' c' accept) s c)
    with (star_class p at_end s c); [apply star_class_at_end|].
  clear. induction s as [|y s IH]; simpl; [reflexivity|].
  destruct (p y); [|reflexivity]. now rewrite IH.
Qed.

(** The selector rule: one character or more, all of the allowed class. *)
Lemma test_selectorPattern s :
  test selectorPattern s =
  match s with
  | [] => false
  | _ :: _ => forallb selector_char s
  end.
Proof.
  unfold selectorPattern. rewrite test_Bol, rmatch_Plus_class_Eol.
  destruct s as [|x s]; [reflexivity|].
  destruct (forallb selector_char (x :: s)); reflexivity.
Qed.

Lemma nonblank_rmatch n s c :
  match rmatch n (Seq (Plus (Cls (fun c => negb (is_space c)))) Eol) s c accept with
  | Some _ => true
  | None => false
  end = nonblank (Some s).
Proof.
  rewrite rmatch_Plus_class_Eol. destruct s as [|x s]; [reflexivity|].
  unfold nonblank. destruct (forallb _ (x :: s)); reflexivity.
Qed.

(** The URL rule: the pattern holds exactly of the [http_url] strings. *)
Lemma test_urlPattern u : test urlPattern u = http_url u.
Proof.
  unfold urlPattern, http_url, strip_prefix. rewrite test_Bol.
  change (rmatch ?n (Seq ?r1 ?r2) u [] ?k)
    with (rmatch n r1 u [] (fun s' c' => rmatch n r2 s' c' k)).
  rewrite rmatch_Lit.
  change (lit "https://") with (lit "http" ++ [115%N] ++ lit "://").
  change (lit "http://") with (lit "http" ++ lit "://").
  rewrite !prefixb_app_split.
  destruct (prefixb (lit "http") u); [|reflexivity].
  set (s1 := drop (length (lit "http")) u).
  rewrite !length_app. rewrite <- !drop_drop. fold s1. clearbody s1.
  cbn [andb].
  change (rmatch ?n (Seq (Opt ?r1) ?r2) s1 [] ?k)
    with (match rmatch n r1 s1 [] (fun s' c' => rmatch n r2 s' c' k) with
          | Some res => Some res
          | None => rmatch n r2 s1 [] k
          end).
  assert (Hk : forall s,
             match
               rmatch (length u)
                 (Seq (Lit (lit "://"))
                    (Seq (Plus (Cls (fun c => negb (is_space c)))) Eol)) s []
                 accept
             with
             | Some _ => true
             | None => false
             end
             = nonblank (if prefixb (lit "://") s
                         then Some (drop (length (lit "://")) s) else None)).
  { intros s.
    change (rmatch ?n (Seq ?r1 ?r2) s [] ?k)
      with (rmatch n r1 s [] (fun s' c' => rmatch n r2 s' c' k)).
    rewrite rmatch_Lit. destruct (prefixb (lit "://") s); [|reflexivity].
    apply nonblank_rmatch. }
  destruct s1 as [|x s']; [apply Hk|].
  change (rmatch ?n (Chr 115) (x :: s') [] ?k)
    with (if (x =? 115)%N then k s' [] else None).
  change (prefixb [115%N] (x :: s')) with ((115 =? x)%N && true).
  rewrite andb_true_r, (N.eqb_sym 115 x).
  destruct (x =? 115)%N eqn:E.
  - apply N.eqb_eq in E; subst x.
    change (prefixb (lit "://") (115%N :: s')) with false.
    cbn [andb nonblank]. rewrite orb_false_r.
    change (drop (length [115%N]) (115%N :: s')) with s'.
    pose proof (Hk s') as Hs'. pose proof (Hk (115%N :: s')) as Hs.
    change (prefixb (lit "://") (115%N :: s')) with false in Hs.
    destruct (rmatch (length u) _ s' [] accept) as [[]|].
    + exact Hs'.
    + rewrite <- Hs'. exact Hs.
  - cbn [andb nonblank orb]. apply Hk.
Qed.

Lemma http_url_prefixed u : http_url u = true -> http_prefixed u = true.
Proof.
  unfold http_url, http_prefixed, strip_prefix.
  destruct (prefixb (lit "https://") u), (prefixb (lit "http://") u);
    simpl; auto.
Qed.

(** C5. When the URL is missing or not http(s)-prefixed and the selector
    is present but has a character outside the allowed set, validation fails
    with one error whose message lists both violations; the iteration then
    throws that error before it has done anything to the outside world (no
    HTTP request, no browser context, no page). Validation is a function of
    the configuration alone. *)
Theorem validation_lists_every_violation (cfg : config) (sel : jsstr) :
  (truthy (testUrl cfg) = false
   \/ exists u, testUrl cfg = Some u /\ http_prefixed u = false) ->
  subcomponentSelector cfg = Some sel ->
  sel <> [] ->
  forallb selector_char sel = false ->
  let url_error :=
    match testUrl cfg with
    | Some (c :: u) => url_invalid (c :: u)
    | _ => url_required
    end in
  let message := validation_message [url_error; selector_invalid sel] in
  validationErrors cfg = [url_error; selector_invalid sel]
  /\ validateRequiredEnvironmentVariables cfg = inl message
  /\ includes message url_error = true
  /\ includes message (selector_invalid sel) = true
  /\ forall w, default_export cfg w = ([], Thrown (Some message)).
Proof.
  intros Hurl Hsel Hne Hchars url_error message.
  assert (Herrors : validationErrors cfg = [url_error; selector_invalid sel]).
  { unfold validationErrors, url_error. rewrite Hsel.
    destruct sel as [|c sel']; [congruence|].
    rewrite test_selectorPattern, Hchars.
    destruct (testUrl cfg) as [[|c0 u]|] eqn:Hu; try reflexivity.
    rewrite test_urlPattern.
    destruct (http_url (c0 :: u)) eqn:Hhttp; [|reflexivity].
    apply http_url_prefixed in Hhttp.
    destruct Hurl as [Hurl|(u' & [= <-] & Hurl)]; [discriminate | congruence]. }
  assert (Hthrow : validateRequiredEnvironmentVariables cfg = inl message).
  { unfold validateRequiredEnvironmentVariables. now rewrite Herrors. }
  split; [exact Herrors|]. split; [exact Hthrow|]. split; [|split].
  - unfold message, validation_message. cbn [List.map join].
    match goal with
    | |- includes ?x _ = _ =>
        replace x
          with ((lit "Environment validation failed:" ++ [10%N] ++ lit "  - ")
                  ++ url_error
                  ++ ([10%N] ++ lit "  - " ++ selector_invalid sel))
          by (now rewrite <- !app_assoc)
    end.
    apply includes_middle.
  - unfold message, validation_message. cbn [List.map join].
    rewrite !app_assoc. apply includes_suffix.
  - intros w. unfold default_export. now rewrite Hthrow.
Qed.

Lemma validation_lists_every_violation_witness :
  let invalid := CONFIG (<["SUBCOMPONENT_SELECTOR" := lit "div{x}"]>
                           (<["TEST_URL" := lit "ftp://example.test"]> ∅)) in
  let missing := CONFIG (<["SUBCOMPONENT_SELECTOR" := lit "div{x}"]> ∅) in
  validationErrors invalid
  = [url_invalid (lit "ftp://example.test"); selector_invalid (lit "div{x}")]
  /\ validationErrors missing = [url_required; selector_invalid (lit "div{x}")].
Proof.
  intros invalid missing. split.
  - apply (validation_lists_every_violation invalid (lit "div{x}")).
    + right. exists (lit "ftp://example.test"). split; reflexivity.
    + reflexivity.
    + discriminate.
    + reflexivity.
  - apply (validation_lists_every_violation missing (lit "div{x}")).
    + left. reflexivity.
    + reflexivity.
    + discriminate.
    + reflexivity.
Defined.








End ConfigFacts.

(** ** The network correlator *)

Module NetworkFacts.
Import JsString Network Pending.

Section Correlator.
Variable toUpperCase : jsstr -> jsstr.

Lemma on_request_untracked t req st :
  tracked toUpperCase req = false -> on_request toUpperCase t req st = st.
Proof.
  unfold on_request. intros ->. now destruct (req_method req).
Qed.

Lemma on_request_pending t req st :
  pending_tracked st -> pending_tracked (on_request toUpperCase t req st).
Proof.
  intros Hinv. unfold on_request, tracked.
  destruct (req_method req) as [m|]; [|exact Hinv].
  case_bool_decide as Hm; [|exact Hinv].
  intros id timing. cbn [requestTimings].
  destruct (decide (id = requestId req)) as [->|Hne].
  - rewrite lookup_insert_eq. intros [= <-]. exact Hm.
  - rewrite lookup_insert_ne by congruence. apply Hinv.
Qed.

Lemma on_response_pending t res st :
  pending_tracked st -> pending_tracked (on_response toUpperCase t res st).
Proof.
  intros Hinv. unfold on_response.
  destruct (req_method (res_request res)) as [m|]; [|exact Hinv].
  destruct (tracked toUpperCase (res_request res)); [|exact Hinv].
  destruct (requestTimings st !! requestId (res_request res)); [|exact Hinv].
  intros id timing. cbn [requestTimings].
  intros H. apply lookup_delete_Some in H as [_ H]. now apply Hinv in H.
Qed.

Lemma deliver_all_pending events st :
  pending_tracked st -> pending_tracked (fold_left (deliver toUpperCase) events st).
Proof.
  revert st; induction events as [|e events IH]; intros st Hinv; [exact Hinv|].
  apply IH. destruct e; [now apply on_request_pending | now apply on_response_pending].
Qed.

(** An event filed under another identifier leaves the entry of an
    identifier as it is. *)
Lemma deliver_other_id e st id :
  event_id e <> id ->
  requestTimings (deliver toUpperCase st e) !! id = requestTimings st !! id.
Proof.
  intros Hid. destruct e as [t req|t res]; cbn [deliver event_id] in *.
  - unfold on_request. destruct (req_method req); [|reflexivity].
    destruct (tracked toUpperCase req); [|reflexivity].
    cbn [requestTimings]. now rewrite lookup_insert_ne.
  - unfold on_response. destruct (req_method (res_request res)); [|reflexivity].
    destruct (tracked toUpperCase (res_request res)); [|reflexivity].
    destruct (requestTimings st !! requestId (res_request res)); [|reflexivity].
    cbn [requestTimings]. now rewrite lookup_delete_ne.
Qed.

Lemma deliver_others_id events st id :
  Forall (fun e => event_id e <> id) events ->
  requestTimings (fold_left (deliver toUpperCase) events st) !! id
  = requestTimings st !! id.
Proof.
  revert st; induction events as [|e events IH]; intros st H; [reflexivity|].
  apply Forall_cons in H as [He H]. cbn [fold_left].
  rewrite IH by exact H. now apply deliver_other_id.
Qed.

(** C6, as the code has it. For every interleaving of request and response
    events: every entry of the pending map carries a method of the set {GET,
    POST, PUT, PATCH, DELETE}, and a request whose upper-cased method is not
    in the set leaves the map as it is; a request whose upper-cased method
    is in the set files an entry under its identifier, with the time at
    which it was observed, in place of an earlier entry of that identifier.
    A response whose request has a method of the set (upper-cased) and whose
    identifier has a pending entry removes the entry and appends one log
    entry, whose response time is the time at which the response was
    observed minus the time of the entry: the time at which the latest
    request with that identifier was observed, whatever was delivered under
    other identifiers in between. A response whose identifier has no
    pending entry changes nothing and raises nothing. *)
Theorem correlator_pairs_tracked_requests :
  (forall networkLogging events,
     pending_tracked (observe toUpperCase networkLogging events))
  /\ (forall t req st,
        tracked toUpperCase req = false ->
        on_request toUpperCase t req st = st)
  /\ (forall t req m st,
        req_method req = Some m ->
        tracked toUpperCase req = true ->
        on_request toUpperCase t req st
        = MkNet (<[requestId req := MkTiming t (toUpperCase m) (req_url req)]>
                   (requestTimings st))
            (networkLogs st))
  /\ (forall t res st timing,
        tracked toUpperCase (res_request res) = true ->
        requestTimings st !! requestId (res_request res) = Some timing ->
        let st' := on_response toUpperCase t res st in
        requestTimings st'
        = delete (requestId (res_request res)) (requestTimings st)
        /\ requestTimings st' !! requestId (res_request res) = None
        /\ exists entry,
             networkLogs st' = networkLogs st ++ [entry]
             /\ responseTime entry = t - start timing
             /\ url entry = req_url (res_request res)
             /\ status entry = res_status res)
  /\ (forall requestObservedAt req between responseObservedAt res m st,
        tracked toUpperCase req = true ->
        req_method (res_request res) = Some m ->
        tracked toUpperCase (res_request res) = true ->
        requestId (res_request res) = requestId req ->
        Forall (fun e => event_id e <> requestId req) between ->
        let st1 :=
          fold_left (deliver toUpperCase) between
            (on_request toUpperCase requestObservedAt req st) in
        let st2 := on_response toUpperCase responseObservedAt res st1 in
        networkLogs st2
        = networkLogs st1
          ++ [MkLog (toUpperCase m) (req_url (res_request res))
                (responseObservedAt - requestObservedAt) (res_status res)]
        /\ requestTimings st2 !! requestId req = None)
  /\ (forall t res st,
        requestTimings st !! requestId (res_request res) = None ->
        on_response toUpperCase t res st = st).
Proof.
  split; [|split; [|split; [|split; [|split]]]].
  - assert (Hinit : pending_tracked initial).
    { intros id timing H. cbn [initial requestTimings] in H.
      now rewrite lookup_empty in H. }
    intros [|] events; [|exact Hinit]. now apply deliver_all_pending.
  - apply on_request_untracked.
  - intros t req m st Hm Htracked. unfold on_request. now rewrite Hm, Htracked.
  - intros t res st timing Htracked Hpending st'. subst st'.
    unfold on_response. rewrite Htracked, Hpending.
    unfold tracked in Htracked.
    destruct (req_method (res_request res)) as [m|]; [|discriminate].
    cbn [requestTimings networkLogs]. split; [reflexivity|].
    split; [apply lookup_delete_eq|]. eexists. split; [reflexivity|].
    repeat split.
  - intros t1 req between t2 res m st Hreq Hm Hres Hid Hbetween st1 st2.
    assert (Hentry : exists m1,
               requestTimings st1 !! requestId req
               = Some (MkTiming t1 (toUpperCase m1) (req_url req))).
    { subst st1. rewrite (deliver_others_id _ _ _ Hbetween).
      unfold on_request. pose proof Hreq as Hreq'. unfold tracked in Hreq.
      destruct (req_method req) as [m1|]; [|discriminate].
      rewrite Hreq'. cbn [requestTimings]. exists m1. apply lookup_insert_eq. }
    destruct Hentry as [m1 Hentry].
    subst st2. unfold on_response. rewrite Hm, Hres, Hid, Hentry.
    cbn [requestTimings networkLogs start]. split; [reflexivity|].
    apply lookup_delete_eq.
  - intros t res st Hnone. unfold on_response. rewrite Hnone.
    destruct (req_method (res_request res)); [|reflexivity].
    now destruct (tracked toUpperCase (res_request res)).
Qed.

End Correlator.

Lemma correlator_pairs_tracked_requests_witness :
  let get := MkRequest (Some (lit "get")) None (lit "https://example.test/api/items") in
  let post := MkRequest (Some (lit "POST")) None (lit "https://example.test/api/cart") in
  let st1 :=
    deliver_all ascii_upper [RequestEvent 100 get; RequestEvent 110 post] in
  let st2 := on_response ascii_upper 140 (MkResponse get 200) st1 in
  networkLogs st2
  = [MkLog (lit "GET") (lit "https://example.test/api/items") 40 200]
  /\ requestTimings st2 !! lit "https://example.test/api/items" = None.
Proof.
  intros get post st1 st2.
  pose proof (correlator_pairs_tracked_requests ascii_upper) as H.
  destruct H as (_ & _ & _ & _ & H & _).
  apply (H 100 get [RequestEvent 110 post] 140 (MkResponse get 200) (lit "get")
           initial eq_refl eq_refl eq_refl eq_refl).
  repeat constructor. discriminate.
Defined.

(** Counterexample to C6 as it is stated: the identifier of a request
    without [_guid] is its URL, and a response to a HEAD request for a URL
    that has a pending GET matches the pending entry without removing it or
    logging anything. (A request whose method is spelled [patch] is tracked,
    as PATCH.) And of two requests for the same URL the later one replaces
    the entry of the earlier one, so that the first response is timed from
    the second request and the second response is ignored. *)
Lemma correlator_response_not_tracked :
  let get := MkRequest (Some (lit "GET")) None (lit "https://example.test/api/items") in
  let head := MkRequest (Some (lit "HEAD")) None (lit "https://example.test/api/items") in
  let patch := MkRequest (Some (lit "patch")) None (lit "https://example.test/api/items/1") in
  let st := deliver_all ascii_upper [RequestEvent 100 get] in
  let st' := on_response ascii_upper 140 (MkResponse head 200) st in
  requestTimings (deliver_all ascii_upper [RequestEvent 100 patch])
    !! requestId patch
  = Some (MkTiming 100 (lit "PATCH") (lit "https://example.test/api/items/1"))
  /\ requestId head = requestId get
  /\ requestTimings st !! requestId head
     = Some (MkTiming 100 (lit "GET") (lit "https://example.test/api/items"))
  /\ requestTimings st' !! requestId head
     = Some (MkTiming 100 (lit "GET") (lit "https://example.test/api/items"))
  /\ networkLogs st' = []
  /\ networkLogs
       (deliver_all ascii_upper
          [RequestEvent 100 get; RequestEvent 120 get;
           ResponseEvent 140 (MkResponse get 200);
           ResponseEvent 150 (MkResponse get 200)])
     = [MkLog (lit "GET") (lit "https://example.test/api/items") 20 200]
  /\ ~ (forall t res st timing,
          requestTimings st !! requestId (res_request res) = Some timing ->
          requestTimings (on_response ascii_upper t res st)
            !! requestId (res_request res) = None).
Proof.
  intros get head patch st st'.
  split; [reflexivity|].
  split; [reflexivity|]. split; [reflexivity|]. split; [reflexivity|].
  split; [reflexivity|]. split; [vm_compute; reflexivity|].
  intros Hclaim.
  specialize (Hclaim 140 (MkResponse head 200) st
                (MkTiming 100 (lit "GET") (lit "https://example.test/api/items"))
                eq_refl).
  discriminate Hclaim.
Qed.

End NetworkFacts.

(** ** Highlighting *)

Module HighlightFacts.
Import JsString Highlight Marks.

Lemma read_assign (values : Style) : read_style (assign_style values) = values.
Proof. now destruct values. Qed.

(** The six properties are restorable exactly when each is as an assignment
    leaves it. *)
Lemma restorable_assigned (i : Inline) :
  restorable i <-> exists values, i = assign_style values.
Proof.
  unfold restorable. split.
  - intros H. now exists (read_style i).
  - intros [values ->]. now rewrite read_assign.
Qed.

Lemma highlight_node_consistent els0 text acc node :
  consistent els0 acc -> consistent els0 (highlight_node text acc node).
Proof.
  destruct acc as [els saved], node as [parent tc].
  intros (Hnd & Hsaved & Hother). unfold highlight_node. simpl in *.
  destruct (includes tc text && negb (truthy (highlighted (els parent)))) eqn:E;
    [|exact (conj Hnd (conj Hsaved Hother))].
  apply andb_true_iff in E as [_ Hmark]. apply negb_true_iff in Hmark.
  assert (Hfresh : parent ∉ saved.*1).
  { intros Hin. apply list_elem_of_fmap in Hin as ([id original] & -> & Hin).
    apply Hsaved in Hin as (_ & _ & Hels). simpl in Hmark.
    now rewrite Hels in Hmark. }
  pose proof (Hother _ Hfresh) as Hparent.
  split; [|split]; simpl.
  - rewrite fmap_app. apply NoDup_app. repeat split; [exact Hnd| |].
    + intros x Hx Hx'. apply list_elem_of_singleton in Hx'. now subst.
    + apply NoDup_singleton.
  - intros id original H. apply elem_of_app in H as [H|H].
    + pose proof H as Hin. apply Hsaved in H as (Ho & Hm & Hels).
      repeat split; [exact Ho | exact Hm |].
      rewrite fn_lookup_insert_ne; [exact Hels|].
      intros ->. apply Hfresh. apply list_elem_of_fmap. now exists (id, original).
    + apply list_elem_of_singleton in H as [= -> ->].
      rewrite fn_lookup_insert, Hparent. repeat split.
      now rewrite <- Hparent.
  - intros id Hid. rewrite fmap_app in Hid.
    rewrite fn_lookup_insert_ne.
    + apply Hother. intros Hin. apply Hid. apply elem_of_app. now left.
    + intros ->. apply Hid. apply elem_of_app. right. simpl.
      apply list_elem_of_singleton. reflexivity.
Qed.

Lemma highlight_fold_consistent els0 text nodes acc :
  consistent els0 acc ->
  consistent els0 (fold_left (highlight_node text) nodes acc).
Proof.
  revert acc; induction nodes as [|node nodes IH]; intros acc H; [exact H|].
  apply IH. now apply highlight_node_consistent.
Qed.

Lemma restore_fold_other saved els id :
  id ∉ saved.*1 -> fold_left restore_element saved els id = els id.
Proof.
  revert els; induction saved as [|[i o] saved IH]; intros els Hid; [reflexivity|].
  simpl in *. apply not_elem_of_cons in Hid as [Hne Hid].
  rewrite IH by exact Hid. unfold restore_element.
  now rewrite fn_lookup_insert_ne.
Qed.

Lemma restore_fold_saved saved els id original :
  NoDup saved.*1 -> (id, original) ∈ saved ->
  fold_left restore_element saved els id
  = MkElement (assign_style original) (otherStyle (els id)) None.
Proof.
  revert els; induction saved as [|[i o] saved IH]; intros els Hnd Hin.
  - now apply elem_of_nil in Hin.
  - simpl in *. apply NoDup_cons in Hnd as [Hfresh Hnd].
    apply elem_of_cons in Hin as [[= -> ->]|Hin].
    + rewrite restore_fold_other by exact Hfresh.
      unfold restore_element. now rewrite fn_lookup_insert.
    + rewrite (IH _ Hnd Hin). unfold restore_element.
      rewrite fn_lookup_insert_ne; [reflexivity|].
      intros ->. apply Hfresh. apply list_elem_of_fmap. now exists (id, original).
Qed.

Lemma consistent_start els0 : consistent els0 (els0, []).
Proof.
  split; [|split]; simpl.
  - apply NoDup_nil_2.
  - intros id original H. now apply elem_of_nil in H.
  - reflexivity.
Qed.

(** What [removeHighlighting] leaves of an element after
    [applyHighlighting], from the state of the loop: a saved element gets
    the values that its six properties read assigned back. *)
Lemma restored_element els0 els saved id :
  consistent els0 (els, saved) ->
  fold_left restore_element saved els id
  = if bool_decide (id ∈ saved.*1)
    then MkElement (assign_style (read_style (style (els0 id))))
           (otherStyle (els0 id)) None
    else els0 id.
Proof.
  intros (Hnd & Hsaved & Hother). simpl in *.
  case_bool_decide as Hin.
  - apply list_elem_of_fmap in Hin as ([i original] & -> & Hin).
    rewrite (restore_fold_saved _ _ _ _ Hnd Hin).
    apply Hsaved in Hin as (-> & _ & ->). reflexivity.
  - rewrite restore_fold_other by exact Hin. now apply Hother.
Qed.

(** A step of the loop of [applyHighlighting] keeps the markers that are
    set, and marks the parent of a text node that contains the text. *)
Lemma highlight_node_marks text acc node :
  (forall id, truthy (highlighted (acc.1 id)) = true ->
     truthy (highlighted ((highlight_node text acc node).1 id)) = true)
  /\ (includes node.2 text = true ->
      truthy (highlighted ((highlight_node text acc node).1 node.1)) = true).
Proof.
  destruct acc as [els saved], node as [parent tc]. unfold highlight_node.
  cbn [fst snd].
  destruct (includes tc text) eqn:Hinc; cbn [andb].
  - destruct (truthy (highlighted (els parent))) eqn:Hmark; cbn [negb fst].
    + split; [auto | intros _; exact Hmark].
    + split.
      * intros id Hid. destruct (decide (id = parent)) as [->|Hne].
        -- now rewrite fn_lookup_insert.
        -- now rewrite fn_lookup_insert_ne.
      * intros _. now rewrite fn_lookup_insert.
  - cbn [fst]. split; [auto | discriminate].
Qed.

Lemma highlight_fold_marks text nodes acc :
  (forall id, truthy (highlighted (acc.1 id)) = true ->
     truthy (highlighted ((fold_left (highlight_node text) nodes acc).1 id)) = true)
  /\ (forall node, node ∈ nodes -> includes node.2 text = true ->
        truthy (highlighted
                  ((fold_left (highlight_node text) nodes acc).1 node.1)) = true).
Proof.
  revert acc; induction nodes as [|node nodes IH]; intros acc; cbn [fold_left].
  - split; [auto|]. intros node Hin. now apply elem_of_nil in Hin.
  - destruct (IH (highlight_node text acc node)) as [Hkeep Hmark].
    destruct (highlight_node_marks text acc node) as [Hkeep1 Hmark1].
    split.
    + intros id Hid. apply Hkeep, Hkeep1, Hid.
    + intros n Hin Hinc. apply elem_of_cons in Hin as [->|Hin].
      * apply Hkeep, Hmark1, Hinc.
      * now apply Hmark.
Qed.

(** Apply-then-remove, element by element: the parent of a text node that
    contains the text is saved unless it carried a marker; a saved element
    ends with the values that its six properties read assigned back and
    without a marker; the other elements are untouched. *)
Lemma apply_then_remove (n : Node) (c : N) (t : jsstr) (p : Page) :
  let p1 := applyHighlighting true (Some n) (Some (c :: t)) p in
  let p2 := removeHighlighting true p1 in
  exists saved,
    highlightedElements p1 = Elements saved
    /\ highlightedElements p2 = Null
    /\ (forall id original, (id, original) ∈ saved ->
          original = read_style (style (elements p id))
          /\ truthy (highlighted (elements p id)) = false
          /\ elements p1 id
             = MkElement (assign_style highlightStyle)
                 (otherStyle (elements p id)) (Some (lit "true")))
    /\ (forall node, node ∈ textNodes 0 n -> includes node.2 (c :: t) = true ->
          truthy (highlighted (elements p node.1)) = false ->
          node.1 ∈ saved.*1)
    /\ (forall id, id ∉ saved.*1 ->
          elements p1 id = elements p id /\ elements p2 id = elements p id)
    /\ (forall id, id ∈ saved.*1 ->
          elements p2 id
          = MkElement (assign_style (read_style (style (elements p id))))
              (otherStyle (elements p id)) None).
Proof.
  intros p1 p2. subst p1 p2. unfold applyHighlighting.
  pose proof (highlight_fold_consistent (elements p) (c :: t) (textNodes 0 n)
                _ (consistent_start (elements p))) as Hcons.
  pose proof (highlight_fold_marks (c :: t) (textNodes 0 n) (elements p, []))
    as [_ Hmarks].
  destruct (fold_left _ (textNodes 0 n) (elements p, [])) as [els saved].
  exists saved. cbn [removeHighlighting highlightedElements elements].
  pose proof Hcons as (Hnd & Hsaved & Hother).
  cbn [fst snd] in Hnd, Hsaved, Hother, Hmarks.
  split; [reflexivity|]. split; [reflexivity|]. split; [exact Hsaved|].
  split; [|split].
  - intros node Hin Hinc Hmark.
    destruct (decide (node.1 ∈ saved.*1)) as [Hs|Hs]; [exact Hs|].
    specialize (Hmarks node Hin Hinc). rewrite (Hother _ Hs) in Hmarks.
    congruence.
  - intros id Hid. split; [now apply Hother|].
    rewrite (restored_element _ _ _ id Hcons).
    now rewrite bool_decide_eq_false_2.
  - intros id Hid. rewrite (restored_element _ _ _ id Hcons).
    now rewrite bool_decide_eq_true_2.
Qed.

(** C9 fails on the code for an element whose inline style declares one of
    the six properties in a way that reading the property does not give
    back: a longhand of [padding], [border] or [border-radius] without the
    others (the shorthand then reads as the empty string), or a declaration
    marked [!important]. [applyHighlighting] saves what the six properties
    read and [removeHighlighting] assigns that back, so that, for every
    page, a highlighted element ends with the declarations that those
    values expand to: its own only when they were restorable. With
    [style="padding-left: 5px; color: blue"] the padding is gone after
    apply-then-remove. (The marker is cleared, the window property is reset
    and the other elements are untouched, as the claim says.) *)
Theorem highlight_loses_declarations :
  (forall (n : Node) (c : N) (t : jsstr) (p : Page),
     let p1 := applyHighlighting true (Some n) (Some (c :: t)) p in
     let p2 := removeHighlighting true p1 in
     exists saved,
       highlightedElements p1 = Elements saved
       /\ highlightedElements p2 = Null
       /\ (forall node, node ∈ textNodes 0 n -> includes node.2 (c :: t) = true ->
             truthy (highlighted (elements p node.1)) = false ->
             node.1 ∈ saved.*1)
       /\ (forall id, id ∉ saved.*1 -> elements p2 id = elements p id)
       /\ (forall id, id ∈ saved.*1 ->
             elements p2 id
             = MkElement (assign_style (read_style (style (elements p id))))
                 (otherStyle (elements p id)) None
             /\ (restorable (style (elements p id)) ->
                 style (elements p2 id) = style (elements p id))
             /\ (~ restorable (style (elements p id)) ->
                 style (elements p2 id) <> style (elements p id))))
  /\ (let lone :=
        MkElement
          (MkInline (Assigned []) (Declared (lit "padding-left: 5px") [])
             (Assigned []) (Assigned []) (Assigned []) (Assigned []))
          (lit "color: blue") None in
      let tree := ElementNode 1 [TextNode (lit "Google Search")] in
      let p := MkPage (fun _ => lone) Undefined in
      let p2 :=
        removeHighlighting true
          (applyHighlighting true (Some tree) (Some (lit "Google")) p) in
      read_style (style lone) = MkStyle [] [] [] [] [] []
      /\ elements p2 1%nat = MkElement undeclared (lit "color: blue") None
      /\ elements p2 1%nat <> elements p 1%nat).
Proof.
  split.
  - intros n c t p p1 p2.
    destruct (apply_then_remove n c t p)
      as (saved & Hlist & Hnull & _ & Hall & Hother & Hsaved).
    exists saved. fold p1 p2 in Hlist, Hnull, Hother, Hsaved |- *.
    split; [exact Hlist|]. split; [exact Hnull|]. split; [exact Hall|].
    split; [intros id Hid; now apply Hother|].
    intros id Hid. rewrite (Hsaved id Hid). cbn [style].
    split; [reflexivity|]. split; [intros H; exact H|].
    intros Hno H. apply Hno. exact H.
  - cbv zeta. split; [reflexivity|]. split; [vm_compute; reflexivity|].
    vm_compute. discriminate.
Qed.

End HighlightFacts.

(** ** The readiness poller *)

Module PollerFacts.
Import JsString JsNumber Config Poller Checklist NumberFacts.

Ltac unfold_block :=
  cbv beta delta
    [iteration try_block text_checks text_visible paint_and_finish sample
     waitForTimeout bind ret get update set_lastCheckTime begin_tick note
     advance met_bool] iota zeta.

Ltac split_on x :=
  first [is_var x; destruct x | destruct x eqn:?].

Ltac split_match H :=
  match type of H with
  | context [if negb ?b then _ else _] => split_on b
  | context [if ?b then _ else _] => split_on b
  | context [match ?x with _ => _ end] =>
      match type of x with
      | answer _ => split_on x
      | option _ => split_on x
      | bool => split_on x
      end
  end.

Ltac run_block H :=
  repeat (split_match H;
          cbn [now lastCheckTime componentState ticks fst snd negb andb] in H).

Ltac state_fields :=
  cbn [now lastCheckTime componentState ticks isVisible isEnabled
       isInteractable containsExpectedText expectedTextIsVisible
       paintWorkCompleted loadTime set_isVisible set_isEnabled
       set_isInteractable set_containsExpectedText set_expectedTextIsVisible
       set_paintWorkCompleted set_loadTime andb] in *.

(** An integer is below a Number other than [+Infinity] exactly when it is
    below its ceiling; elapsed times are not negative. *)
Lemma lt_int_ceiling (a : Z) (x : spec_float) :
  x <> S754_infinity false -> 0 <= a -> lt_int a x = (a <? ceiling x).
Proof.
  intros Hx Ha. destruct x as [s|[|]| |s m e]; cbn [lt_int ceiling negb].
  - reflexivity.
  - symmetry. apply Z.ltb_ge. lia.
  - congruence.
  - symmetry. apply Z.ltb_ge. lia.
  - destruct (0 <=? e) eqn:He; [reflexivity|].
    apply Z.leb_gt in He.
    set (v := if s then Z.neg m else Z.pos m). clearbody v.
    assert (Hk : 0 < 2 ^ (- e)) by (apply Z.pow_pos_nonneg; lia).
    set (k := 2 ^ (- e)) in *. clearbody k.
    pose proof (Z.div_mod (- v) k ltac:(lia)) as Hdiv.
    pose proof (Z.mod_pos_bound (- v) k Hk) as Hmod.
    destruct (a * k <? v) eqn:E1, (a <? - (- v / k)) eqn:E2; try reflexivity.
    + apply Z.ltb_lt in E1. apply Z.ltb_ge in E2. nia.
    + apply Z.ltb_ge in E1. apply Z.ltb_lt in E2. nia.
Qed.

(** On sample values (integers around the thresholds, fractional and
    negative Numbers, the infinities and NaN) [lt_int] is the [<] of
    binary64 applied to the integer as a Number. *)
Lemma lt_int_is_lt_on_samples :
  forallb
    (fun x =>
       forallb (fun a => Bool.eqb (lt (of_Z a) x) (lt_int a x))
         (seqZ (-3) 1210
          ++ [4999; 5000; 5001; 2 ^ 31; 1700000000000; 2 ^ 53 - 1]))
    [of_Z 0; of_Z 50; of_Z 1000; of_Z 1200; of_Z 5000; of_Z (-2);
     StringToNumber (lit "1000.5"); StringToNumber (lit "0.25");
     StringToNumber (lit "99.999"); StringToNumber (lit "-0.5");
     StringToNumber (lit "1e3"); StringToNumber (lit "1700000000000.5");
     S754_zero true; S754_infinity false; S754_infinity true; NaN]
  = true.
Proof. vm_compute. reflexivity. Qed.

Lemma lt_int_infinity (a : Z) : lt_int a (S754_infinity false) = true.
Proof. reflexivity. Qed.

(** A Number with a positive ceiling is finite. *)
Lemma ceiling_pos_finite (x : spec_float) :
  0 < ceiling x -> x <> S754_infinity false.
Proof. intros H ->. simpl in H. lia. Qed.


Section Steps.
Variable page : Page.
Variable pollInterval : spec_float.
Variable expectedText : option jsstr.
Variable startTime : Z.

(** One iteration keeps the invariant of the loop, or leaves the loop with
    every check met; the clock never goes back, and it goes forward when the
    loop goes on and the clock moves on during a wait. *)
Lemma iteration_step w again w' :
  loop_invariant page expectedText startTime w ->
  iteration page pollInterval expectedText startTime w = (again, w') ->
  now w <= now w'
  /\ if again
     then (ticking page -> now w < now w')
          /\ loop_invariant page expectedText startTime w'
     else break_invariant page expectedText startTime w'.
Proof.
  intros (Hstart & Hpaint & Hload & Hticks) H.
  destruct w as [t last cs tk]. cbn [now componentState ticks] in *.
  unfold loop_invariant, break_invariant, all_checks.
  revert H. unfold_block. cbn [now lastCheckTime componentState ticks].
  intros H.
  destruct (has_isEnabled page) eqn:Hen, (truthy expectedText) eqn:Htxt.
  all: run_block H; injection H as <- <-; state_fields.
  all: subst.
  all: split; [lia|].
  all: repeat match goal with
         | |- _ /\ _ => split
         | |- ticking page -> _ =>
             let Htick := fresh "Htick" in
             intros Htick;
             repeat match goal with
                    | |- context [timer page ?d ?t0] =>
                        lazymatch goal with
                        | _ : (0 < timer page d t0)%nat |- _ => fail
                        | _ => pose proof (Htick d t0)
                        end
                    end
         end.
  all: try lia; try congruence; try assumption; try reflexivity.
  all: try (eexists _, _; split; [reflexivity|]).
  all: try (apply Forall_cons_2; [|assumption]; exists t; split; [lia|]).
  all: unfold tick_at, checklist; rewrite ?Hen, ?Htxt; cbn [app rev List.map].
  all: unfold contains in *.
  all: repeat first
         [ progress cbn [sampled met met_bool app rev]
         | progress unfold contains
         | match goal with
           | E : ?x = _ |- context [?x] => rewrite E
           end ].
  all: try reflexivity.
Qed.

(** What an iteration records: nothing when it is throttled, and otherwise
    the tick that starts at its clock reading. *)
Lemma iteration_ticks w again w' :
  iteration page pollInterval expectedText startTime w = (again, w') ->
  ticks w'
  = if lt_int (now w - lastCheckTime w) (minCheckInterval pollInterval)
    then ticks w
    else rev (tick_at page expectedText (now w)) :: ticks w.
Proof.
  intros H. destruct w as [t last cs tk].
  cbn [now lastCheckTime componentState ticks] in *.
  revert H. unfold_block. cbn [now lastCheckTime componentState ticks].
  intros H.
  destruct (has_isEnabled page) eqn:Hen, (truthy expectedText) eqn:Htxt.
  all: run_block H; injection H as <- <-; state_fields.
  all: try reflexivity; try discriminate.
  all: f_equal.
  all: unfold tick_at, checklist; rewrite ?Hen, ?Htxt; cbn [app rev List.map].
  all: unfold contains in *.
  all: repeat first
         [ progress cbn [sampled met met_bool app rev]
         | progress unfold contains
         | match goal with
           | E : ?x = _ |- context [?x] => rewrite E
           end ].
  all: reflexivity.
Qed.

Variable timeout : spec_float.

Lemma loop_exit fuel w w' :
  loop_invariant page expectedText startTime w ->
  loop page pollInterval expectedText timeout startTime fuel w = Some w' ->
  (loop_invariant page expectedText startTime w'
   /\ lt_int (now w' - startTime) timeout = false)
  \/ break_invariant page expectedText startTime w'.
Proof.
  revert w; induction fuel as [|fuel IH]; intros w Hinv; simpl.
  - destruct (lt_int (now w - startTime) timeout) eqn:E; [discriminate|].
    intros [= <-]. left. split; [exact Hinv | exact E].
  - destruct (lt_int (now w - startTime) timeout) eqn:E.
    + destruct (iteration page pollInterval expectedText startTime w)
        as [again w1] eqn:Hit.
      pose proof (iteration_step _ _ _ Hinv Hit) as [_ Hstep].
      destruct again.
      * apply IH. apply Hstep.
      * intros [= <-]. now right.
    + intros [= <-]. left. split; [exact Hinv | exact E].
Qed.

(** The loop returns when the timeout is not [+Infinity] and the clock moves
    on during every wait: an iteration then takes a millisecond or more. *)
Lemma loop_total fuel w :
  ticking page ->
  timeout <> S754_infinity false ->
  loop_invariant page expectedText startTime w ->
  ceiling timeout - (now w - startTime) <= Z.of_nat fuel ->
  exists w', loop page pollInterval expectedText timeout startTime fuel w = Some w'.
Proof.
  intros Htick Hfinite.
  revert w; induction fuel as [|fuel IH]; intros w Hinv Hfuel; simpl.
  - rewrite lt_int_ceiling by (try exact Hfinite; destruct Hinv; lia).
    destruct (now w - startTime <? ceiling timeout) eqn:E; [|eauto].
    apply Z.ltb_lt in E. lia.
  - rewrite lt_int_ceiling by (try exact Hfinite; destruct Hinv; lia).
    destruct (now w - startTime <? ceiling timeout) eqn:E; [|eauto].
    destruct (iteration page pollInterval expectedText startTime w)
      as [again w1] eqn:Hit.
    pose proof (iteration_step _ _ _ Hinv Hit) as [_ Hstep].
    destruct again; [|eauto].
    destruct Hstep as [Hlt Hinv1]. specialize (Hlt Htick).
    apply IH; [exact Hinv1 | lia].
Qed.

(** More iterations than needed change nothing. *)
Lemma loop_fuel_mono fuel fuel' w w' :
  loop page pollInterval expectedText timeout startTime fuel w = Some w' ->
  (fuel <= fuel')%nat ->
  loop page pollInterval expectedText timeout startTime fuel' w = Some w'.
Proof.
  revert fuel' w; induction fuel as [|fuel IH]; intros fuel' w; simpl.
  - destruct (lt_int (now w - startTime) timeout) eqn:E; [discriminate|].
    intros H _. destruct fuel'; simpl; now rewrite E.
  - destruct (lt_int (now w - startTime) timeout) eqn:E.
    + intros H Hle. destruct fuel' as [|fuel']; [lia|]. simpl. rewrite E.
      destruct (iteration page pollInterval expectedText startTime w)
        as [[|] w1]; [|exact H].
      apply (IH fuel' w1 H). lia.
    + intros H _. destruct fuel'; simpl; now rewrite E.
Qed.

(** The loop only adds ticks, in front of those recorded before. *)
Lemma loop_ticks_grow fuel w w' :
  loop page pollInterval expectedText timeout startTime fuel w = Some w' ->
  exists newer, ticks w' = newer ++ ticks w.
Proof.
  revert w; induction fuel as [|fuel IH]; intros w; simpl.
  - destruct (lt_int (now w - startTime) timeout); [discriminate|].
    intros [= <-]. now exists [].
  - destruct (lt_int (now w - startTime) timeout); [|intros [= <-]; now exists []].
    destruct (iteration page pollInterval expectedText startTime w)
      as [again w1] eqn:Hit.
    pose proof (iteration_ticks _ _ _ Hit) as Hticks.
    assert (Hgrow : exists tick, ticks w1 = tick ++ ticks w).
    { rewrite Hticks.
      destruct (lt_int _ (minCheckInterval pollInterval));
        [now exists [] | now eexists [_]]. }
    destruct Hgrow as [tick Htick].
    destruct again.
    + intros H. apply IH in H as [newer Hnewer].
      exists (newer ++ tick). now rewrite Hnewer, Htick, app_assoc.
    + intros [= <-]. now exists tick.
Qed.

(** A run that enters its loop unthrottled starts with the tick at its
    start time. *)
Lemma loop_first_tick fuel w' :
  lt_int 0 timeout = true ->
  lt_int startTime (minCheckInterval pollInterval) = false ->
  loop page pollInterval expectedText timeout startTime fuel
    (initialWorld startTime) = Some w' ->
  exists newer,
    ticks w' = newer ++ [rev (tick_at page expectedText startTime)].
Proof.
  intros Hin Hfree. destruct fuel as [|fuel]; simpl.
  - rewrite Z.sub_diag, Hin. discriminate.
  - rewrite Z.sub_diag, Hin.
    destruct (iteration page pollInterval expectedText startTime
                (initialWorld startTime)) as [again w1] eqn:Hit.
    pose proof (iteration_ticks _ _ _ Hit) as Hticks.
    cbn [initialWorld now lastCheckTime ticks] in Hticks.
    rewrite Z.sub_0_r, Hfree in Hticks.
    destruct again.
    + intros H. apply loop_ticks_grow in H as [newer Hnewer].
      exists newer. now rewrite Hnewer, Hticks.
    + intros [= <-]. exists []. now rewrite Hticks.
Qed.

End Steps.

Lemma initial_invariant page expectedText startTime :
  loop_invariant page expectedText startTime (initialWorld startTime).
Proof. repeat split; simpl; auto; lia. Qed.

Lemma finish_fields startTime w :
  now (finish startTime w) = now w
  /\ ticks (finish startTime w) = ticks w
  /\ paintWorkCompleted (componentState (finish startTime w))
     = paintWorkCompleted (componentState w)
  /\ isVisible (componentState (finish startTime w)) = isVisible (componentState w)
  /\ isEnabled (componentState (finish startTime w)) = isEnabled (componentState w)
  /\ isInteractable (componentState (finish startTime w))
     = isInteractable (componentState w)
  /\ containsExpectedText (componentState (finish startTime w))
     = containsExpectedText (componentState w)
  /\ expectedTextIsVisible (componentState (finish startTime w))
     = expectedTextIsVisible (componentState w)
  /\ loadTime (componentState (finish startTime w))
     = if loadTime (componentState w) =? 0 then now w - startTime
       else loadTime (componentState w).
Proof.
  unfold finish. destruct (loadTime (componentState w) =? 0); repeat split.
Qed.

(** A tick went down the checklist in order, without skipping, and only the
    last operation it evaluated may be unmet. *)
Lemma sampled_short_circuit page expectedText checks t :
  short_circuit checks (sampled page expectedText checks t).
Proof.
  revert t; induction checks as [|o checks IH]; intros t; cbn [sampled];
    [exact I|].
  cbn [short_circuit]. split; [reflexivity|].
  destruct (met page expectedText o t).
  - split; [reflexivity | apply IH].
  - split; [congruence | now destruct checks].
Qed.

(** C4. On every sampling tick the checklist is evaluated top to bottom in
    its fixed order (exists, visible, enabled, contains the expected text,
    expected text visible, paint completed), each operation started when
    the one before has answered, and the tick stops at the first unmet
    condition and not before: a later check is evaluated exactly when all
    the earlier ones are met ("interactable" is derived from visible and
    enabled without looking at the page). A run that enters its loop and is
    not throttled at its start begins with the tick at its start time.
    Every returned state has a non-negative load time, and when its paint
    is completed every other check is true and was met by the same, last
    tick. The function returns when the timeout is not [+Infinity] and the
    clock moves on during every wait. *)
Theorem checklist_short_circuit (page : Page) (pollInterval : spec_float)
  (expectedText : option jsstr) (timeout : spec_float) (startTime : Z) :
  (forall fuel w,
     run fuel page pollInterval expectedText timeout startTime = Some w ->
     Forall (fun tick =>
               short_circuit (checklist page expectedText) (rev tick)
               /\ exists t,
                    startTime <= t /\ rev tick = tick_at page expectedText t)
       (ticks w)
     /\ state_invariant page expectedText w
     /\ (lt_int 0 timeout = true ->
         lt_int startTime (minCheckInterval pollInterval) = false ->
         exists newer,
           ticks w = newer ++ [rev (tick_at page expectedText startTime)]))
  /\ (ticking page ->
      timeout <> S754_infinity false ->
      forall fuel,
        (Z.to_nat (ceiling timeout) <= fuel)%nat ->
        exists w, run fuel page pollInterval expectedText timeout startTime = Some w).
Proof.
  unfold run. split.
  - intros fuel w H.
    destruct (loop page pollInterval expectedText timeout startTime fuel
                (initialWorld startTime)) as [w0|] eqn:Hloop;
      [|discriminate].
    injection H as <-.
    pose proof (finish_fields startTime w0)
      as (Hnow & Hticks & Hp & Hv & He & Hi & Hc & Ht & Hl).
    unfold state_invariant, all_checks.
    rewrite Hticks, Hp, Hv, He, Hi, Hc, Ht, Hl.
    assert (Hlift : Forall (is_tick page expectedText startTime) (ticks w0) ->
              Forall (fun tick =>
                        short_circuit (checklist page expectedText) (rev tick)
                        /\ exists t,
                             startTime <= t
                             /\ rev tick = tick_at page expectedText t)
                (ticks w0)).
    { intros H0. eapply Forall_impl; [exact H0|]. intros tick (t & Ht0 & Htick).
      split; [|now exists t]. rewrite Htick. apply sampled_short_circuit. }
    assert (Hfirst : lt_int 0 timeout = true ->
              lt_int startTime (minCheckInterval pollInterval) = false ->
              exists newer,
                ticks w0 = newer ++ [rev (tick_at page expectedText startTime)]).
    { intros Hin Hfree. exact (loop_first_tick _ _ _ _ _ _ _ Hin Hfree Hloop). }
    destruct (loop_exit _ _ _ _ _ _ _ _ (initial_invariant _ _ _) Hloop)
      as [[(Hstart & Hpaint & Hload & Hsc) _]
         |(Hstart & Hpaint & Hload & Hall & Htick & Hsc)].
    + split; [exact (Hlift Hsc)|]. split; [|exact Hfirst].
      rewrite Hload, Hpaint. simpl. split; [lia | discriminate].
    + split; [exact (Hlift Hsc)|]. split; [|exact Hfirst]. rewrite Hload.
      split; [destruct (now w0 - startTime =? 0); lia|].
      intros _. split; [exact Hall | exact Htick].
  - intros Htick Hfinite fuel Hfuel.
    destruct (loop_total page pollInterval expectedText startTime timeout
                fuel (initialWorld startTime) Htick Hfinite
                (initial_invariant _ _ _)) as [w Hw].
    { simpl. lia. }
    rewrite Hw. simpl. eauto.
Qed.

Lemma checklist_short_circuit_witness :
  let startTime := 1700000000000 in
  let page :=
    MkPage (fun t => Ok (startTime + 250 <=? t)) (fun _ => Ok true) true
      (fun _ => Ok true) (fun _ => Ok (Some (lit "Google Search")))
      (fun _ => Ok true) (fun _ => true) (fun _ _ => 0%nat)
      (fun d _ => Z.to_nat (Z.max 1 (ceiling d))) in
  exists w newer,
    run 5000 page (of_Z 100) (Some (lit "Google")) (of_Z 5000) startTime = Some w
    /\ state_invariant page (Some (lit "Google")) w
    /\ ticks w = newer ++ [[(OpQuery, false)]].
Proof.
  intros startTime page.
  pose proof (checklist_short_circuit page (of_Z 100) (Some (lit "Google"))
                (of_Z 5000) startTime) as [Hticks Hreturns].
  assert (Hticking : ticking page) by (intros d t; cbn; lia).
  destruct (Hreturns Hticking ltac:(discriminate) 5000%nat
              ltac:(vm_compute; lia)) as [w Hw].
  destruct (Hticks _ _ Hw) as (_ & Hstate & Hfirst).
  destruct (Hfirst eq_refl eq_refl) as [newer Hnewer].
  exists w, newer. split; [exact Hw|]. split; [exact Hstate | exact Hnewer].
Defined.

(** [a < x] goes down with [a]. *)
Lemma lt_int_mono (a b : Z) (x : spec_float) :
  a <= b -> lt_int b x = true -> lt_int a x = true.
Proof.
  intros Hab. destruct x as [s|s| |s m e]; cbn [lt_int]; try easy.
  - intros H. apply Z.ltb_lt in H. apply Z.ltb_lt. lia.
  - assert (Hk : 0 < 2 ^ (- e) \/ 0 <= e).
    { destruct (Z.le_gt_cases 0 e); [now right|left].
      apply Z.pow_pos_nonneg; lia. }
    destruct (0 <=? e); intros H; apply Z.ltb_lt in H; apply Z.ltb_lt;
      [lia|]. destruct Hk as [Hk|Hk]; nia.
Qed.

Section Instant.
Variable page : Page.
Variable pollInterval : spec_float.
Variable expectedText : option jsstr.
Variable startTime : Z.
Hypothesis Hinstant : instant page pollInterval.
Hypothesis Hmin : minCheckInterval pollInterval = pollInterval.
Hypothesis HP : 0 < ceiling pollInterval.

(** On a page that answers at once, an iteration that is not throttled
    samples every check at the same clock reading: when the page is ready
    the loop is left at once with the elapsed time as load time, and when it
    is not the next iteration starts one poll interval later. *)
Lemma iteration_instant w again w' :
  ceiling pollInterval <= now w - lastCheckTime w ->
  iteration page pollInterval expectedText startTime w = (again, w') ->
  if ready page expectedText (now w)
  then again = false /\ now w' = now w
       /\ paintWorkCompleted (componentState w') = true
       /\ loadTime (componentState w') = now w - startTime
  else again = true /\ now w' = now w + ceiling pollInterval
       /\ lastCheckTime w' = now w.
Proof.
  destruct Hinstant as [Hlat Hover]. intros Hlast H.
  destruct w as [t last cs tk]. cbn [now lastCheckTime] in *.
  revert H. unfold_block. cbn [now lastCheckTime componentState ticks].
  rewrite Hmin.
  rewrite (lt_int_ceiling (t - last) pollInterval (ceiling_pos_finite _ HP))
    by lia.
  replace (t - last <? ceiling pollInterval) with false
    by (symmetry; apply Z.ltb_ge; lia).
  unfold ready, met_bool.
  intros H.
  destruct (has_isEnabled page) eqn:Hen, (truthy expectedText) eqn:Htxt.
  all: run_block H; injection H as <- <-; state_fields.
  all: rewrite ?Hlat, ?Hover in *; cbn [Z.of_nat] in *;
       rewrite ?Z.add_0_r in *.
  all: unfold contains in *.
  all: repeat match goal with
         | E : ?x = _ |- context [?x] => rewrite E
         end.
  all: cbn [andb]; repeat split; try reflexivity; try congruence; try lia.
Qed.

Variable timeout : spec_float.

(** On such a page the ticks are one poll interval apart, so a run that is
    never ready overshoots the timeout by less than that. *)
Lemma loop_instant_overshoot fuel w w' :
  timeout <> S754_infinity false ->
  (forall t, ready page expectedText t = false) ->
  ceiling pollInterval <= now w - lastCheckTime w ->
  0 <= now w - startTime < ceiling timeout + ceiling pollInterval ->
  loop page pollInterval expectedText timeout startTime fuel w = Some w' ->
  now w' - startTime < ceiling timeout + ceiling pollInterval.
Proof.
  intros Hfinite Hnot. revert w; induction fuel as [|fuel IH];
    intros w Hlast Hnow; simpl.
  - destruct (lt_int (now w - startTime) timeout); [discriminate|].
    intros [= <-]. lia.
  - rewrite (lt_int_ceiling _ _ Hfinite) by lia.
    destruct (now w - startTime <? ceiling timeout) eqn:E;
      [|intros [= <-]; lia].
    apply Z.ltb_lt in E.
    destruct (iteration page pollInterval expectedText startTime w)
      as [again w1] eqn:Hit.
    pose proof (iteration_instant _ _ _ Hlast Hit) as Hstep.
    rewrite Hnot in Hstep. destruct Hstep as (-> & Hnow1 & Hlast1).
    apply IH; lia.
Qed.

(** On such a page, a component that is ready at the tick number [m] from
    here and at none before is detected at that tick. *)
Lemma loop_instant_ready (m fuel : nat) w :
  ceiling pollInterval <= now w - lastCheckTime w ->
  (forall i : nat, (i < m)%nat ->
     ready page expectedText (now w + Z.of_nat i * ceiling pollInterval) = false) ->
  ready page expectedText (now w + Z.of_nat m * ceiling pollInterval) = true ->
  lt_int (now w + Z.of_nat m * ceiling pollInterval - startTime) timeout = true ->
  (m < fuel)%nat ->
  exists w',
    loop page pollInterval expectedText timeout startTime fuel w = Some w'
    /\ paintWorkCompleted (componentState w') = true
    /\ now w' = now w + Z.of_nat m * ceiling pollInterval
    /\ loadTime (componentState w') = now w' - startTime.
Proof.
  revert fuel w; induction m as [|m IH];
    intros fuel w Hlast Hbefore Hready Hin Hfuel.
  - destruct fuel as [|fuel]; [lia|]. simpl in *.
    rewrite Z.add_0_r in *. rewrite Hin.
    destruct (iteration page pollInterval expectedText startTime w)
      as [again w1] eqn:Hit.
    pose proof (iteration_instant _ _ _ Hlast Hit) as Hstep.
    rewrite Hready in Hstep. destruct Hstep as (-> & Hnow1 & Hpaint & Hload).
    exists w1. repeat split; auto. lia.
  - destruct fuel as [|fuel]; [lia|]. cbn [loop].
    assert (Hle : now w - startTime
                  <= now w + Z.of_nat (S m) * ceiling pollInterval - startTime)
      by nia.
    rewrite (lt_int_mono _ _ timeout Hle Hin).
    destruct (iteration page pollInterval expectedText startTime w)
      as [again w1] eqn:Hit.
    pose proof (iteration_instant _ _ _ Hlast Hit) as Hstep.
    pose proof (Hbefore 0%nat ltac:(lia)) as H0.
    cbn [Z.of_nat] in H0. rewrite Z.mul_0_l, Z.add_0_r in H0.
    rewrite H0 in Hstep. destruct Hstep as (-> & Hnow1 & Hlast1).
    destruct (IH fuel w1) as (w' & Hloop & Hpaint & Hnow' & Hload).
    + lia.
    + intros i Hi. specialize (Hbefore (S i) ltac:(lia)).
      rewrite <- Hbefore. f_equal. lia.
    + rewrite <- Hready. f_equal. lia.
    + rewrite <- Hin. f_equal. lia.
    + lia.
    + exists w'. repeat split; auto. lia.
Qed.

End Instant.

(** While [isVisible()] never answers true, no iteration leaves the loop. *)
Lemma iteration_never_visible page pollInterval expectedText startTime w again w' :
  never_visible page ->
  iteration page pollInterval expectedText startTime w = (again, w') ->
  again = true.
Proof.
  intros Hnever H.
  destruct w as [t last cs tk].
  revert H. unfold_block. cbn [now lastCheckTime componentState ticks].
  intros H.
  destruct (has_isEnabled page) eqn:Hen, (truthy expectedText) eqn:Htxt.
  all: run_block H; injection H as <- <-; try reflexivity.
  all: exfalso; eapply Hnever; eassumption.
Qed.

Lemma loop_never_visible page pollInterval expectedText timeout startTime fuel w w' :
  never_visible page ->
  loop_invariant page expectedText startTime w ->
  loop page pollInterval expectedText timeout startTime fuel w = Some w' ->
  loop_invariant page expectedText startTime w'
  /\ lt_int (now w' - startTime) timeout = false.
Proof.
  intros Hnever. revert w; induction fuel as [|fuel IH]; intros w Hinv; simpl.
  - destruct (lt_int (now w - startTime) timeout) eqn:E; [discriminate|].
    intros [= <-]. split; [exact Hinv | exact E].
  - destruct (lt_int (now w - startTime) timeout) eqn:E.
    + destruct (iteration page pollInterval expectedText startTime w)
        as [again w1] eqn:Hit.
      pose proof (iteration_step _ _ _ _ _ _ _ Hinv Hit) as [_ Hstep].
      rewrite (iteration_never_visible _ _ _ _ _ _ _ Hnever Hit) in *.
      apply IH. apply Hstep.
    + intros [= <-]. split; [exact Hinv | exact E].
Qed.

(** With the timeout [+Infinity] the loop is left by [break] only: while
    [isVisible()] never answers true it does not end, whatever the bound on
    its iterations. *)
Lemma loop_never_ends page pollInterval expectedText startTime fuel w :
  never_visible page ->
  loop page pollInterval expectedText (S754_infinity false) startTime fuel w
  = None.
Proof.
  intros Hnever. revert w; induction fuel as [|fuel IH]; intros w; simpl;
    [reflexivity|].
  destruct (iteration page pollInterval expectedText startTime w)
    as [again w1] eqn:Hit.
  rewrite (iteration_never_visible _ _ _ _ _ _ _ Hnever Hit). apply IH.
Qed.

Lemma never_visible_not_ready page expectedText t :
  never_visible page -> ready page expectedText t = false.
Proof.
  intros Hnever. unfold ready.
  pose proof (Hnever t) as Ht.
  destruct (element_isVisible page t) as [[|]|]; [congruence | |];
    cbn; now rewrite !andb_false_r.
Qed.

(** The result of the poller does not depend on the bound, once the bound
    is large enough for the loop to end. *)
Lemma ready_fuel_mono fuel fuel' page pollInterval expectedText timeout startTime s :
  waitForReactComponentReady fuel page pollInterval expectedText timeout
    startTime = Some s ->
  (fuel <= fuel')%nat ->
  waitForReactComponentReady fuel' page pollInterval expectedText timeout
    startTime = Some s.
Proof.
  unfold waitForReactComponentReady, run. intros H Hle.
  destruct (loop page pollInterval expectedText timeout startTime fuel
              (initialWorld startTime)) as [w|] eqn:Hloop; [|discriminate].
  now rewrite (loop_fuel_mono _ _ _ _ _ _ _ _ _ Hloop Hle).
Qed.

Lemma ready_fuel_agree fuel fuel' page pollInterval expectedText timeout startTime
  s s' :
  waitForReactComponentReady fuel page pollInterval expectedText timeout
    startTime = Some s ->
  waitForReactComponentReady fuel' page pollInterval expectedText timeout
    startTime = Some s' ->
  s = s'.
Proof.
  intros H H'. destruct (Nat.le_ge_cases fuel fuel') as [Hle|Hle].
  - rewrite (ready_fuel_mono _ _ _ _ _ _ _ _ H Hle) in H'. congruence.
  - rewrite (ready_fuel_mono _ _ _ _ _ _ _ _ H' Hle) in H. congruence.
Qed.

(** The poll interval of the configuration is at least 50, so that the
    throttle of the poller is the poll interval. *)
Lemma CONFIG_minCheckInterval (e : env) :
  minCheckInterval (Config.pollInterval (CONFIG e)) = Config.pollInterval (CONFIG e).
Proof.
  unfold CONFIG, minCheckInterval. cbn [Config.pollInterval]. unfold floored.
  set (y := or_num _ _). clearbody y.
  change (of_Z 50) with (S754_finite false 7036874417766400 (-47)).
  set (a := S754_finite false 7036874417766400 (-47)).
  assert (Hinner : Math_max a y
                   = match SFcompare a y with
                     | Some Lt => y
                     | Some _ => a
                     | None => NaN
                     end).
  { unfold Math_max. now destruct (SFcompare a y) as [[]|]. }
  rewrite Hinner. destruct (SFcompare a y) as [[]|] eqn:E; try reflexivity.
  unfold Math_max. now rewrite E.
Qed.

(** C3, as the code has it. The poller samples at ticks; on a page that
    answers at once, with exact waits and a poll interval of P ms that is at
    least 50 (as the poll interval of the configuration is), the ticks fall
    at the multiples of P. If the component satisfies every applicable check
    from the elapsed time T on (and not before) and a tick at or after T
    falls before the timeout, the poller returns a state that has its paint
    completed and a load time in [T, T + P). If [isVisible()] never answers
    true and the timeout is not [+Infinity], the poller returns (it does not
    raise), on every page whose clock moves on during a wait, a state whose
    paint is not completed and whose load time is not below the timeout (it
    is at least D, the timeout rounded up to a whole number of ms), and on a
    page as above less than D + P. With the timeout [+Infinity], which the
    configuration accepts, the poller does not return in that case. *)
Theorem poller_load_time (page : Page) (pollInterval : spec_float)
  (expectedText : option jsstr) (timeout : spec_float) (startTime : Z) :
  let P := ceiling pollInterval in
  let D := ceiling timeout in
  (forall T,
     instant page pollInterval ->
     minCheckInterval pollInterval = pollInterval ->
     0 < P ->
     P <= startTime ->
     0 <= T ->
     (forall t, startTime <= t < startTime + T ->
        ready page expectedText t = false) ->
     (forall t, startTime + T <= t -> ready page expectedText t = true) ->
     (exists k, 0 <= k /\ T <= k * P /\ lt_int (k * P) timeout = true) ->
     exists fuel s,
       (forall fuel',
          (fuel <= fuel')%nat ->
          waitForReactComponentReady fuel' page pollInterval expectedText
            timeout startTime = Some s)
       /\ paintWorkCompleted s = true
       /\ T <= loadTime s < T + P)
  /\ (never_visible page ->
      ticking page ->
      timeout <> S754_infinity false ->
      forall fuel,
        (Z.to_nat D <= fuel)%nat ->
        exists s,
          waitForReactComponentReady fuel page pollInterval expectedText
            timeout startTime = Some s
          /\ paintWorkCompleted s = false
          /\ lt_int (loadTime s) timeout = false
          /\ D <= loadTime s
          /\ (instant page pollInterval ->
              minCheckInterval pollInterval = pollInterval ->
              0 < P -> P <= startTime -> 0 <= D ->
              loadTime s < D + P))
  /\ (never_visible page ->
      timeout = S754_infinity false ->
      forall fuel,
        waitForReactComponentReady fuel page pollInterval expectedText timeout
          startTime = None).
Proof.
  intros P D. subst P D. unfold waitForReactComponentReady, run.
  split; [|split].
  - intros T Hinst Hmin HP Hstart HT Hbefore Hafter (k & Hk & HkT & HkD).
    set (P := ceiling pollInterval) in *.
    set (m := Z.to_nat ((T + P - 1) / P)).
    assert (Hm : T <= Z.of_nat m * P < T + P).
    { unfold m. rewrite Z2Nat.id by (apply Z.div_pos; lia).
      pose proof (Z.div_mod (T + P - 1) P ltac:(lia)).
      pose proof (Z.mod_pos_bound (T + P - 1) P ltac:(lia)).
      nia. }
    clearbody m.
    assert (Hmk : Z.of_nat m < k + 1)
      by (apply (Z.mul_lt_mono_pos_r P); lia).
    assert (HmD : lt_int (Z.of_nat m * P) timeout = true)
      by (apply (lt_int_mono _ (k * P)); [nia | exact HkD]).
    destruct (loop_instant_ready page pollInterval expectedText startTime
                Hinst Hmin HP timeout m (S m) (initialWorld startTime))
      as (w' & Hloop & Hpaint & Hnow & Hload).
    + simpl. fold P. lia.
    + intros i Hi. simpl. apply Hbefore. fold P. nia.
    + simpl. apply Hafter. fold P. lia.
    + simpl. fold P. rewrite <- HmD. f_equal. lia.
    + lia.
    + exists (S m). eexists. split; [|split].
      * intros fuel' Hfuel'.
        rewrite (loop_fuel_mono _ _ _ _ _ _ _ _ _ Hloop Hfuel').
        reflexivity.
      * pose proof (finish_fields startTime w')
          as (_ & _ & Hp & _ & _ & _ & _ & _ & Hl).
        cbn [fmap option_fmap option_map]. now rewrite Hp.
      * pose proof (finish_fields startTime w')
          as (_ & _ & Hp & _ & _ & _ & _ & _ & Hl).
        rewrite Hl, Hload, Hnow. simpl. fold P.
        set (x := Z.of_nat m * P) in *. clearbody x.
        destruct (startTime + x - startTime =? 0); lia.
  - intros Hnever Htick Hfinite fuel Hfuel.
    destruct (loop_total page pollInterval expectedText startTime timeout
                fuel (initialWorld startTime) Htick Hfinite
                (initial_invariant _ _ _)) as [w Hw].
    { simpl. lia. }
    rewrite Hw. cbn [fmap option_fmap option_map].
    eexists. split; [reflexivity|].
    destruct (loop_never_visible _ _ _ _ _ _ _ _ Hnever
                (initial_invariant _ _ _) Hw)
      as ((Hstart & Hpaint & Hload & _) & Hexit).
    pose proof (finish_fields startTime w)
      as (_ & _ & Hp & _ & _ & _ & _ & _ & Hl).
    rewrite Hp, Hl, Hpaint, Hload. simpl.
    split; [reflexivity|]. split; [exact Hexit|].
    pose proof Hexit as Hexit'.
    rewrite (lt_int_ceiling _ _ Hfinite) in Hexit' by lia.
    apply Z.ltb_ge in Hexit'. split; [exact Hexit'|].
    intros Hinst Hmin HP Hstart0 HD.
    apply (loop_instant_overshoot page pollInterval expectedText startTime
             Hinst Hmin HP timeout fuel (initialWorld startTime) w Hfinite
             (fun t => never_visible_not_ready _ _ t Hnever)
             ltac:(simpl; lia) ltac:(simpl; lia) Hw).
  - intros Hnever -> fuel. now rewrite loop_never_ends.
Qed.

Lemma poller_load_time_witness :
  let startTime := 1700000000000 in
  let page :=
    MkPage (fun t => Ok (startTime + 250 <=? t)) (fun _ => Ok true) true
      (fun _ => Ok true) (fun _ => Ok (Some (lit "Google Search")))
      (fun _ => Ok true) (fun _ => true) (fun _ _ => 0%nat)
      (fun d _ => Z.to_nat (ceiling d)) in
  let cfg := CONFIG ∅ in
  exists fuel s,
    waitForReactComponentReady fuel page (Config.pollInterval cfg)
      (Some (lit "Google")) (component (cfg_timeouts cfg)) startTime = Some s
    /\ paintWorkCompleted s = true
    /\ 250 <= loadTime s < 250 + 100.
Proof.
  intros startTime page cfg.
  pose proof (poller_load_time page (Config.pollInterval cfg) (Some (lit "Google"))
                (component (cfg_timeouts cfg)) startTime) as H.
  cbv zeta in H. destruct H as (H & _).
  destruct (H 250) as (fuel & s & Hs & Hpaint & Hload).
  - split; reflexivity.
  - apply CONFIG_minCheckInterval.
  - vm_compute. reflexivity.
  - vm_compute. discriminate.
  - lia.
  - intros t Ht. unfold ready. simpl.
    replace (startTime + 250 <=? t) with false
      by (symmetry; apply Z.leb_gt; lia).
    reflexivity.
  - intros t Ht. unfold ready. simpl.
    replace (startTime + 250 <=? t) with true
      by (symmetry; apply Z.leb_le; lia).
    reflexivity.
  - exists 3. split; [lia|]. split; [vm_compute; discriminate|].
    vm_compute. reflexivity.
  - exists fuel, s. split; [apply Hs; lia|]. split; [exact Hpaint|].
    exact Hload.
Defined.

(** Counterexample to C3 as it is stated: a component that becomes ready
    at the elapsed time 950 ms, before the timeout of 1000 ms but after the
    last tick (900 ms, with a poll interval of 300 ms), is reported as a
    timeout, at 1200 ms. On a page that is ready from the start but takes
    150 ms to confirm the paint, the load time is 150 ms, outside [0, 100)
    for a poll interval of 100 ms. And with [COMPONENT_TIMEOUT=Infinity]
    the timeout of the configuration is [+Infinity]. *)
Lemma poller_misses_readiness_after_last_tick :
  let startTime := 1700000000000 in
  let exact (d : spec_float) (_ : Z) := Z.to_nat (ceiling d) in
  let page :=
    MkPage (fun t => Ok (startTime + 950 <=? t)) (fun _ => Ok true) true
      (fun _ => Ok true) (fun _ => Ok None) (fun _ => Ok true) (fun _ => true)
      (fun _ _ => 0%nat) exact in
  let slow :=
    MkPage (fun _ => Ok true) (fun _ => Ok true) true
      (fun _ => Ok true) (fun _ => Ok None) (fun _ => Ok true) (fun _ => true)
      (fun o _ => match o with OpPaint => 150%nat | _ => 0%nat end) exact in
  instant page (of_Z 300)
  /\ (forall t, ready page None t = (startTime + 950 <=? t))
  /\ lt_int 950 (of_Z 1000) = true
  /\ waitForReactComponentReady 10 page (of_Z 300) None (of_Z 1000) startTime
     = Some (MkState false false false false false false 1200)
  /\ (forall t, ready slow None t = true)
  /\ waitForReactComponentReady 10 slow (of_Z 100) None (of_Z 5000) startTime
     = Some (MkState true true true true true true 150)
  /\ component (cfg_timeouts (CONFIG (<["COMPONENT_TIMEOUT" := lit "Infinity"]> ∅)))
     = S754_infinity false
  /\ ~ (forall (page : Page) (pollInterval timeout : spec_float)
          (startTime T : Z) (expectedText : option jsstr),
          0 <= T ->
          lt_int T timeout = true ->
          (forall t, startTime + T <= t -> ready page expectedText t = true) ->
          exists fuel s,
            waitForReactComponentReady fuel page pollInterval expectedText
              timeout startTime = Some s
            /\ paintWorkCompleted s = true
            /\ T <= loadTime s < T + ceiling pollInterval).
Proof.
  intros startTime exact page slow.
  assert (Hready : forall t, ready page None t = (startTime + 950 <=? t)).
  { intros t. unfold ready. simpl.
    destruct (startTime + 950 <=? t); reflexivity. }
  assert (Hrun : waitForReactComponentReady 10 page (of_Z 300) None (of_Z 1000)
                   startTime
                 = Some (MkState false false false false false false 1200))
    by (vm_compute; reflexivity).
  split; [split; reflexivity|].
  split; [exact Hready|]. split; [reflexivity|]. split; [exact Hrun|].
  split; [reflexivity|]. split; [vm_compute; reflexivity|].
  split; [vm_compute; reflexivity|].
  intros Hclaim.
  destruct (Hclaim page (of_Z 300) (of_Z 1000) startTime 950 None ltac:(lia)
              eq_refl)
    as (fuel & s & Hs & Hpaint & _).
  - intros t Ht. rewrite Hready. now apply Z.leb_le.
  - rewrite (ready_fuel_agree _ _ _ _ _ _ _ _ _ Hs Hrun) in Hpaint.
    discriminate.
Qed.

(** The validator passes exactly when every applicable check of the state
    is true; otherwise it throws. *)
Lemma performReactComponentChecks_passes s expectedText selector :
  performReactComponentChecks s expectedText selector = inr tt <->
  isVisible s = true /\ isEnabled s = true /\ isInteractable s = true
  /\ paintWorkCompleted s = true
  /\ (truthy expectedText = true ->
      containsExpectedText s = true /\ expectedTextIsVisible s = true).
Proof.
  unfold performReactComponentChecks, failedChecks.
  destruct s as [v e i c t p l]; cbn [isVisible isEnabled isInteractable
    containsExpectedText expectedTextIsVisible paintWorkCompleted].
  destruct v, e, i, p, (truthy expectedText), c, t; cbn;
    split; try discriminate; try reflexivity; intuition discriminate.
Qed.

End PollerFacts.

(** ** Screenshot names *)

Module ScreenshotFacts.
Import JsString Regex Config Screenshot Grammar RegexFacts.

Lemma lit_inj (a b : string) : lit a = lit b -> a = b.
Proof.
  unfold lit. intros H.
  rewrite <- (string_of_list_ascii_of_string a),
          <- (string_of_list_ascii_of_string b).
  f_equal. revert H.
  generalize (list_ascii_of_string a) (list_ascii_of_string b).
  induction l as [|x l IH]; intros [|y l']; simpl; try discriminate; auto.
  intros [= Hxy Hl]. f_equal; [|now apply IH].
  rewrite <- (ascii_N_embedding x), <- (ascii_N_embedding y). now rewrite Hxy.
Qed.

(** Distinct identifiers print differently. *)
Lemma decimal_inj (a b : N) : decimal a = decimal b -> a = b.
Proof.
  unfold decimal. intros H. apply lit_inj in H.
  assert (Hu : N.to_uint a = N.to_uint b).
  { pose proof (NilEmpty.usu (N.to_uint a)) as Ha.
    pose proof (NilEmpty.usu (N.to_uint b)) as Hb.
    rewrite H in Ha. congruence. }
  rewrite <- (DecimalN.Unsigned.of_to a), <- (DecimalN.Unsigned.of_to b).
  now rewrite Hu.
Qed.

(** An identifier prints as digits. *)
Lemma decimal_digits (n : N) : forallb is_digit (decimal n) = true.
Proof.
  unfold decimal. generalize (N.to_uint n).
  induction u as [|u IH|u IH|u IH|u IH|u IH|u IH|u IH|u IH|u IH|u IH];
    [reflexivity|..]; exact IH.
Qed.

Lemma forallb_rev (p : N -> bool) l : forallb p (rev l) = forallb p l.
Proof.
  induction l as [|x l IH]; [reflexivity|].
  simpl. rewrite forallb_app, IH. simpl. rewrite andb_true_r. apply andb_comm.
Qed.

(** A run of digits at the end of a string, behind a character that is not
    a digit, is determined by the string. *)
Lemma digits_suffix_inj (A B d1 d2 : jsstr) (c : N) :
  is_digit c = false ->
  forallb is_digit d1 = true ->
  forallb is_digit d2 = true ->
  A ++ c :: d1 = B ++ c :: d2 ->
  d1 = d2 /\ A = B.
Proof.
  intros Hc H1 H2 Heq.
  assert (Hrev : rev d1 ++ c :: rev A = rev d2 ++ c :: rev B).
  { apply (f_equal (@rev N)) in Heq.
    rewrite !rev_app_distr in Heq. simpl in Heq.
    now rewrite <- !app_assoc in Heq. }
  assert (Hd : rev d1 = rev d2).
  { rewrite <- (take_while_app is_digit (rev d1) (c :: rev A)),
            <- (take_while_app is_digit (rev d2) (c :: rev B));
      rewrite ?forallb_rev; auto. now rewrite Hrev. }
  assert (d1 = d2) as ->.
  { rewrite <- (rev_involutive d1), <- (rev_involutive d2). now rewrite Hd. }
  split; [reflexivity|]. now apply app_inv_tail in Heq.
Qed.

Lemma join_two_last (sep x y : jsstr) (l : list jsstr) :
  exists P, join sep (l ++ [x; y]) = P ++ x ++ sep ++ y.
Proof.
  induction l as [|a l [P IH]].
  - exists []. reflexivity.
  - exists (a ++ sep ++ P).
    change ((a :: l) ++ [x; y]) with (a :: (l ++ [x; y])).
    destruct (l ++ [x; y]) as [|b rest] eqn:E.
    + now destruct l.
    + cbn [join]. cbn [join] in IH. rewrite IH. now rewrite <- !app_assoc.
Qed.

(** Every name ends with the two identifiers. *)
Lemma filename_shape e iso testType status expectedText vuId iterationId :
  exists P,
    filename e iso testType status expectedText vuId iterationId
    = P ++ lit "VU" ++ decimal vuId ++ lit "_Iter" ++ decimal iterationId
        ++ lit ".png".
Proof.
  unfold filename, filenameParts.
  set (front := [timestamp iso; scenarioName e; scenarioTags e;
                 testType_name testType; status_name status;
                 cleanExpectedText expectedText]).
  change (List.filter nonempty
            [timestamp iso; scenarioName e; scenarioTags e;
             testType_name testType; status_name status;
             cleanExpectedText expectedText;
             lit "VU" ++ decimal vuId; lit "Iter" ++ decimal iterationId])
    with (List.filter nonempty
            (front ++ [lit "VU" ++ decimal vuId; lit "Iter" ++ decimal iterationId])).
  rewrite List.filter_app.
  change (List.filter nonempty
            [lit "VU" ++ decimal vuId; lit "Iter" ++ decimal iterationId])
    with [lit "VU" ++ decimal vuId; lit "Iter" ++ decimal iterationId].
  destruct (join_two_last (lit "_") (lit "VU" ++ decimal vuId)
              (lit "Iter" ++ decimal iterationId) (List.filter nonempty front))
    as [P HP].
  exists P. rewrite HP. rewrite <- !app_assoc. reflexivity.
Qed.

(** The first part of C8 holds of the code: whatever the timestamps and the
    other components, two names are equal only if they carry the same
    worker id and the same iteration id. *)
Lemma filenames_distinct e1 e2 iso1 iso2 testType1 testType2 status1 status2
  expectedText1 expectedText2 vuId1 vuId2 iterationId1 iterationId2 :
  filename e1 iso1 testType1 status1 expectedText1 vuId1 iterationId1
  = filename e2 iso2 testType2 status2 expectedText2 vuId2 iterationId2 ->
  vuId1 = vuId2 /\ iterationId1 = iterationId2.
Proof.
  destruct (filename_shape e1 iso1 testType1 status1 expectedText1 vuId1
              iterationId1) as [P1 ->].
  destruct (filename_shape e2 iso2 testType2 status2 expectedText2 vuId2
              iterationId2) as [P2 ->].
  intros H. rewrite !app_assoc in H. apply app_inv_tail in H.
  rewrite <- !app_assoc in H.
  change (lit "_Iter" ++ ?d) with (lit "_Ite" ++ 114%N :: d) in H.
  rewrite !app_assoc in H.
  apply digits_suffix_inj in H as [Hit H];
    [|reflexivity|apply decimal_digits|apply decimal_digits].
  apply app_inv_tail in H.
  change (lit "VU") with (lit "V" ++ [85%N]) in H.
  rewrite <- !app_assoc in H. cbn [app] in H.
  change (?P ++ 86%N :: 85%N :: ?d) with (P ++ [86%N] ++ 85%N :: d) in H.
  rewrite !app_assoc in H.
  apply digits_suffix_inj in H as [Hvu _];
    [|reflexivity|apply decimal_digits|apply decimal_digits].
  split; [now apply decimal_inj | now apply decimal_inj].
Qed.

(** Replacing every character of a class by nothing filters the class out. *)
Lemma replace_from_class fuel n p s :
  (length s < fuel)%nat ->
  replace_from fuel n (Cls p) [] s = List.filter (fun c => negb (p c)) s.
Proof.
  revert s; induction fuel as [|fuel IH]; intros s Hlen; [lia|].
  destruct s as [|x s]; [reflexivity|].
  cbn [replace_from rmatch List.filter]. simpl in Hlen.
  destruct (p x); cbn [negb accept app].
  - replace (length s <? length (x :: s))%nat with true
      by (symmetry; apply Nat.ltb_lt; simpl; lia).
    apply IH. lia.
  - f_equal. apply IH. lia.
Qed.

Lemma drop_while_incl p s c : In c (drop_while p s) -> In c s.
Proof.
  induction s as [|x s IH]; simpl; [auto|].
  destruct (p x); simpl; auto.
Qed.

Lemma drop_while_length p s : (length (drop_while p s) <= length s)%nat.
Proof.
  induction s as [|x s IH]; simpl; [lia|].
  destruct (p x); simpl; lia.
Qed.

(** Replacing every run of a class: what comes out is the replacement, or a
    character of the input outside the class. *)
Lemma replace_from_runs (Q : N -> Prop) fuel n p by_ s :
  Forall Q by_ ->
  (forall c, In c s -> p c = false -> Q c) ->
  (length s < fuel)%nat ->
  Forall Q (replace_from fuel n (Plus (Cls p)) by_ s).
Proof.
  intros Hby. revert s; induction fuel as [|fuel IH]; intros s Hs Hlen; [lia|].
  destruct s as [|x s]; [cbn; constructor|].
  cbn [replace_from]. simpl in Hlen.
  change (rmatch n (Plus (Cls p)) (x :: s) [] accept)
    with (if p x then rmatch n (Star (Cls p)) s [] accept else None).
  destruct (p x) eqn:Hx.
  - rewrite rmatch_Star_class.
    rewrite (star_class_greedy p accept s [] (drop_while p s, []) eq_refl).
    pose proof (drop_while_length p s) as Hd.
    replace (length (drop_while p s) <? length (x :: s))%nat with true
      by (symmetry; apply Nat.ltb_lt; simpl; lia).
    apply Forall_app. split; [exact Hby|].
    apply IH; [|lia].
    intros c Hc. apply Hs. right. now apply drop_while_incl in Hc.
  - constructor.
    + apply Hs; [now left | exact Hx].
    + apply IH; [|lia]. intros c Hc. apply Hs. now right.
Qed.

(** What the two sanitizing replacements of lines 217-220 and 227-232 let
    through: letters, digits and the underscore. *)
Lemma sanitized_safe (s : jsstr) :
  Forall (fun c => filename_safe c = true)
    (replaceAll spaces (lit "_") (replaceAll not_alnum_space [] s)).
Proof.
  unfold replaceAll at 1, spaces.
  apply replace_from_runs; [repeat constructor | | lia].
  intros c Hc Hspace. unfold replaceAll, not_alnum_space in Hc.
  rewrite replace_from_class in Hc by lia.
  apply List.filter_In in Hc as [_ Hc].
  rewrite negb_involutive, Hspace, orb_false_r in Hc.
  unfold filename_safe. now rewrite Hc.
Qed.

(** The scenario name and the expected-text fragment are sanitized and
    bounded; the tag list is bounded. *)
Lemma sanitized_components (e : env) (expectedText : option jsstr) :
  Forall (fun c => filename_safe c = true) (scenarioName e)
  /\ (length (scenarioName e) <= 30)%nat
  /\ Forall (fun c => filename_safe c = true) (cleanExpectedText expectedText)
  /\ (length (cleanExpectedText expectedText) <= 15)%nat
  /\ (length (scenarioTags e) <= 20)%nat.
Proof.
  unfold scenarioName, cleanExpectedText, scenarioTags, substring0.
  repeat split.
  - apply Forall_take, sanitized_safe.
  - rewrite length_take. lia.
  - destruct expectedText as [[|c t]|]; try constructor.
    apply Forall_take, sanitized_safe.
  - destruct expectedText as [[|c t]|]; simpl; try lia.
    rewrite length_take. lia.
  - rewrite length_take. lia.
Qed.

(** C8 fails on the code for the tag list: lines 222-225 remove only [@] and
    [,] from [SCENARIO_TAGS], where lines 217-220 and 227-232 remove every
    character that is not a letter, a digit or whitespace. A tag such as
    [@api/v2] puts a slash in the file name, while the same text as scenario
    name is sanitized. *)
Theorem tags_not_sanitized :
  let e := <["SCENARIO_TAGS" := lit "@api/v2"]> (∅ : env) in
  scenarioTags e = lit "api/v2"
  /\ forallb filename_safe (scenarioTags e) = false
  /\ filename e (lit "2026-11-03T12:34:56.789Z") page_test pass None 1 0
     = lit "2026-11-03T12-34-56_unknownscenario_api/v2_page_pass_VU1_Iter0.png"
  /\ scenarioName (<["SCENARIO_NAME" := lit "@api/v2"]> (∅ : env)) = lit "apiv2".
Proof. repeat split. Qed.

End ScreenshotFacts.

(** ** The hooks *)

Module HooksFacts.
Import JsString JsNumber Config Hooks Conditions.

Lemma tagged_env tag tags hook s key :
  process_env (tagged tag tags hook s) !! key
  = if bool_decide (lit tag ∈ tags) then process_env (hook s) !! key
    else process_env s !! key.
Proof. unfold tagged. now case_bool_decide. Qed.

(** What the [Before] hooks leave in a variable of the environment. *)
Lemma before_env name tags s key :
  process_env (before name tags s) !! key
  = if bool_decide (key = "SCENARIO_TAGS") then Some (join (lit ", ") tags)
    else if bool_decide (key = "SCENARIO_NAME") then Some name
    else if bool_decide (key = "K6_CPU_THROTTLING")
         then match cpu_of tags with
              | Some c => Some (throttling c)
              | None => process_env s !! key
              end
    else if bool_decide (key = "K6_CPU_CONDITION")
         then match cpu_of tags with
              | Some c => Some (cpu_name c)
              | None => process_env s !! key
              end
    else if bool_decide (key = "K6_NETWORK_PROFILE")
         then match network_of tags with
              | Some n => Some (profile n)
              | None => process_env s !! key
              end
    else if bool_decide (key = "K6_NETWORK_CONDITION")
         then match network_of tags with
              | Some n => Some (network_name n)
              | None => process_env s !! key
              end
    else process_env s !! key.
Proof.
  assert (Hkey : forall (k : string) (x y : option jsstr),
            (if decide (k = key) is left _ then x else y)
            = if bool_decide (key = k) then x else y).
  { intros k x y. case_decide; case_bool_decide; congruence. }
  unfold before, before_scenario. cbn [process_env].
  rewrite !lookup_insert, !Hkey.
  repeat (case_bool_decide; [reflexivity|]).
  unfold network_of, cpu_of.
  repeat (rewrite tagged_env; unfold before_cpu, before_network;
          cbn [process_env]; rewrite ?lookup_insert, ?Hkey;
          repeat (rewrite (bool_decide_eq_false_2 (key = _)) by assumption)).
  repeat case_bool_decide; first [reflexivity | congruence].
Qed.


Lemma before_conditions name tags s :
  networkCondition (before name tags s)
  = match network_of tags with
    | Some n => Some n
    | None => networkCondition s
    end
  /\ cpuCondition (before name tags s)
     = match cpu_of tags with
       | Some c => Some c
       | None => cpuCondition s
       end
  /\ currentScenario (before name tags s) = Some name.
Proof.
  unfold before, before_scenario, tagged, network_of, cpu_of.
  repeat case_bool_decide; repeat split.
Qed.

(** X6. When a scenario carries several network tags, or both CPU tags, the
    hook that the file registers last decides: [@3G] over [@WIFI] over
    [@4G], and [@LowCPU] over [@HighCPU]. The condition and its profile (or
    throttling rate) in the environment always come from the same row of
    the table, and agree with the variables of the module; a scenario
    without such a tag leaves the variables as they were. The scenario
    name and the comma-separated tags are set in every case. *)
Theorem last_registered_hook_wins (name : jsstr) (tags : list jsstr) (s : State) :
  let s' := before name tags s in
  let e' := process_env s' in
  match network_of tags with
  | Some n =>
      networkCondition s' = Some n
      /\ e' !! "K6_NETWORK_CONDITION" = Some (network_name n)
      /\ e' !! "K6_NETWORK_PROFILE" = Some (profile n)
  | None =>
      networkCondition s' = networkCondition s
      /\ e' !! "K6_NETWORK_CONDITION" = process_env s !! "K6_NETWORK_CONDITION"
      /\ e' !! "K6_NETWORK_PROFILE" = process_env s !! "K6_NETWORK_PROFILE"
  end
  /\ match cpu_of tags with
     | Some c =>
         cpuCondition s' = Some c
         /\ e' !! "K6_CPU_CONDITION" = Some (cpu_name c)
         /\ e' !! "K6_CPU_THROTTLING" = Some (throttling c)
     | None =>
         cpuCondition s' = cpuCondition s
         /\ e' !! "K6_CPU_CONDITION" = process_env s !! "K6_CPU_CONDITION"
         /\ e' !! "K6_CPU_THROTTLING" = process_env s !! "K6_CPU_THROTTLING"
     end
  /\ e' !! "SCENARIO_NAME" = Some name
  /\ e' !! "SCENARIO_TAGS" = Some (join (lit ", ") tags)
  /\ (lit "@3G" ∈ tags -> network_of tags = Some Net3G)
  /\ (lit "@LowCPU" ∈ tags -> cpu_of tags = Some LowCPU).
Proof.
  intros s' e'. subst s' e'.
  destruct (before_conditions name tags s) as (Hn & Hc & _).
  rewrite Hn, Hc, !before_env.
  repeat split.
  - destruct (network_of tags); repeat split.
  - destruct (cpu_of tags); repeat split.
  - intros H. unfold network_of. now rewrite bool_decide_eq_true_2.
  - intros H. unfold cpu_of. now rewrite bool_decide_eq_true_2.
Qed.

Lemma last_registered_hook_wins_witness :
  let s := MkHooks None None None ∅ in
  process_env (before (lit "Slow network") [lit "@3G"; lit "@WIFI"; lit "@LowCPU"] s)
    !! "K6_NETWORK_CONDITION"
  = Some (lit "3G").
Proof.
  intros s.
  pose proof (last_registered_hook_wins (lit "Slow network")
                [lit "@3G"; lit "@WIFI"; lit "@LowCPU"] s) as H.
  cbv zeta in H. destruct H as (Hnetwork & _ & _ & _ & H3G & _).
  rewrite (H3G ltac:(constructor)) in Hnetwork. apply Hnetwork.
Defined.

Lemma after_env s key :
  process_env (after s) !! key
  = if bool_decide (key ∈ hook_keys) then None else process_env s !! key.
Proof.
  unfold after, hook_keys. cbn [process_env].
  case_bool_decide as Hk.
  - repeat (apply elem_of_cons in Hk as [->|Hk]; [now simplify_map_eq|]).
    now apply elem_of_nil in Hk.
  - rewrite !lookup_delete_ne; [reflexivity|..];
      intros <-; apply Hk; repeat constructor.
Qed.

(** X7. A scenario leaves no trace: after its [After] hook the six variables
    are gone from the environment (also those that the process had before
    the first scenario), the two conditions are reset, and every other
    variable is as it was before the [Before] hooks. When none of the six
    was set before, the environment is exactly what it was. *)
Theorem scenario_leaves_no_trace (name : jsstr) (tags : list jsstr) (s : State) :
  let s' := after (before name tags s) in
  networkCondition s' = None
  /\ cpuCondition s' = None
  /\ (forall key, key ∈ hook_keys -> process_env s' !! key = None)
  /\ (forall key, key ∉ hook_keys -> process_env s' !! key = process_env s !! key)
  /\ ((forall key, key ∈ hook_keys -> process_env s !! key = None) ->
      process_env s' = process_env s).
Proof.
  intros s'. subst s'.
  assert (Hother : forall key, key ∉ hook_keys ->
            process_env (before name tags s) !! key = process_env s !! key).
  { intros key Hk. rewrite before_env.
    repeat (case_bool_decide as E;
            [exfalso; apply Hk; rewrite E; unfold hook_keys;
             repeat constructor|clear E]).
    reflexivity. }
  split; [reflexivity|]. split; [reflexivity|]. split; [|split].
  - intros key Hk. rewrite after_env. now rewrite bool_decide_eq_true_2.
  - intros key Hk. rewrite after_env, bool_decide_eq_false_2 by exact Hk.
    now apply Hother.
  - intros Hclean. apply map_eq. intros key. rewrite after_env.
    case_bool_decide as Hk.
    + symmetry. now apply Hclean.
    + now apply Hother.
Qed.

Lemma scenario_leaves_no_trace_witness :
  let s := MkHooks None None None (<["PATH" := lit "/usr/bin"]> ∅) in
  process_env (after (before (lit "Load the page") [lit "@4G"; lit "@LowCPU"] s))
  = process_env s.
Proof.
  intros s.
  apply (proj2 (proj2 (proj2 (proj2
           (scenario_leaves_no_trace (lit "Load the page")
              [lit "@4G"; lit "@LowCPU"] s))))).
  intros key Hk. unfold hook_keys in Hk.
  repeat (apply elem_of_cons in Hk as [->|Hk]; [reflexivity|]).
  now apply elem_of_nil in Hk.
Defined.

End HooksFacts.

(** ** The Given and When steps *)

Module ScenarioFacts.
Import JsString JsNumber Config Steps Js Scenario.

Section Runs.
Variable process_env : env.
Variable execSync : nat -> env -> ExecError + jsstr.

Lemma each_row_spec envVars testUrl rows w :
  each_row process_env execSync envVars testUrl rows w
  = (inr tt,
     MkWorld (url w) (k6Output w)
       (k6Outputs w
          ++ imap (fun i => capture_row process_env execSync envVars testUrl (length (runs w) + i)) rows)
       (runs w
          ++ List.map (fun row => component_env process_env envVars testUrl row.1 row.2)
               rows)).
Proof.
  revert w; induction rows as [|[selector expectedText] rows IH]; intros w.
  - cbn. rewrite !app_nil_r. now destruct w.
  - cbn [each_row]. unfold bind, run_k6, gets, set_k6Outputs, modify.
    cbn [url k6Output k6Outputs runs]. rewrite IH.
    cbn [url k6Output k6Outputs runs imap List.map fst snd].
    rewrite <- !app_assoc, length_app. cbn [app length].
    rewrite (imap_ext
               (fun i => capture_row process_env execSync envVars testUrl (length (runs w) + 1 + i))
               ((fun i => capture_row process_env execSync envVars testUrl (length (runs w) + i)) ∘ S)
               rows)
      by (intros i row _; cbn; f_equal; lia).
    unfold capture_row at 3. cbn [fst snd]. now rewrite Nat.add_0_r.
Qed.


Lemma load_subcomponents_runs (envVars : env) (rows : list (jsstr * jsstr))
  (w : World) (c : N) (u : jsstr) :
  url w = Some (c :: u) ->
  load_subcomponents process_env (Some envVars) execSync rows w
  = (inr tt,
     MkWorld (url w) (k6Output w)
       (imap (fun i => capture_row process_env execSync envVars (c :: u)
                         (length (runs w) + i)) rows)
       (runs w
          ++ List.map (fun row => component_env process_env envVars (c :: u) row.1 row.2)
               rows)).
Proof.
  intros Hurl.
  unfold load_subcomponents, the_url, load_k6env, bind, set_k6Outputs, modify,
    gets, ret.
  cbn [url k6Output k6Outputs runs]. rewrite Hurl, each_row_spec. reflexivity.
Qed.

(** X1. The When step of the subcomponents keeps one output per row of the
    table, in the order of the rows and with the selector and the expected
    text of the row, whatever k6 does: a run that exits with an error
    contributes what it wrote to its standard output and error. k6 is run
    once per row, with the variables of the row, and the outputs of an
    earlier step are dropped. *)
Theorem one_output_per_row (envVars : env) (rows : list (jsstr * jsstr))
  (w : World) (testUrl : jsstr) :
  url w = Some testUrl ->
  testUrl <> [] ->
  exists w',
    load_subcomponents process_env (Some envVars) execSync rows w = (inr tt, w')
    /\ k6Outputs w'
       = imap (fun i => capture_row process_env execSync envVars testUrl
                          (length (runs w) + i)) rows
    /\ List.map (fun c => (selector c, expectedText c)) (k6Outputs w') = rows
    /\ runs w'
       = runs w
         ++ List.map (fun row => component_env process_env envVars testUrl row.1 row.2)
              rows
    /\ url w' = url w
    /\ k6Output w' = k6Output w.
Proof.
  intros Hurl Hne. destruct testUrl as [|c u]; [congruence|].
  rewrite (load_subcomponents_runs envVars rows w c u Hurl).
  eexists. split; [reflexivity|]. cbn [url k6Output k6Outputs runs].
  repeat split.
  generalize (length (runs w)). clear.
  induction rows as [|[sel text] rows IH]; intros n; [reflexivity|].
  cbn [imap List.map]. unfold capture_row at 1. cbn [selector expectedText fst snd].
  f_equal.
  rewrite (imap_ext _ (fun i => capture_row process_env execSync envVars
                                  (c :: u) (S n + i)) rows)
    by (intros i row _; cbn; f_equal; lia).
  apply IH.
Qed.

(** X2. Without a URL (the Given step has not run, or gave the empty string)
    both When steps throw before they read [k6env.yaml] or start k6. The
    step of the subcomponents has dropped the outputs of an earlier step by
    then, so that the Then step after it finds no output at all; the step
    of the main page leaves the variables as they were. *)
Theorem url_is_required (k6env : option env) (rows : list (jsstr * jsstr))
  (w : World) :
  truthy (url w) = false ->
  load_subcomponents process_env k6env execSync rows w
  = (inl (UrlNotSet url_not_set), MkWorld (url w) (k6Output w) [] (runs w))
  /\ load_main_page process_env k6env execSync w
     = (inl (UrlNotSet url_not_set), w)
  /\ forall maxTime,
       then_subcomponents
         (load_subcomponents process_env k6env execSync rows w).2 maxTime
       = inl (NoOutput no_sub_outputs).
Proof.
  intros Hurl.
  assert (Hsub : load_subcomponents process_env k6env execSync rows w
                 = (inl (UrlNotSet url_not_set),
                    MkWorld (url w) (k6Output w) [] (runs w))).
  { unfold load_subcomponents, the_url, bind, set_k6Outputs, modify, gets, throw.
    cbn [url]. now destruct (url w) as [[|c u]|]. }
  split; [exact Hsub|]. split.
  - unfold load_main_page, the_url, bind, gets, throw.
    now destruct (url w) as [[|c u]|].
  - intros maxTime. now rewrite Hsub.
Qed.

Lemma silent_kept r : silent r -> kept r = [].
Proof.
  intros (err & -> & Hout & Herr). unfold kept, captured.
  now destruct (err_stdout err) as [[|]|], (err_stderr err) as [[|]|].
Qed.

(** X3. A When step never fails because k6 does: it keeps what the run wrote.
    When k6 fails without writing anything, the step of the main page keeps
    the empty string, which the Then step reports as "No k6 output found"
    (as if the When step had not run); the step of the subcomponents keeps
    an entry with an empty output, which the Then step reports as a missing
    metric for the selector of that row. *)
Theorem silent_failure_reports (envVars : env) (w : World) (testUrl : jsstr)
  (selector expectedText : jsstr) (more : list (jsstr * jsstr)) (maxTime : Z) :
  url w = Some testUrl ->
  testUrl <> [] ->
  let main := load_main_page process_env (Some envVars) execSync w in
  let sub :=
    load_subcomponents process_env (Some envVars) execSync
      ((selector, expectedText) :: more) w in
  main.1 = inr tt
  /\ k6Output main.2
     = Some (kept (execSync (length (runs w))
                     (page_env process_env envVars testUrl)))
  /\ (silent (execSync (length (runs w)) (page_env process_env envVars testUrl)) ->
      then_main_page main.2 maxTime = inl (NoOutput no_main_output))
  /\ sub.1 = inr tt
  /\ (silent (execSync (length (runs w))
                (component_env process_env envVars testUrl selector expectedText)) ->
      then_subcomponents sub.2 maxTime
      = inl (MetricNotFound (sub_not_found selector []))).
Proof.
  intros Hurl Hne main sub.
  destruct testUrl as [|c u]; [congruence|].
  subst main sub.
  rewrite (load_subcomponents_runs envVars ((selector, expectedText) :: more) w
             c u Hurl).
  cbn [fst snd].
  unfold load_main_page, the_url, load_k6env, bind, gets, ret, run_k6,
    set_k6Output, modify.
  rewrite Hurl. cbn [fst snd url k6Output k6Outputs runs].
  split; [reflexivity|]. split; [reflexivity|]. split; [|split; [reflexivity|]].
  - intros Hsilent. unfold then_main_page. cbn [k6Output].
    now rewrite (silent_kept _ Hsilent).
  - intros Hsilent. unfold then_subcomponents. cbn [k6Outputs].
    cbn [imap List.map]. unfold capture_row at 1 2.
    cbn [Scenario.selector output fst snd]. rewrite Nat.add_0_r.
    rewrite (silent_kept _ Hsilent). reflexivity.
Qed.

(** X4. The variables that a step sets win over those of [k6env.yaml], which
    win over those of the process: the engine is configured with the URL of
    the Given step and, for a subcomponent, with the selector and the text
    of its row, whatever the file and the process define. Every other
    variable comes from the file when the file defines it, and from the
    process otherwise; this includes the selector in the step of the main
    page, which therefore measures a subcomponent when the file or the
    process defines one. *)
Theorem step_variables_win (envVars : env) (testUrl selector expectedText : jsstr) :
  let inherited (key : string) :=
    match envVars !! key with
    | Some v => Some v
    | None => process_env !! key
    end in
  let component := component_env process_env envVars testUrl selector expectedText in
  let page := page_env process_env envVars testUrl in
  Config.testUrl (CONFIG component) = Some (trim testUrl)
  /\ subcomponentSelector (CONFIG component) = Some (trim selector)
  /\ Config.expectedText (CONFIG component) = Some (trim expectedText)
  /\ Config.testUrl (CONFIG page) = Some (trim testUrl)
  /\ subcomponentSelector (CONFIG page) = trim <$> inherited "SUBCOMPONENT_SELECTOR"
  /\ Config.expectedText (CONFIG page) = trim <$> inherited "EXPECTED_TEXT"
  /\ (forall key, key <> "TEST_URL" -> page !! key = inherited key)
  /\ (forall key,
        key <> "TEST_URL" -> key <> "SUBCOMPONENT_SELECTOR" ->
        key <> "EXPECTED_TEXT" -> component !! key = inherited key).
Proof.
  intros inherited component page.
  assert (Hunion : forall key, (envVars ∪ process_env) !! key = inherited key).
  { intros key. rewrite lookup_union. unfold inherited.
    destruct (envVars !! key), (process_env !! key); reflexivity. }
  subst component page. unfold CONFIG, component_env, page_env.
  cbn [Config.testUrl subcomponentSelector Config.expectedText].
  repeat split; intros; simplify_map_eq; try reflexivity; now rewrite Hunion.
Qed.

End Runs.

Lemma one_output_per_row_witness :
  exists w',
    load_subcomponents ∅ (Some ∅)
      (fun n _ => if Nat.eqb n 0 then inr (lit "ok")
                  else inl (MkExecError (Some (lit "out")) None))
      [(lit "body", lit "Google"); (lit "#q", lit "Search")]
      (given_page_url (lit "https://www.google.com") initial)
    = (inr tt, w')
    /\ List.map (fun c => (selector c, expectedText c)) (k6Outputs w')
       = [(lit "body", lit "Google"); (lit "#q", lit "Search")].
Proof.
  destruct (one_output_per_row ∅
              (fun n _ => if Nat.eqb n 0 then inr (lit "ok")
                          else inl (MkExecError (Some (lit "out")) None)) ∅
              [(lit "body", lit "Google"); (lit "#q", lit "Search")]
              (given_page_url (lit "https://www.google.com") initial)
              (lit "https://www.google.com") eq_refl ltac:(discriminate))
    as (w' & Hrun & _ & Hrows & _).
  exists w'. split; [exact Hrun | exact Hrows].
Defined.

Lemma url_is_required_witness :
  load_main_page ∅ None (fun _ _ => inr []) initial
  = (inl (UrlNotSet url_not_set), initial).
Proof.
  apply (url_is_required ∅ (fun _ _ => inr []) None [] initial). reflexivity.
Defined.

Lemma silent_failure_reports_witness :
  let k6 := fun (_ : nat) (_ : env) => inl (MkExecError None (Some [])) in
  let w := given_page_url (lit "https://www.google.com") initial in
  then_main_page (load_main_page ∅ (Some ∅) k6 w).2 5
  = inl (NoOutput no_main_output)
  /\ then_subcomponents
       (load_subcomponents ∅ (Some ∅) k6 [(lit "body", lit "Google")] w).2 6
     = inl (MetricNotFound (sub_not_found (lit "body") [])).
Proof.
  intros k6 w.
  pose proof (silent_failure_reports ∅ k6 ∅ w (lit "https://www.google.com")
                (lit "body") (lit "Google") [] 5 eq_refl ltac:(discriminate))
    as (_ & _ & Hmain & _ & _).
  pose proof (silent_failure_reports ∅ k6 ∅ w (lit "https://www.google.com")
                (lit "body") (lit "Google") [] 6 eq_refl ltac:(discriminate))
    as (_ & _ & _ & _ & Hsub).
  split.
  - apply Hmain. eexists. repeat split.
  - apply Hsub. eexists. repeat split.
Defined.

Lemma step_variables_win_witness :
  let process_env : env :=
    <["SUBCOMPONENT_SELECTOR" := lit "#process"]> (<["VUS" := lit "3"]> ∅) in
  let envVars : env := <["SUBCOMPONENT_SELECTOR" := lit "#file"]> ∅ in
  component_env process_env envVars (lit "https://www.google.com") (lit "body")
    (lit "Google") !! "VUS" = Some (lit "3")
  /\ subcomponentSelector
       (CONFIG (page_env process_env envVars (lit "https://www.google.com")))
     = Some (lit "#file").
Proof.
  intros process_env envVars.
  pose proof (step_variables_win process_env envVars
                (lit "https://www.google.com") (lit "body") (lit "Google"))
    as (_ & _ & _ & _ & Hsel & _ & _ & Hother).
  split.
  - rewrite (Hother "VUS") by discriminate. reflexivity.
  - rewrite Hsel. reflexivity.
Defined.

End ScenarioFacts.

(** ** Network and CPU simulation *)

Module SimulationFacts.
Import JsString JsNumber Config Js Hooks Conditions Scenario Simulation HooksFacts.

Lemma simulation_calls (cfg : config) (page : Page) (calls : list call) :
  let network :=
    truthy (Some (network_condition cfg))
    && negb (bool_decide (network_condition cfg = lit "WIFI")) in
  let cpu :=
    truthy (Some (cpu_condition cfg)) && lt (of_Z 1) (cpu_throttling cfg) in
  applySimulationConditions cfg page calls
  = (inr tt,
     calls
       ++ (if network then [EmulateNetworkConditions (network_profile cfg)] else [])
       ++ (if cpu && negb (network && emulateNetworkConditions_throws page)
           then [EmulateCPUThrottling (cpu_throttling cfg)] else [])).
Proof.
  intros network cpu. unfold applySimulationConditions, try_catch, bind, when,
    invoke, ret.
  fold network. fold cpu.
  destruct network, cpu, (emulateNetworkConditions_throws page),
    (emulateCPUThrottling_throws page); cbn;
    rewrite <- ?app_assoc, ?app_nil_r; reflexivity.
Qed.

(** X9. [applySimulationConditions] never throws. It emulates the network,
    with the configured profile, unless the condition is [WIFI] (the
    default), and throttles the CPU when the rate is above 1; both calls
    share one [try] block, so that a network emulation that throws also
    skips the CPU throttling, and the measurement goes on without either. *)
Theorem simulation_is_best_effort (cfg : config) (page : Page) (calls : list call) :
  let r := applySimulationConditions cfg page calls in
  r.1 = inr tt
  /\ exists made,
       r.2 = calls ++ made
       /\ (forall profile,
             EmulateNetworkConditions profile ∈ made <->
             profile = network_profile cfg
             /\ network_condition cfg <> []
             /\ network_condition cfg <> lit "WIFI")
       /\ (forall rate,
             EmulateCPUThrottling rate ∈ made <->
             rate = cpu_throttling cfg
             /\ cpu_condition cfg <> []
             /\ lt (of_Z 1) rate = true
             /\ (EmulateNetworkConditions (network_profile cfg) ∈ made ->
                 emulateNetworkConditions_throws page = false)).
Proof.
  intros r. subst r. rewrite simulation_calls. cbn [fst snd].
  split; [reflexivity|]. eexists. split; [reflexivity|].
  assert (Htruthy : forall s : jsstr, truthy (Some s) = true <-> s <> [])
    by (intros [|x s]; cbn; split; congruence).
  set (network := truthy (Some (network_condition cfg))
                  && negb (bool_decide (network_condition cfg = lit "WIFI"))).
  set (cpu := truthy (Some (cpu_condition cfg))
              && lt (of_Z 1) (cpu_throttling cfg)).
  assert (Hnetwork : network = true
                     <-> network_condition cfg <> []
                         /\ network_condition cfg <> lit "WIFI").
  { unfold network.
    rewrite andb_true_iff, negb_true_iff, bool_decide_eq_false, Htruthy. tauto. }
  assert (Hcpu : cpu = true
                 <-> cpu_condition cfg <> []
                     /\ lt (of_Z 1) (cpu_throttling cfg) = true).
  { unfold cpu. rewrite andb_true_iff, Htruthy. tauto. }
  assert (Hone : forall (b : bool) (x y : call),
            y ∈ (if b then [x] else []) <-> b = true /\ y = x).
  { intros [|] x y; rewrite ?elem_of_cons, ?elem_of_nil; split.
    - intros [->|[]]. now split.
    - intros [_ ->]. now left.
    - intros [].
    - intros [[=] _]. }
  split.
  - intros profile. rewrite elem_of_app, !Hone, <- Hnetwork. split.
    + intros [[Hn [= ->]]|[_ [=]]]. now split.
    + intros [-> Hn]. left. now split.
  - intros rate. rewrite !elem_of_app, !Hone, andb_true_iff, negb_true_iff,
      andb_false_iff, Hcpu.
    split.
    + intros [[_ [=]]|[[[Hc Hlt] Hskip] [= ->]]].
      split; [reflexivity|]. split; [exact Hc|]. split; [exact Hlt|].
      intros [[Hn _]|[_ [=]]]. destruct Hskip as [Hskip|Hskip]; congruence.
    + intros (-> & Hc & Hlt & Hskip). right. split; [|reflexivity].
      split; [now split|].
      destruct network eqn:Hn; [right | now left].
      apply Hskip. left. now split.
Qed.

Lemma floored_lookup (e : env) key floor fallback :
  floored e key floor fallback
  = Math_max (of_Z floor) (or_num (ToNumber (e !! key)) (of_Z fallback)).
Proof. reflexivity. Qed.

(** X8. From the tags of a scenario to the calls on the page, through the
    hooks, the environment of the child process and the configuration of
    the engine, when neither the process nor [k6env.yaml] defines the four
    variables of the conditions: the network is emulated for [@4G] and
    [@3G] with the profile of the table, and not for [@WIFI] or without a
    network tag; the CPU is throttled, four times, for [@LowCPU] only. *)
Theorem tags_reach_the_engine (name : jsstr) (tags : list jsstr) (s : State)
  (envVars : env) (testUrl : jsstr) (page : Page) (calls : list call) :
  (forall key,
     key ∈ ["K6_NETWORK_CONDITION"; "K6_NETWORK_PROFILE"; "K6_CPU_CONDITION";
            "K6_CPU_THROTTLING"] ->
     process_env s !! key = None /\ envVars !! key = None) ->
  emulateNetworkConditions_throws page = false ->
  let e := page_env (process_env (before name tags s)) envVars testUrl in
  applySimulationConditions (CONFIG e) page calls
  = (inr tt,
     calls
       ++ match network_of tags with
          | Some Net4G => [EmulateNetworkConditions (lit "Regular 4G")]
          | Some Net3G => [EmulateNetworkConditions (lit "Fast 3G")]
          | Some NetWIFI | None => []
          end
       ++ match cpu_of tags with
          | Some LowCPU => [EmulateCPUThrottling (of_Z 4)]
          | Some HighCPU | None => []
          end).
Proof.
  intros Hclean Hnet e.
  assert (Hkey : forall key,
            key ∈ ["K6_NETWORK_CONDITION"; "K6_NETWORK_PROFILE";
                   "K6_CPU_CONDITION"; "K6_CPU_THROTTLING"] ->
            e !! key = process_env (before name tags s) !! key).
  { intros key Hk. destruct (Hclean key Hk) as [_ Hfile].
    subst e. unfold page_env.
    rewrite lookup_insert_ne, lookup_union, Hfile.
    - now destruct (process_env (before name tags s) !! key).
    - intros <-. repeat (apply elem_of_cons in Hk as [Hk|Hk]; [discriminate|]).
      now apply elem_of_nil in Hk. }
  rewrite simulation_calls, Hnet, andb_false_r.
  unfold CONFIG. cbn [network_condition network_profile cpu_condition
                        cpu_throttling].
  rewrite floored_lookup, !Hkey by (repeat constructor).
  rewrite !before_env. cbn [bool_decide decide_rel].
  repeat match goal with
         | |- context [bool_decide (?a = ?b)] =>
             change (bool_decide (a = b)) with false
             || change (bool_decide (a = b)) with true
         end.
  cbv iota.
  destruct (Hclean "K6_NETWORK_CONDITION" ltac:(repeat constructor)) as [-> _].
  destruct (Hclean "K6_NETWORK_PROFILE" ltac:(repeat constructor)) as [-> _].
  destruct (Hclean "K6_CPU_CONDITION" ltac:(repeat constructor)) as [-> _].
  destruct (Hclean "K6_CPU_THROTTLING" ltac:(repeat constructor)) as [-> _].
  destruct (network_of tags) as [[| |]|], (cpu_of tags) as [[|]|];
    vm_compute; reflexivity.
Qed.

Lemma tags_reach_the_engine_witness :
  let s := MkHooks None None None ∅ in
  let e :=
    page_env
      (process_env (before (lit "Load the page with 4G and CPU throttling")
                      [lit "@4G"; lit "@LowCPU"] s))
      ∅ (lit "https://www.google.com") in
  applySimulationConditions (CONFIG e) (MkPage false false) []
  = (inr tt,
     [EmulateNetworkConditions (lit "Regular 4G"); EmulateCPUThrottling (of_Z 4)]).
Proof.
  intros s e.
  apply (tags_reach_the_engine (lit "Load the page with 4G and CPU throttling")
           [lit "@4G"; lit "@LowCPU"] s ∅ (lit "https://www.google.com")
           (MkPage false false) []).
  - intros key _. split; apply lookup_empty.
  - reflexivity.
Defined.

End SimulationFacts.

(** ** Waiting for an element *)

Module ElementWaitFacts.
Import JsString JsNumber Js ElementWait.

Section Wait.
Variable waitForSelector : nat -> outcome.
Variable pollInterval : spec_float.
Variable selector : jsstr.
Variable timeout : spec_float.
Variable retries : nat.

#[local] Abbreviation attempts := (attempts waitForSelector pollInterval selector timeout retries).
#[local] Abbreviation attempt_calls := (attempt_calls waitForSelector pollInterval timeout retries).
#[local] Abbreviation last_rejection := (last_rejection waitForSelector).
#[local] Abbreviation found := (found waitForSelector).
#[local] Abbreviation failure := (failure selector retries).

Lemma attempts_fail left attempt lastError calls :
  (forall i, (attempt <= i < attempt + left)%nat -> found i = false) ->
  attempts left attempt lastError calls
  = (inl (failure (last_rejection attempt left lastError)),
     calls ++ flat_map attempt_calls (seq attempt left)).
Proof.
  revert attempt lastError calls.
  induction left as [|left IH]; intros attempt lastError calls Hnone.
  - cbn. now rewrite app_nil_r.
  - cbn [ElementWait.attempts seq flat_map ElementWait.last_rejection].
    unfold bind, called, modify, ret.
    pose proof (Hnone attempt ltac:(lia)) as Hhere.
    unfold ElementWait.found in Hhere. unfold ElementWait.attempt_calls at 1.
    destruct (waitForSelector attempt) as [el| |message]; [discriminate|..].
    + rewrite IH by (intros i Hi; apply Hnone; lia).
      now rewrite <- app_assoc.
    + destruct (attempt <? retries)%nat.
      * rewrite IH by (intros i Hi; apply Hnone; lia).
        now rewrite <- !app_assoc.
      * rewrite IH by (intros i Hi; apply Hnone; lia).
        now rewrite <- !app_assoc.
Qed.

Lemma attempts_find left attempt lastError calls k element :
  (k < left)%nat ->
  waitForSelector (attempt + k) = Found element ->
  (forall i, (attempt <= i < attempt + k)%nat -> found i = false) ->
  attempts left attempt lastError calls
  = (inr element, calls ++ flat_map attempt_calls (seq attempt (S k))).
Proof.
  revert left attempt lastError calls.
  induction k as [|k IH]; intros left attempt lastError calls Hk Hfound Hnone.
  - destruct left as [|left]; [lia|]. rewrite Nat.add_0_r in Hfound.
    cbn [ElementWait.attempts seq flat_map]. unfold bind, called, modify, ret.
    unfold ElementWait.attempt_calls. rewrite Hfound. reflexivity.
  - destruct left as [|left]; [lia|].
    cbn [ElementWait.attempts]. unfold bind, called, modify, ret.
    pose proof (Hnone attempt ltac:(lia)) as Hhere.
    unfold ElementWait.found in Hhere.
    change (seq attempt (S (S k))) with (attempt :: seq (S attempt) (S k)).
    cbn [flat_map]. unfold ElementWait.attempt_calls at 1.
    replace (attempt + S k)%nat with (S attempt + k)%nat in Hfound by lia.
    destruct (waitForSelector attempt) as [el| |message]; [discriminate|..].
    + rewrite (IH left (S attempt)); [now rewrite <- app_assoc|lia|exact Hfound|].
      intros i Hi. apply Hnone. lia.
    + destruct (attempt <? retries)%nat;
        (rewrite (IH left (S attempt));
         [now rewrite <- !app_assoc|lia|exact Hfound|]);
        intros i Hi; apply Hnone; lia.
Qed.

(** X16. The function returns the element of the first attempt that finds one,
    and makes no attempt after it: it has waited for the selector once per
    attempt so far, each time with the timeout divided by the number of
    retries, and it has paused for the poll interval behind each attempt
    that was rejected, and behind no attempt that resolved to null. *)
Theorem first_found_element_is_returned (calls : list call) (k : nat)
  (element : nat) :
  (k < retries)%nat ->
  waitForSelector (S k) = Found element ->
  (forall i, (1 <= i <= k)%nat -> found i = false) ->
  waitForElementSafe waitForSelector pollInterval selector timeout retries calls
  = (inr element, calls ++ flat_map attempt_calls (seq 1 (S k)))
  /\ attempt_calls (S k)
     = [WaitForSelector (div timeout (of_Z (Z.of_nat retries)))]
  /\ forall i, waitForSelector i = Null ->
       attempt_calls i
       = [WaitForSelector (div timeout (of_Z (Z.of_nat retries)))].
Proof.
  intros Hk Hfound Hnone. split; [|split].
  - unfold waitForElementSafe. apply attempts_find; [exact Hk|exact Hfound|].
    intros i Hi. apply Hnone. lia.
  - unfold ElementWait.attempt_calls. now rewrite Hfound.
  - intros i Hi. unfold ElementWait.attempt_calls. now rewrite Hi.
Qed.

(** X17. When no attempt finds an element the function throws after [retries]
    attempts, and it does not pause behind the last one. The message names
    the selector and the number of attempts, and ends with the message of
    the last rejection, or with "Unknown error" when that rejection has no
    message or when every attempt resolved to null. With no retries at all
    it throws at once and leaves the page alone. *)
Theorem gives_up_after_retries (calls : list call) :
  (forall i, (1 <= i <= retries)%nat -> found i = false) ->
  waitForElementSafe waitForSelector pollInterval selector timeout retries calls
  = (inl (failure (last_rejection 1 retries None)),
     calls ++ flat_map attempt_calls (seq 1 retries))
  /\ attempt_calls retries
     = [WaitForSelector (div timeout (of_Z (Z.of_nat retries)))]
  /\ ((forall i, (1 <= i <= retries)%nat -> waitForSelector i = Null) ->
      last_rejection 1 retries None = None
      /\ flat_map attempt_calls (seq 1 retries)
         = replicate retries
             (WaitForSelector (div timeout (of_Z (Z.of_nat retries)))))
  /\ (forall message,
        (0 < retries)%nat -> waitForSelector retries = Rejected message ->
        last_rejection 1 retries None = message)
  /\ (retries = 0%nat ->
      waitForElementSafe waitForSelector pollInterval selector timeout retries
        calls
      = (inl (failure None), calls)).
Proof.
  intros Hnone. split; [|split; [|split; [|split]]].
  - unfold waitForElementSafe. apply attempts_fail.
    intros i Hi. apply Hnone. lia.
  - unfold ElementWait.attempt_calls. rewrite Nat.ltb_irrefl.
    now destruct (waitForSelector retries).
  - intros Hnull.
    assert (Hgen : forall n from init,
              (forall i, (from <= i < from + n)%nat -> waitForSelector i = Null) ->
              last_rejection from n init = init
              /\ flat_map attempt_calls (seq from n)
                 = replicate n
                     (WaitForSelector (div timeout (of_Z (Z.of_nat retries))))).
    { induction n as [|n IH]; intros from init Hall; [split; reflexivity|].
      cbn [ElementWait.last_rejection seq flat_map replicate].
      unfold ElementWait.attempt_calls at 1.
      rewrite (Hall from) by lia.
      destruct (IH (S from) init) as [-> ->]; [|split; reflexivity].
      intros i Hi. apply Hall. lia. }
    apply Hgen. intros i Hi. apply Hnull. lia.
  - intros message Hpos Hlast.
    assert (Hgen : forall n from init,
              waitForSelector (from + n) = Rejected message ->
              last_rejection from (S n) init = message).
    { induction n as [|n IH]; intros from init Hrej.
      - rewrite Nat.add_0_r in Hrej. cbn. now rewrite Hrej.
      - change (last_rejection from (S (S n)) init)
          with (last_rejection (S from) (S n)
                  match waitForSelector from with
                  | Rejected m => m
                  | _ => init
                  end).
        apply IH. now replace (S from + n)%nat with (from + S n)%nat by lia. }
    destruct retries as [|n]; [lia|]. apply Hgen.
    now replace (1 + n)%nat with (S n) by lia.
  - intros ->. reflexivity.
Qed.

End Wait.

Lemma first_found_element_is_returned_witness :
  let page := fun i => if Nat.eqb i 1 then Rejected (Some (lit "timeout"))
                       else if Nat.eqb i 2 then Null else Found 7 in
  waitForElementSafe page (of_Z 100) (lit "#app") (of_Z 9000) 3 []
  = (inr 7%nat,
     [WaitForSelector (of_Z 3000); WaitForTimeout (of_Z 100);
      WaitForSelector (of_Z 3000); WaitForSelector (of_Z 3000)]).
Proof.
  intros page.
  apply (first_found_element_is_returned page (of_Z 100) (lit "#app") (of_Z 9000)
           3 [] 2 7).
  - lia.
  - reflexivity.
  - intros [|[|[|i]]] Hi; try lia; reflexivity.
Defined.

Lemma gives_up_after_retries_witness :
  waitForElementSafe (fun _ => Null) (of_Z 100) (lit "#app") (of_Z 9000) 3 []
  = (inl (lit "Failed to find element " ++ [34%N] ++ lit "#app" ++ [34%N]
            ++ lit " after 3 attempts: Unknown error"),
     [WaitForSelector (of_Z 3000); WaitForSelector (of_Z 3000);
      WaitForSelector (of_Z 3000)]).
Proof.
  apply (gives_up_after_retries (fun _ => Null) (of_Z 100) (lit "#app")
           (of_Z 9000) 3 []).
  reflexivity.
Defined.

End ElementWaitFacts.

(** ** Typing into a field *)

Module TypingFacts.
Import JsString Js Typing RegexFacts.

(** X18. [typeTextSafe] touches the element only with an element and a text
    that is not empty, clears it before it types, and does not type when
    the clearing is rejected. It returns exactly when both calls went
    through. Without an element, or without such a text, it throws "Cannot
    type into" with the name of the field and the reason, and nothing was
    done to the element; when [clear] or [type] rejects, it throws "Failed
    to type into" with the name of the field and the message of the
    rejection, after the calls made so far. *)
Theorem typing_is_guarded (element : option Element) (text : option jsstr)
  (fieldName : jsstr) (calls : list call) :
  let r := typeTextSafe element text fieldName calls in
  (r.1 = inr tt <->
   exists el c t,
     element = Some el /\ text = Some (c :: t)
     /\ clear_rejects el = None /\ type_rejects el = None)
  /\ (element = None ->
      r = (inl (lit "Cannot type into " ++ fieldName
                  ++ lit ": element is null or undefined"), calls))
  /\ (element <> None -> truthy text = false ->
      r = (inl (lit "Cannot type into " ++ fieldName
                  ++ lit ": text must be a non-empty string"), calls))
  /\ (forall el t,
        element = Some el -> text = Some t -> t <> [] ->
        r = match clear_rejects el, type_rejects el with
            | Some message, _ =>
                (inl (lit "Failed to type into " ++ fieldName ++ lit ": "
                        ++ printed message), calls ++ [Clear])
            | None, Some message =>
                (inl (lit "Failed to type into " ++ fieldName ++ lit ": "
                        ++ printed message), calls ++ [Clear; Type_ t 50])
            | None, None => (inr tt, calls ++ [Clear; Type_ t 50])
            end).
Proof.
  intros r. subst r. unfold typeTextSafe, throw, bind, invoke.
  split; [|split; [|split]].
  - destruct element as [[clear type]|]; cbn [clear_rejects type_rejects].
    + destruct text as [[|c t]|]; cbn [fst snd].
      * split; [discriminate | intros (? & ? & ? & _ & [=] & _)].
      * destruct clear as [m|]; [|destruct type as [m|]]; cbn [fst snd].
        -- split; [discriminate | intros (? & ? & ? & [= <-] & _ & [=] & _)].
        -- split; [discriminate | intros (? & ? & ? & [= <-] & _ & _ & [=])].
        -- split; [intros _; eexists _, _, _; repeat split | reflexivity].
      * split; [discriminate | intros (? & ? & ? & _ & [=] & _)].
    + split; [discriminate | intros (? & ? & ? & [=] & _)].
  - intros ->. reflexivity.
  - intros Hel Htext. destruct element as [el|]; [|congruence].
    now destruct text as [[|c t]|].
  - intros el t -> -> Ht. destruct t as [|c t]; [congruence|].
    destruct el as [clear type]; cbn [clear_rejects type_rejects].
    destruct clear as [m|]; [|destruct type as [m|]]; cbn [fst snd];
      rewrite <- ?app_assoc; reflexivity.
Qed.

Lemma typing_is_guarded_witness :
  typeTextSafe (Some (MkElement None (Some (Some (lit "detached")))))
    (Some (lit "k6")) (lit "search box") []
  = (inl (lit "Failed to type into search box: detached"),
     [Clear; Type_ (lit "k6") 50]).
Proof.
  pose proof (typing_is_guarded (Some (MkElement None (Some (Some (lit "detached")))))
                (Some (lit "k6")) (lit "search box") []) as H.
  cbv zeta in H. destruct H as (_ & _ & _ & H).
  apply (H _ _ eq_refl eq_refl). discriminate.
Defined.

End TypingFacts.

(** ** Waiting for a text to show *)

Module TextVisibilityFacts.
Import JsString JsNumber TextVisibility.

Section Check.
Variable document : Document.
Variable targetText : jsstr.
Variable maxTimeout : Z.
Variable startTime : Z.

#[local] Abbreviation checkText := (checkText document targetText maxTimeout startTime).
#[local] Abbreviation visible t := (existsb (shown targetText) (body document t)).

Lemma checkText_sound timers now b t :
  checkText timers now = Some (b, t) ->
  now <= t
  /\ if b then t - startTime <= maxTimeout /\ visible t = true
     else maxTimeout < t - startTime.
Proof.
  revert now; induction timers as [|timers IH]; intros now; cbn [TextVisibility.checkText].
  - destruct (maxTimeout <? now - startTime) eqn:E.
    + intros [= <- <-]. apply Z.ltb_lt in E. lia.
    + destruct (visible now) eqn:V; [|discriminate].
      intros [= <- <-]. apply Z.ltb_ge in E. repeat split; [lia|lia|exact V].
  - destruct (maxTimeout <? now - startTime) eqn:E.
    + intros [= <- <-]. apply Z.ltb_lt in E. lia.
    + destruct (visible now) eqn:V.
      * intros [= <- <-]. apply Z.ltb_ge in E. repeat split; [lia|lia|exact V].
      * intros H. apply IH in H as [Hle H]. split; [lia | exact H].
Qed.

Lemma checkText_total timers now :
  maxTimeout - (now - startTime) < 100 * Z.of_nat timers ->
  exists r, checkText timers now = Some r.
Proof.
  revert now; induction timers as [|timers IH]; intros now Hfuel;
    cbn [TextVisibility.checkText].
  - destruct (maxTimeout <? now - startTime) eqn:E; [eauto|].
    apply Z.ltb_ge in E. lia.
  - destruct (maxTimeout <? now - startTime); [eauto|].
    destruct (visible now); [eauto|]. apply IH. lia.
Qed.

(** X14. The wait always answers, and it rejects nothing: false when the
    evaluation in the page throws; true only for a text that it saw shown
    (in a text node whose parent element has a size) at a check no later
    than the timeout; false only at a check later than the timeout. *)
Theorem text_wait_answers :
  waitForTextVisibility true document targetText maxTimeout startTime = Some false
  /\ exists b t,
       evaluate document targetText maxTimeout startTime = Some (b, t)
       /\ waitForTextVisibility false document targetText maxTimeout startTime
          = Some b
       /\ startTime <= t
       /\ if b then t - startTime <= maxTimeout /\ visible t = true
          else maxTimeout < t - startTime.
Proof.
  split; [reflexivity|].
  unfold waitForTextVisibility, evaluate.
  destruct (checkText_total (S (Z.to_nat (maxTimeout / 100))) startTime)
    as [[b t] Hr].
  { pose proof (Z.div_mod maxTimeout 100 ltac:(lia)).
    pose proof (Z.mod_pos_bound maxTimeout 100 ltac:(lia)).
    destruct (Z_lt_le_dec maxTimeout 0); [lia|].
    rewrite Nat2Z.inj_succ, Z2Nat.id by (apply Z.div_pos; lia). lia. }
  exists b, t. rewrite Hr. split; [reflexivity|]. split; [reflexivity|].
  now apply checkText_sound in Hr.
Qed.

Hypothesis exact_timers : forall t, late document t = 0%nat.

Lemma checkText_exact timers i k :
  0 <= i <= k ->
  100 * k <= maxTimeout ->
  k - i <= Z.of_nat timers ->
  visible (startTime + 100 * k) = true ->
  (forall j, i <= j < k -> visible (startTime + 100 * j) = false) ->
  checkText timers (startTime + 100 * i) = Some (true, startTime + 100 * k).
Proof.
  revert i; induction timers as [|timers IH]; intros i Hik Hk Hfuel Hshown Hnot;
    cbn [TextVisibility.checkText].
  - assert (i = k) as -> by lia.
    replace (maxTimeout <? startTime + 100 * k - startTime) with false
      by (symmetry; apply Z.ltb_ge; lia).
    now rewrite Hshown.
  - replace (maxTimeout <? startTime + 100 * i - startTime) with false
      by (symmetry; apply Z.ltb_ge; lia).
    destruct (Z.eq_dec i k) as [->|Hne]; [now rewrite Hshown|].
    rewrite (Hnot i) by lia. rewrite exact_timers.
    replace (startTime + 100 * i + 100 + Z.of_nat 0)
      with (startTime + 100 * (i + 1)) by lia.
    apply IH; try lia; [exact Hshown|]. intros j Hj. apply Hnot. lia.
Qed.

Lemma checkText_expires timers i :
  0 <= i ->
  maxTimeout / 100 + 1 - i <= Z.of_nat timers ->
  0 <= maxTimeout ->
  (forall j, i <= j <= maxTimeout / 100 -> visible (startTime + 100 * j) = false) ->
  checkText timers (startTime + 100 * i)
  = Some (false, startTime + 100 * Z.max i (maxTimeout / 100 + 1)).
Proof.
  intros Hi Hfuel Hmax.
  pose proof (Z.div_mod maxTimeout 100 ltac:(lia)) as Hdiv.
  pose proof (Z.mod_pos_bound maxTimeout 100 ltac:(lia)) as Hmod.
  revert i Hi Hfuel; induction timers as [|timers IH]; intros i Hi Hfuel Hnot;
    cbn [TextVisibility.checkText].
  - replace (maxTimeout <? startTime + 100 * i - startTime) with true
      by (symmetry; apply Z.ltb_lt; lia).
    do 3 f_equal. lia.
  - destruct (maxTimeout <? startTime + 100 * i - startTime) eqn:E.
    + apply Z.ltb_lt in E. do 3 f_equal. lia.
    + apply Z.ltb_ge in E. rewrite (Hnot i) by lia. rewrite exact_timers.
      replace (startTime + 100 * i + 100 + Z.of_nat 0)
        with (startTime + 100 * (i + 1)) by lia.
      rewrite IH by (try lia; intros j Hj; apply Hnot; lia).
      do 3 f_equal. lia.
Qed.

(** X15. With exact timers the text is looked for every 100 ms from the start,
    the check at the timeout included when it falls on it. The wait answers
    true at the first check that sees the text shown, and it answers false,
    at the first check after the timeout, when none up to the timeout does:
    a text that shows only between two checks, or only after the timeout,
    is not seen. *)
Theorem text_is_sampled_every_100ms :
  (forall k,
     0 <= k -> 100 * k <= maxTimeout ->
     visible (startTime + 100 * k) = true ->
     (forall j, 0 <= j < k -> visible (startTime + 100 * j) = false) ->
     evaluate document targetText maxTimeout startTime
     = Some (true, startTime + 100 * k))
  /\ (0 <= maxTimeout ->
      (forall j, 0 <= j -> 100 * j <= maxTimeout ->
         visible (startTime + 100 * j) = false) ->
      evaluate document targetText maxTimeout startTime
      = Some (false, startTime + 100 * (maxTimeout / 100 + 1)))
  /\ (maxTimeout < 0 ->
      evaluate document targetText maxTimeout startTime = Some (false, startTime)).
Proof.
  pose proof (Z.div_mod maxTimeout 100 ltac:(lia)) as Hdiv.
  pose proof (Z.mod_pos_bound maxTimeout 100 ltac:(lia)) as Hmod.
  split; [|split].
  - intros k Hk Hmax Hshown Hnot. unfold evaluate.
    assert (H0 : startTime = startTime + 100 * 0) by lia. rewrite H0 at 2. clear H0.
    apply checkText_exact; try lia; [exact Hshown|exact Hnot].
  - intros Hmax Hnot. unfold evaluate.
    assert (H0 : startTime = startTime + 100 * 0) by lia. rewrite H0 at 2. clear H0.
    rewrite checkText_expires; try lia.
    + do 3 f_equal. lia.
    + intros j Hj. apply Hnot; lia.
  - intros Hneg. unfold evaluate. cbn [TextVisibility.checkText].
    replace (maxTimeout <? startTime - startTime) with true
      by (symmetry; apply Z.ltb_lt; lia).
    reflexivity.
Qed.

End Check.

Lemma text_is_sampled_every_100ms_witness :
  let box := MkBox 120 16 (of_Z 120) (of_Z 16) in
  let document :=
    MkDocument
      (fun t => if 1700000000250 <=? t
                then [MkText (lit "Sign in") None; MkText (lit "Google Search") (Some box)]
                else [MkText (lit "Sign in") (Some box)])
      (fun _ => 0%nat) in
  evaluate document (lit "Google") 2000 1700000000000
  = Some (true, 1700000000300).
Proof.
  intros box document.
  apply (proj1 (text_is_sampled_every_100ms document (lit "Google") 2000
                  1700000000000 (fun _ => eq_refl)) 3); try lia.
  - reflexivity.
  - intros j Hj.
    assert (j = 0 \/ j = 1 \/ j = 2) as [->|[->| ->]] by lia; reflexivity.
Defined.

End TextVisibilityFacts.

(** ** The network report *)

Module NetworkReportFacts.
Import JsString Screenshot Network NetworkReport.

Lemma insert_desc_perm x l : insert_desc x l ≡ₚ x :: l.
Proof.
  induction l as [|y l IH]; cbn; [reflexivity|].
  destruct (responseTime y <=? responseTime x); [reflexivity|].
  rewrite IH. apply Permutation_swap.
Qed.

Lemma sort_desc_perm l : sort_desc l ≡ₚ l.
Proof.
  induction l as [|x l IH]; cbn; [reflexivity|].
  rewrite insert_desc_perm. now rewrite IH.
Qed.

Lemma insert_desc_sorted x l :
  StronglySorted no_faster l -> StronglySorted no_faster (insert_desc x l).
Proof.
  induction 1 as [|y l Hl IH Hy]; cbn; [repeat constructor|].
  destruct (responseTime y <=? responseTime x) eqn:E.
  - apply Z.leb_le in E. constructor; [now constructor|].
    constructor; [exact E|].
    eapply Forall_impl; [exact Hy|]. unfold no_faster. intros z Hz. lia.
  - apply Z.leb_gt in E. constructor; [exact IH|].
    rewrite insert_desc_perm. constructor; [unfold no_faster; lia | exact Hy].
Qed.

Lemma sort_desc_sorted l : StronglySorted no_faster (sort_desc l).
Proof.
  induction l as [|x l IH]; cbn; [constructor|]. now apply insert_desc_sorted.
Qed.

Lemma filter_length_perm (p : LogEntry -> bool) l l' :
  l ≡ₚ l' -> length (List.filter p l) = length (List.filter p l').
Proof.
  induction 1 as [|x l l' _ IH|x y l|l l' l'' _ IH1 _ IH2]; cbn.
  - reflexivity.
  - destruct (p x); cbn; now rewrite IH.
  - now destruct (p x), (p y).
  - now rewrite IH1.
Qed.

Lemma sorted_filter (p : LogEntry -> bool) l :
  StronglySorted no_faster l -> StronglySorted no_faster (List.filter p l).
Proof.
  induction 1 as [|y l Hl IH Hy]; cbn; [constructor|].
  destruct (p y); [|exact IH]. constructor; [exact IH|].
  apply Forall_forall. intros z Hz.
  apply list_elem_of_In, List.filter_In in Hz as [Hz _].
  rewrite Forall_forall in Hy. apply Hy. now apply list_elem_of_In.
Qed.

Lemma sorted_app_inv l1 l2 :
  StronglySorted no_faster (l1 ++ l2) ->
  StronglySorted no_faster l1
  /\ forall a b, a ∈ l1 -> b ∈ l2 -> no_faster a b.
Proof.
  induction l1 as [|x l1 IH]; cbn; intros H.
  - split; [constructor|]. intros a b Ha. now apply elem_of_nil in Ha.
  - apply StronglySorted_inv in H as [H Hx]. destruct (IH H) as [Hs Hab].
    apply Forall_app in Hx as [Hx1 Hx2]. split; [now constructor|].
    intros a b Ha Hb. apply elem_of_cons in Ha as [->|Ha]; [|now apply Hab].
    rewrite Forall_forall in Hx2. now apply Hx2.
Qed.

(** What [indexOf] finds: the first place where the text reads [t]. *)
Lemma indexOf_includes s t :
  includes s t = true ->
  exists i, indexOf s t = Some i /\ prefixb t (drop i s) = true.
Proof.
  induction s as [|c s IH]; cbn [includes indexOf].
  - destruct (prefixb t []) eqn:E; [|discriminate]. intros _. now exists 0%nat.
  - destruct (prefixb t (c :: s)) eqn:E; [intros _; now exists 0%nat|].
    cbn [orb]. intros H. destruct (IH H) as (i & -> & Hi). now exists (S i).
Qed.

Lemma truncatedUrl_api log :
  is_api log = true ->
  prefixb (lit "/api/") (truncatedUrl log) = true
  /\ exists front, url log = front ++ truncatedUrl log.
Proof.
  unfold is_api, truncatedUrl. intros H.
  destruct (indexOf_includes _ _ H) as (i & -> & Hi). split; [exact Hi|].
  exists (take i (url log)). now rewrite take_drop.
Qed.

(** X22. What the report adds to the [api_response_time] trend: at most ten
    samples, one for each of the slowest requests of the log whose URL has
    [/api/] in it, the slowest first; a request of that kind that is left
    out is no slower than any that is sampled. The [url] tag of a sample is
    the URL of the request from its first [/api/] on (the fallback on the
    whole URL, line 920, is never taken). *)
Theorem slowest_api_requests_are_sampled (networkLogs : list LogEntry) :
  length (api_samples networkLogs)
  = Nat.min 10 (length (List.filter is_api networkLogs))
  /\ api_samples networkLogs
     = List.map (fun log => (responseTime log, truncatedUrl log)) (listed networkLogs)
  /\ StronglySorted no_faster (listed networkLogs)
  /\ (forall log, log ∈ listed networkLogs ->
        log ∈ networkLogs
        /\ is_api log = true
        /\ prefixb (lit "/api/") (truncatedUrl log) = true
        /\ exists front, url log = front ++ truncatedUrl log)
  /\ (forall log, log ∈ networkLogs -> is_api log = true ->
        log ∈ listed networkLogs
        \/ forall sampled, sampled ∈ listed networkLogs -> no_faster sampled log).
Proof.
  assert (Hsorted : StronglySorted no_faster (apiRequests networkLogs))
    by apply sorted_filter, sort_desc_sorted.
  assert (Hsplit : apiRequests networkLogs
                   = listed networkLogs ++ drop 10 (apiRequests networkLogs))
    by (unfold listed; now rewrite take_drop).
  rewrite Hsplit in Hsorted. apply sorted_app_inv in Hsorted as [Hlisted Hrest].
  assert (Hin : forall log, log ∈ apiRequests networkLogs <->
                            log ∈ networkLogs /\ is_api log = true).
  { intros log. unfold apiRequests.
    rewrite list_elem_of_In, List.filter_In, <- list_elem_of_In.
    now rewrite sort_desc_perm. }
  split; [|split; [reflexivity|split; [exact Hlisted|split]]].
  - unfold api_samples, listed, apiRequests.
    rewrite length_map, length_take. f_equal.
    apply filter_length_perm, sort_desc_perm.
  - intros log Hlog.
    assert (Hapi : log ∈ apiRequests networkLogs)
      by (rewrite Hsplit; apply elem_of_app; now left).
    apply Hin in Hapi as [Hlogs Hapi]. split; [exact Hlogs|]. split; [exact Hapi|].
    now apply truncatedUrl_api.
  - intros log Hlogs Hapi.
    assert (Hreq : log ∈ apiRequests networkLogs) by now apply Hin.
    rewrite Hsplit in Hreq. apply elem_of_app in Hreq as [Hreq|Hreq]; [now left|].
    right. intros sampled Hs. now apply Hrest.
Qed.

Lemma slowest_api_requests_are_sampled_witness :
  let slow := MkLog (lit "GET") (lit "https://example.test/api/items") 120 200 in
  let fast := MkLog (lit "POST") (lit "https://example.test/api/login") 80 201 in
  let page := MkLog (lit "GET") (lit "https://example.test/index.html") 300 200 in
  api_samples [fast; page; slow]
  = [(120, lit "/api/items"); (80, lit "/api/login")]
  /\ is_api slow = true.
Proof.
  intros slow fast page.
  pose proof (slowest_api_requests_are_sampled [fast; page; slow])
    as (_ & Hsamples & _ & Hlisted & _).
  split; [exact Hsamples|].
  apply (Hlisted slow). vm_compute. left.
Defined.

Section Logged.
Variable toUpperCase : jsstr -> jsstr.

Lemma deliver_logged st e :
  Forall (fun log => method log ∈ apiMethods) (networkLogs st) ->
  Forall (fun log => method log ∈ apiMethods)
    (networkLogs (deliver toUpperCase st e)).
Proof.
  intros H. destruct e as [t req|t res]; cbn [deliver].
  - unfold on_request. destruct (req_method req); [|exact H].
    now destruct (tracked toUpperCase req).
  - unfold on_response. destruct (req_method (res_request res)) as [m|] eqn:Hm;
      [|exact H].
    destruct (tracked toUpperCase (res_request res)) eqn:Ht; [|exact H].
    destruct (requestTimings st !! _); [|exact H].
    cbn [networkLogs]. apply Forall_app. split; [exact H|].
    constructor; [|constructor]. cbn [method].
    unfold tracked in Ht. rewrite Hm in Ht. now apply bool_decide_eq_true in Ht.
Qed.

Lemma observe_logged networkLogging events :
  Forall (fun log => method log ∈ apiMethods)
    (networkLogs (observe toUpperCase networkLogging events)).
Proof.
  unfold observe. destruct networkLogging; [|constructor].
  unfold deliver_all. generalize initial (Forall_nil_2 (fun log => method log ∈ apiMethods)
                                            : Forall _ (networkLogs initial)).
  induction events as [|e events IH]; intros st Hst; [exact Hst|].
  cbn [fold_left]. apply IH. now apply deliver_logged.
Qed.

Lemma padEnd_length n s : length (padEnd n s) = Nat.max n (length s).
Proof. unfold padEnd. rewrite length_app, length_replicate. lia. Qed.

Lemma padStart_length n s : length (padStart n s) = Nat.max n (length s).
Proof. unfold padStart. rewrite length_app, length_replicate. lia. Qed.

(** X23. The rows of the table are aligned. The column of the URL is 68
    characters wide in every row: a shorter URL is padded, and a longer one
    is cut to its first 65 characters and three dots. The column of the
    method is 6 wide for every entry that the listeners can have logged,
    since they log the five tracked methods only. The response time and the
    status are right-aligned in 12 and 6 characters, and wider only when the
    number itself is. *)
Theorem report_rows_are_aligned (networkLogging : bool) (events : list event) :
  let networkLogs := networkLogs (observe toUpperCase networkLogging events) in
  Forall (fun r => length (cell_method r) = 6%nat /\ length (cell_url r) = 68%nat)
    (rows networkLogs)
  /\ (forall log,
        length (cell_url (row log)) = 68%nat
        /\ ((68 < length (truncatedUrl log))%nat ->
            cell_url (row log) = take 65 (truncatedUrl log) ++ lit "...")
        /\ length (cell_responseTime (row log))
           = Nat.max 12 (length (String_of (responseTime log)))
        /\ length (cell_status (row log))
           = Nat.max 6 (length (if status log =? 0 then []
                                else String_of (status log)))).
Proof.
  intros logs.
  assert (Hurl : forall log, length (cell_url (row log)) = 68%nat).
  { intros log. unfold row. cbn [cell_url].
    destruct (68 <? length (truncatedUrl log))%nat eqn:E.
    - apply Nat.ltb_lt in E. rewrite length_app, length_take.
      change (length (lit "...")) with 3%nat. lia.
    - apply Nat.ltb_ge in E. rewrite padEnd_length. lia. }
  split.
  - unfold rows. apply Forall_map, Forall_forall. intros log Hlog.
    split; [|apply Hurl].
    assert (Hm : method log ∈ apiMethods).
    { pose proof (observe_logged networkLogging events) as Hall.
      rewrite Forall_forall in Hall. apply Hall.
      assert (Hreq : log ∈ apiRequests logs).
      { rewrite <- (take_drop 10 (apiRequests logs)). apply elem_of_app. now left. }
      unfold apiRequests in Hreq. clear Hlog.
      apply list_elem_of_In, List.filter_In in Hreq as [Hlog _].
      apply list_elem_of_In in Hlog.
      now rewrite sort_desc_perm in Hlog. }
    unfold row. cbn [cell_method]. rewrite padEnd_length.
    unfold apiMethods in Hm.
    repeat (apply elem_of_cons in Hm as [->|Hm]; [reflexivity|]).
    now apply elem_of_nil in Hm.
  - intros log. split; [apply Hurl|]. split; [|split].
    + intros H. unfold row. cbn [cell_url].
      now replace (68 <? length (truncatedUrl log))%nat with true
        by (symmetry; now apply Nat.ltb_lt).
    + apply padStart_length.
    + apply padStart_length.
Qed.

End Logged.

Lemma report_rows_are_aligned_witness :
  let long :=
    lit "https://example.test/api/v1/accounts/00000000-0000-0000-0000-000000000000/orders?expand=items" in
  cell_url (row (MkLog (lit "GET") long 120 200))
  = lit "/api/v1/accounts/00000000-0000-0000-0000-000000000000/orders?expa...".
Proof.
  intros long.
  rewrite (proj1 (proj2 (proj2 (report_rows_are_aligned ascii_upper true [])
                           (MkLog (lit "GET") long 120 200))))
    by (apply Nat.ltb_lt; reflexivity).
  reflexivity.
Defined.

End NetworkReportFacts.

(** ** The measurements *)

Module MeasureFacts.
Import JsString JsNumber Config Screenshot Network NetworkReport Js Measure.

Ltac run_measure :=
  unfold measureReactPagePerformance, measureReactComponentPerformance,
    try_catch, bind, Date_now, await, add, takeScreenshot, modify, ret, throw,
    set_now;
  cbn [now samples shots fst snd].

Lemma page_samples (cfg : config) (page : Page) (w : World) :
  let r := measureReactPagePerformance cfg page w in
  samples r.2
  = samples w
    ++ match r.1 with
       | inr timings =>
           [MkSample domContentLoadedTime (domContentLoaded timings) None;
            MkSample networkIdleTime (networkIdle timings) None;
            MkSample mainPageLoadTime (total timings) None]
       | inl _ => []
       end.
Proof.
  intros r. subst r. run_measure.
  destruct (waitForLoadState_domcontentloaded page _) as [[message|] d];
    cbn [now samples shots fst snd]; [now rewrite app_nil_r|].
  destruct (waitForLoadState_networkidle page _ _) as [[idle_message|] i];
    cbn [now samples shots fst snd]; now rewrite <- !app_assoc.
Qed.

(** X20. The page measurement records its three trends whenever the wait for
    [domcontentloaded] returns, whether the network goes idle or not: a
    wait for [networkidle] that throws is only logged, its duration (the
    whole timeout) counts in the network-idle time and in the page load
    time, and the screenshot is marked partial. The three values are not
    negative and the load time is at least the sum of the other two. When
    the wait for [domcontentloaded] throws, nothing is recorded, the
    screenshot is marked fail and the error is thrown again. *)
Theorem page_measurement (cfg : config) (page : Page) (w : World) :
  let r := measureReactPagePerformance cfg page w in
  match r.1 with
  | inr timings =>
      samples r.2
      = samples w
        ++ [MkSample domContentLoadedTime (domContentLoaded timings) None;
            MkSample networkIdleTime (networkIdle timings) None;
            MkSample mainPageLoadTime (total timings) None]
      /\ shots r.2
         = shots w
           ++ [MkShot page_test (if networkIdleSuccess timings then pass else partial)]
      /\ 0 <= domContentLoaded timings
      /\ 0 <= networkIdle timings
      /\ domContentLoaded timings + networkIdle timings <= total timings
      /\ total timings <= now r.2 - now w
  | inl message =>
      samples r.2 = samples w
      /\ shots r.2 = shots w ++ [MkShot page_test fail]
  end
  /\ ((forall t, (waitForLoadState_domcontentloaded page t).1 = None) ->
      exists timings,
        r.1 = inr timings
        /\ ((forall timeout t,
               (waitForLoadState_networkidle page timeout t).1 <> None) ->
            networkIdleSuccess timings = false))
  /\ (forall message,
        (forall t, (waitForLoadState_domcontentloaded page t).1 = Some message) ->
        r.1 = inl message).
Proof.
  intros r. subst r. run_measure.
  set (t0 := now w + Z.of_nat (lag page (now w))).
  set (t1 := t0 + Z.of_nat (lag page t0)).
  destruct (waitForLoadState_domcontentloaded page t1) as [[message|] d] eqn:Hdom;
    cbn [now samples shots fst snd].
  - split; [split; reflexivity|]. split.
    + intros Hok. specialize (Hok t1). rewrite Hdom in Hok. discriminate.
    + intros m Hm. specialize (Hm t1). rewrite Hdom in Hm. cbn in Hm. congruence.
  - set (t2 := t1 + Z.of_nat d + Z.of_nat (lag page (t1 + Z.of_nat d))).
    set (t3 := t2 + Z.of_nat (lag page t2)).
    destruct (waitForLoadState_networkidle page (networkidle_timeout cfg) t3)
      as [[idle_message|] i] eqn:Hidle; cbn [now samples shots fst snd].
    + split; [|split].
      * rewrite <- !app_assoc. cbn [app domContentLoaded networkIdle total
                                      networkIdleSuccess].
        repeat split; try lia.
      * intros _. eexists. split; [reflexivity|]. reflexivity.
      * intros m Hm. specialize (Hm t1). rewrite Hdom in Hm. discriminate.
    + split; [|split].
      * rewrite <- !app_assoc. cbn [app domContentLoaded networkIdle total
                                      networkIdleSuccess].
        repeat split; try lia.
      * intros _. eexists. split; [reflexivity|].
        intros Hnever. specialize (Hnever (networkidle_timeout cfg) t3).
        rewrite Hidle in Hnever. cbn in Hnever. congruence.
      * intros m Hm. specialize (Hm t1). rewrite Hdom in Hm. discriminate.
Qed.

Lemma page_measurement_witness :
  let page :=
    MkPage (fun _ => 0%nat) (fun _ => (None, 0%nat)) (fun _ => (None, 120%nat))
      (fun _ _ => (Some (lit "Timeout 4000ms exceeded"), 4000%nat)) in
  let r := measureReactPagePerformance (CONFIG ∅) page (MkWorld 1700000000000 [] []) in
  (exists timings, r.1 = inr timings /\ networkIdleSuccess timings = false)
  /\ r.1 = inr (MkTimings 120 4000 4120 false).
Proof.
  intros page r. split; [|vm_compute; reflexivity].
  pose proof (page_measurement (CONFIG ∅) page (MkWorld 1700000000000 [] [])) as H.
  cbv zeta in H. destruct H as (_ & H & _).
  destruct (H (fun _ => eq_refl)) as (timings & Hr & Hidle).
  exists timings. split; [exact Hr|]. apply Hidle. discriminate.
Defined.

Lemma join_elem (sep x : jsstr) (l : list jsstr) :
  x ∈ l -> exists p q, join sep l = p ++ x ++ q.
Proof.
  induction l as [|y l IH]; intros Hx; [now apply elem_of_nil in Hx|].
  apply elem_of_cons in Hx as [->|Hx].
  - destruct l as [|z l]; [exists [], []; cbn; now rewrite app_nil_r|].
    exists [], (sep ++ join sep (z :: l)). reflexivity.
  - destruct (IH Hx) as (p & q & Hj). destruct l as [|z l].
    + now apply elem_of_nil in Hx.
    + exists (y ++ sep ++ p), q. cbn [join] in *. rewrite Hj.
      now rewrite <- !app_assoc.
Qed.

(** X19. The component measurement succeeds exactly when the readiness poller
    left its loop ready (paint completed, which implies every other check):
    it then records the load time of the poller as the one sample of
    [subcomponent_load_time], takes the screenshot marked pass and returns
    that load time. When the poller timed out, no sample is recorded (so
    the summary of k6 has no line for the trend), the screenshot is marked
    fail, and the error that is thrown names the paint check among the
    failed ones; the load time of the state is then not below the timeout.
    The poller returns, so that one of the two happens, when the timeout is
    not [+Infinity] and the clock moves on during every wait. With the
    timeout [+Infinity] and a component that never gets visible the poller
    does not return, and nothing is measured. *)
Theorem component_measurement (page : Poller.Page) (pollInterval : spec_float)
  (expectedText : option jsstr) (timeout : spec_float) (startTime : Z)
  (selector : jsstr) (w : World) :
  (forall fuel s,
     Poller.waitForReactComponentReady fuel page pollInterval expectedText
       timeout startTime = Some s ->
     let r := measureReactComponentPerformance s expectedText selector w in
     now r.2 = now w
     /\ if Poller.paintWorkCompleted s
        then r.1 = inr (Poller.loadTime s)
             /\ samples r.2
                = samples w ++ [MkSample subcomponentLoadTime (Poller.loadTime s) None]
             /\ shots r.2 = shots w ++ [MkShot component_test pass]
        else samples r.2 = samples w
             /\ shots r.2 = shots w ++ [MkShot component_test fail]
             /\ Poller.lt_int (Poller.loadTime s) timeout = false
             /\ exists message,
                  r.1 = inl message
                  /\ includes message (lit "Component paint work completed") = true)
  /\ (Checklist.ticking page ->
      timeout <> S754_infinity false ->
      forall fuel,
        (Z.to_nat (Checklist.ceiling timeout) <= fuel)%nat ->
        exists s,
          Poller.waitForReactComponentReady fuel page pollInterval expectedText
            timeout startTime = Some s)
  /\ (Checklist.never_visible page ->
      timeout = S754_infinity false ->
      forall fuel,
        Poller.waitForReactComponentReady fuel page pollInterval expectedText
          timeout startTime = None).
Proof.
  split; [|split].
  - intros fuel s Hs r. subst r.
    unfold Poller.waitForReactComponentReady, Poller.run in Hs.
    destruct (Poller.loop page pollInterval expectedText timeout startTime
                fuel (Poller.initialWorld startTime))
      as [w0|] eqn:Hloop; [|discriminate].
    cbn in Hs. injection Hs as <-.
    pose proof (PollerFacts.finish_fields startTime w0)
      as (_ & _ & Hp & Hv & He & Hi & Hc & Ht & Hl).
    set (s := Poller.componentState (Poller.finish startTime w0)) in *.
    destruct (PollerFacts.loop_exit _ _ _ _ _ _ _ _
                (PollerFacts.initial_invariant _ _ _) Hloop)
      as [[(Hstart & Hpaint & Hload & _) Hout]
         |(Hstart & Hpaint & Hload & (Hv1 & He1 & Hi1 & Hc1 & Ht1) & _)].
    + rewrite Hpaint in Hp. rewrite Hp.
      assert (Hfail : Poller.performReactComponentChecks s expectedText selector
                      <> inr tt).
      { intros Hpass. apply PollerFacts.performReactComponentChecks_passes in Hpass.
        destruct Hpass as (_ & _ & _ & Hpass & _). congruence. }
      assert (Hin : lit "Component paint work completed"
                    ∈ Poller.failedChecks s expectedText).
      { unfold Poller.failedChecks. rewrite Hp.
        rewrite !elem_of_app. right. right. right. left. constructor. }
      run_measure. unfold Poller.performReactComponentChecks in *.
      destruct (Poller.failedChecks s expectedText) as [|f fs] eqn:Hfailed;
        [congruence|].
      cbn [now samples shots fst snd].
      split; [reflexivity|]. split; [reflexivity|].
      split; [reflexivity|]. split.
      * rewrite Hl, Hload. cbn. exact Hout.
      * eexists. split; [reflexivity|].
        destruct (join_elem (lit ", ") _ _ Hin) as (p & q & ->).
        rewrite !app_assoc, <- (app_assoc _ _ q). apply ConfigFacts.includes_middle.
    + rewrite Hpaint in Hp. rewrite Hp.
      assert (Hpass : Poller.performReactComponentChecks s expectedText selector
                      = inr tt).
      { apply PollerFacts.performReactComponentChecks_passes.
        rewrite Hp, Hv, He, Hi, Hc, Ht. repeat split; assumption. }
      run_measure. rewrite Hpass. cbn.
      rewrite <- ?app_assoc. repeat split.
  - intros Htick Hfinite fuel Hfuel.
    unfold Poller.waitForReactComponentReady, Poller.run.
    destruct (PollerFacts.loop_total page pollInterval expectedText startTime
                timeout fuel (Poller.initialWorld startTime) Htick Hfinite
                (PollerFacts.initial_invariant _ _ _)) as [w0 Hw0].
    { cbn. lia. }
    rewrite Hw0. cbn. eauto.
  - intros Hnever -> fuel.
    unfold Poller.waitForReactComponentReady, Poller.run.
    now rewrite PollerFacts.loop_never_ends.
Qed.

Lemma component_measurement_witness :
  let startTime := 1700000000000 in
  let page :=
    Poller.MkPage (fun t => Poller.Ok (startTime + 250 <=? t))
      (fun _ => Poller.Ok true) true (fun _ => Poller.Ok true)
      (fun _ => Poller.Ok (Some (lit "Google Search"))) (fun _ => Poller.Ok true)
      (fun _ => true) (fun _ _ => 0%nat)
      (fun d _ => Z.to_nat (Z.max 1 (Checklist.ceiling d))) in
  let cfg := CONFIG ∅ in
  exists s,
    Poller.waitForReactComponentReady 5000 page (pollInterval cfg)
      (Some (lit "Google")) (component (cfg_timeouts cfg)) startTime = Some s
    /\ (measureReactComponentPerformance s (Some (lit "Google")) (lit "body")
          (MkWorld 0 [] []))
       = (inr 300, MkWorld 0 [MkSample subcomponentLoadTime 300 None]
                     [MkShot component_test pass]).
Proof.
  intros startTime page cfg.
  pose proof (component_measurement page (pollInterval cfg) (Some (lit "Google"))
                (component (cfg_timeouts cfg)) startTime (lit "body")
                (MkWorld 0 [] [])) as (Hmeasure & Hreturns & _).
  assert (Hticking : Checklist.ticking page) by (intros d t; cbn; lia).
  destruct (Hreturns Hticking ltac:(vm_compute; discriminate) 5000%nat
              ltac:(vm_compute; lia)) as [s Hs].
  exists s. split; [exact Hs|].
  assert (Hstate : s = Poller.MkState true true true true true true 300).
  { assert (Hrun : Poller.waitForReactComponentReady 5000 page (pollInterval cfg)
                     (Some (lit "Google")) (component (cfg_timeouts cfg)) startTime
                   = Some (Poller.MkState true true true true true true 300))
      by (vm_compute; reflexivity).
    congruence. }
  specialize (Hmeasure _ _ Hs). cbv zeta in Hmeasure.
  destruct Hmeasure as (Hnow & Hr). subst s. cbn [Poller.paintWorkCompleted] in Hr.
  destruct Hr as (Hvalue & Hsamples & Hshots).
  destruct (measureReactComponentPerformance _ _ _ _) as [v [n sm sh]].
  cbn [fst snd now samples shots Poller.loadTime] in *. now subst.
Defined.

Lemma measures_the_page cfg page networkLogs componentState w loadTime :
  truthy (subcomponentSelector cfg) = false ->
  (measureReactUIPerformance cfg page networkLogs componentState w).1
  <> inr (inl loadTime).
Proof.
  intros Hsel. unfold measureReactUIPerformance.
  assert (Hsel' : match subcomponentSelector cfg with
                  | Some (_ :: _) => False
                  | _ => True
                  end).
  { now destruct (subcomponentSelector cfg) as [[|c sel]|]. }
  unfold bind at 1. unfold await at 1.
  destruct (goto page (now w)) as [[message|] d]; [discriminate|].
  generalize (set_now (now w + Z.of_nat d) w). intros w1.
  destruct (subcomponentSelector cfg) as [[|c sel]|]; [|contradiction|].
  all: unfold bind, ret;
       destruct (measureReactPagePerformance cfg page w1) as [[m|t] w2];
       [discriminate|];
       match goal with
       | |- (let (_, _) := ?x in _).1 <> _ => now destruct x as [[|[]] ?]
       end.
Qed.

(** X21. One run of the engine measures the subcomponent or the page, never
    both: with a selector (not empty once trimmed) it records no sample of
    the three page trends, and without one it records no sample of
    [subcomponent_load_time]. The samples of [api_response_time] are added
    behind the measurement and only when it returned: when the measurement
    throws, what the listeners have logged is dropped. When the navigation
    throws, nothing is recorded and no screenshot is taken here. *)
Theorem one_measurement_per_run (cfg : config) (page : Page)
  (networkLogs : list LogEntry) (componentState : Poller.ComponentState)
  (w : World) :
  let r := measureReactUIPerformance cfg page networkLogs componentState w in
  exists measured api,
    samples r.2 = samples w ++ measured ++ api
    /\ (if truthy (subcomponentSelector cfg)
        then Forall (fun x => trend x = subcomponentLoadTime) measured
             /\ forall timings, r.1 <> inr (inr timings)
        else Forall (fun x => trend x = domContentLoadedTime
                              \/ trend x = networkIdleTime
                              \/ trend x = mainPageLoadTime) measured
             /\ forall loadTime, r.1 <> inr (inl loadTime))
    /\ api
       = match r.1 with
         | inr _ =>
             if networkLogging (cfg_features cfg)
             then List.map (fun s => MkSample apiResponseTime s.1 (Some s.2))
                    (api_samples networkLogs)
             else []
         | inl _ => []
         end
    /\ (forall message,
          (goto page (now w)).1 = Some message ->
          r.1 = inl message /\ measured = [] /\ shots r.2 = shots w).
Proof.
  intros r. remember r as r' eqn:Hr. subst r.
  unfold measureReactUIPerformance in Hr.
  unfold bind at 1 in Hr. unfold await at 1 in Hr.
  destruct (goto page (now w)) as [[message|] d] eqn:Hgoto.
  - subst r'. exists [], []. cbn [fst snd samples shots]. rewrite !app_nil_r.
    split; [reflexivity|]. split.
    + destruct (truthy (subcomponentSelector cfg)); split;
        try constructor; discriminate.
    + split; [reflexivity|]. intros m [= <-]. repeat split.
  - assert (Hlogs : forall w1 : World,
              (if networkLogging (cfg_features cfg)
                  && negb (bool_decide (networkLogs = []))
               then logNetworkPerformance networkLogs else ret tt) w1
              = (inr tt,
                 MkWorld (now w1)
                   (samples w1
                      ++ if networkLogging (cfg_features cfg)
                         then List.map (fun s => MkSample apiResponseTime s.1 (Some s.2))
                                (api_samples networkLogs)
                         else [])
                   (shots w1))).
    { intros w1. destruct (networkLogging (cfg_features cfg)); cbn [andb].
      - case_bool_decide as Hnil; cbn [negb]; [|reflexivity].
        subst networkLogs. unfold ret. cbn. rewrite app_nil_r. now destruct w1.
      - unfold ret. rewrite app_nil_r. now destruct w1. }
    set (w1 := set_now (now w + Z.of_nat d) w) in Hr.
    assert (Hw1 : samples w1 = samples w /\ shots w1 = shots w) by (split; reflexivity).
    clearbody w1. destruct Hw1 as [<- <-].
    unfold bind in Hr.
    unfold ret in Hr, Hlogs.
    destruct (subcomponentSelector cfg) as [[|c sel]|] eqn:Hsel; cbn [truthy].
    1, 3: pose proof (page_samples cfg page w1) as Hs;
          cbv zeta in Hs;
          destruct (measureReactPagePerformance cfg page w1) as [[m|timings] w2];
          cbn [fst snd] in Hs; cbv beta iota in Hr.
    1, 3: subst r'; exists [], [];
          cbn [fst snd samples]; rewrite Hs, !app_nil_r;
          split; [reflexivity|];
          split; [split; [constructor | intros ?; discriminate]|];
          split; [reflexivity | intros ? [=]].
    1, 2: rewrite Hlogs in Hr; subst r';
          cbn [fst snd samples]; rewrite Hs;
          rewrite <- app_assoc; eexists _, _; split; [reflexivity|];
          split; [split; [repeat (apply Forall_cons_2 || apply Forall_nil_2); cbn; auto | intros ?; discriminate]|];
          split; [reflexivity | intros ? [=]].
    revert Hr. run_measure.
    destruct (Poller.performReactComponentChecks componentState
                (Config.expectedText cfg) (c :: sel)) as [e|[]];
      cbn [now samples shots fst snd].
    + intros ->. exists [], []. cbn [fst snd samples]. rewrite !app_nil_r.
      split; [reflexivity|].
      split; [split; [constructor | intros ?; discriminate]|].
      split; [reflexivity | intros ? [=]].
    + rewrite Hlogs. intros ->. cbn [fst snd samples].
      rewrite <- app_assoc. eexists _, _. split; [reflexivity|].
      split; [split; [repeat constructor | intros ?; discriminate]|].
      split; [reflexivity | intros ? [=]].
Qed.

Lemma one_measurement_per_run_witness :
  let page :=
    MkPage (fun _ => 0%nat) (fun _ => (Some (lit "net::ERR_NAME_NOT_RESOLVED"), 30%nat))
      (fun _ => (None, 0%nat)) (fun _ _ => (None, 0%nat)) in
  let r :=
    measureReactUIPerformance (CONFIG ∅) page [] Poller.initialState
      (MkWorld 1700000000000 [] []) in
  r.1 = inl (lit "net::ERR_NAME_NOT_RESOLVED") /\ shots r.2 = [].
Proof.
  intros page r.
  pose proof (one_measurement_per_run (CONFIG ∅) page [] Poller.initialState
                (MkWorld 1700000000000 [] [])) as H.
  cbv zeta in H. destruct H as (measured & api & _ & _ & _ & H).
  destruct (H (lit "net::ERR_NAME_NOT_RESOLVED") eq_refl) as (Hr & _ & Hshots).
  split; [exact Hr | exact Hshots].
Defined.

End MeasureFacts.

(** ** Blank variables *)

Module BlankFacts.
Import JsString JsNumber Regex Config Js Measure RegexFacts ConfigFacts.

Lemma trimStart_blank s : forallb is_space s = true -> trimStart s = [].
Proof.
  induction s as [|c s IH]; [reflexivity|]. cbn [forallb trimStart].
  intros H. apply andb_true_iff in H as [-> H]. now apply IH.
Qed.

Lemma trim_blank s : forallb is_space s = true -> trim s = [].
Proof. intros H. unfold trim, trimEnd. now rewrite (trimStart_blank s H). Qed.

(** X25. The URL, the selector and the expected text are trimmed when the
    configuration is built, so a variable that holds only whitespace counts
    as missing: a blank [TEST_URL] is reported as required (not as
    invalid), a blank [SUBCOMPONENT_SELECTOR] is not validated at all and
    the page is measured instead of a component, and a blank
    [EXPECTED_TEXT] switches the text checks of the poller off. *)
Theorem blank_variables_count_as_missing (e : env) :
  (forall u,
     e !! "TEST_URL" = Some u -> forallb is_space u = true ->
     testUrl (CONFIG e) = Some []
     /\ exists more, validationErrors (CONFIG e) = url_required :: more)
  /\ (forall sel,
        e !! "SUBCOMPONENT_SELECTOR" = Some sel -> forallb is_space sel = true ->
        subcomponentSelector (CONFIG e) = Some []
        /\ (forall u, e !! "TEST_URL" = Some u ->
              test urlPattern (trim u) = true ->
              validateRequiredEnvironmentVariables (CONFIG e) = inr tt)
        /\ forall page networkLogs componentState w loadTime,
             (measureReactUIPerformance (CONFIG e) page networkLogs componentState w).1
             <> inr (inl loadTime))
  /\ (forall text,
        e !! "EXPECTED_TEXT" = Some text -> forallb is_space text = true ->
        truthy (expectedText (CONFIG e)) = false).
Proof.
  unfold CONFIG. split; [|split].
  - intros u Hu Hblank. cbn [testUrl]. rewrite Hu. cbn [fmap option_fmap option_map].
    rewrite (trim_blank u Hblank). split; [reflexivity|].
    unfold validationErrors. cbn [testUrl subcomponentSelector].
    eexists. reflexivity.
  - intros sel Hsel Hblank. cbn [subcomponentSelector]. rewrite Hsel.
    cbn [fmap option_fmap option_map]. rewrite (trim_blank sel Hblank).
    split; [reflexivity|]. split.
    + intros u Hu Hvalid. unfold validateRequiredEnvironmentVariables, validationErrors.
      cbn [testUrl subcomponentSelector]. rewrite Hu.
      cbn [fmap option_fmap option_map].
      destruct (trim u) as [|c u'] eqn:Htrim; [discriminate|].
      now rewrite Hvalid.
    + intros page networkLogs componentState w loadTime.
      now apply MeasureFacts.measures_the_page.
  - intros text Htext Hblank. cbn [expectedText]. rewrite Htext.
    cbn [fmap option_fmap option_map]. now rewrite (trim_blank text Hblank).
Qed.

Lemma blank_variables_count_as_missing_witness :
  validationErrors (CONFIG (<["TEST_URL" := lit "   "]> ∅)) = [url_required].
Proof.
  pose proof (blank_variables_count_as_missing (<["TEST_URL" := lit "   "]> ∅))
    as [H _].
  destruct (H (lit "   ") eq_refl eq_refl) as (_ & more & Hmore).
  rewrite Hmore. vm_compute in Hmore. now injection Hmore as <-.
Defined.

End BlankFacts.

(** ** What a screenshot does to the document *)

Module CaptureFacts.
Import JsString Config Screenshot Highlight Marks Capture HighlightFacts.

(** A pass over text nodes whose matching parents are all marked changes
    nothing and saves nothing. *)
Lemma highlight_fold_idle text nodes els :
  (forall node, node ∈ nodes -> includes node.2 text = true ->
     truthy (highlighted (els node.1)) = true) ->
  fold_left (highlight_node text) nodes (els, []) = (els, []).
Proof.
  induction nodes as [|[parent tc] nodes IH]; intros Hmarked; [reflexivity|].
  cbn [fold_left]. unfold highlight_node at 2.
  destruct (includes tc text) eqn:Hinc; cbn [andb].
  - pose proof (Hmarked (parent, tc) ltac:(constructor) Hinc) as Hm.
    cbn [fst] in Hm. rewrite Hm.
    cbn [negb]. apply IH. intros node Hin. apply Hmarked. now constructor.
  - apply IH. intros node Hin. apply Hmarked. now constructor.
Qed.

(** X13. Highlighting the same text twice in a row, without removing the
    highlight in between, loses the styles that the first call saved: the
    second call finds every matching parent marked, saves nothing, and
    replaces the list of the window by an empty one. The removal that
    follows restores nothing, and the elements keep the highlight (in place
    of what they declared for the six properties) and the marker for good;
    the rest of their inline style is as it was. *)
Theorem second_highlight_forgets_the_first (root : option Node)
  (text : option jsstr) (p : Page) :
  applies root text = true ->
  let p1 := applyHighlighting true root text p in
  let p2 := applyHighlighting true root text p1 in
  let p3 := removeHighlighting true p2 in
  elements p2 = elements p1
  /\ highlightedElements p2 = Elements []
  /\ elements p3 = elements p1
  /\ highlightedElements p3 = Null
  /\ forall saved id original,
       highlightedElements p1 = Elements saved -> (id, original) ∈ saved ->
       original = read_style (style (elements p id))
       /\ elements p3 id
          = MkElement (assign_style highlightStyle) (otherStyle (elements p id))
              (Some (lit "true")).
Proof.
  intros Happlies.
  destruct root as [n|]; [|discriminate].
  destruct text as [[|c t]|]; try discriminate.
  cbv zeta.
  pose proof (highlight_fold_marks (c :: t) (textNodes 0 n) (elements p, []))
    as [_ Hmarks].
  pose proof (highlight_fold_consistent (elements p) (c :: t) (textNodes 0 n)
                _ (consistent_start (elements p))) as (_ & Hsaved & _).
  destruct (fold_left (highlight_node (c :: t)) (textNodes 0 n) (elements p, []))
    as [els saved] eqn:Hfold.
  cbn [fst snd] in Hmarks, Hsaved.
  assert (H1 : applyHighlighting true (Some n) (Some (c :: t)) p
               = MkPage els (Elements saved))
    by (unfold applyHighlighting; now rewrite Hfold).
  assert (H2 : applyHighlighting true (Some n) (Some (c :: t))
                 (MkPage els (Elements saved))
               = MkPage els (Elements []))
    by (unfold applyHighlighting; cbn [elements];
        now rewrite (highlight_fold_idle (c :: t) (textNodes 0 n) els Hmarks)).
  rewrite H1, H2.
  cbn [removeHighlighting elements highlightedElements fold_left].
  do 4 (split; [reflexivity|]).
  intros saved' id original [= <-] Hin.
  apply Hsaved in Hin as (-> & _ & ->). split; reflexivity.
Qed.

Lemma second_highlight_forgets_the_first_witness :
  let plain :=
    MkElement
      (MkInline (Assigned (lit "red")) (Declared (lit "padding-left: 5px") [])
         (Assigned []) (Assigned []) (Assigned []) (Assigned []))
      (lit "color: blue") None in
  let tree := ElementNode 1 [TextNode (lit "Google Search")] in
  let p := MkPage (fun _ => plain) Undefined in
  let p2 :=
    applyHighlighting true (Some tree) (Some (lit "Google"))
      (applyHighlighting true (Some tree) (Some (lit "Google")) p) in
  highlightedElements p2 = Elements []
  /\ elements (removeHighlighting true p2) 1
     = MkElement (assign_style highlightStyle) (lit "color: blue")
         (Some (lit "true")).
Proof.
  intros plain tree p p2. subst p2.
  pose proof (second_highlight_forgets_the_first (Some tree) (Some (lit "Google"))
                p eq_refl) as H.
  cbv zeta in H. destruct H as (_ & Hlist & _ & _ & Hkeep).
  split; [exact Hlist|].
  apply (Hkeep [(1%nat, MkStyle (lit "red") [] [] [] [] [])] 1%nat
           (MkStyle (lit "red") [] [] [] [] []) eq_refl).
  constructor.
Defined.

(** X12. A screenshot changes the document only for a component screenshot with
    a selector while highlighting is enabled; page and error screenshots
    leave it alone. When the capture goes through, the highlight is removed
    again: every element reads the same values for the six properties as
    before, and the rest of its inline style is as before. An element whose
    six properties were as assignments leave them has the declarations it
    had (and is exactly as before unless its marker was the empty string);
    a highlighted element that declared a lone longhand or an [!important]
    value has lost it. When one of the awaited operations of the capture
    throws, the function returns from its [catch] block without removing
    the highlight: the elements keep the highlight style and the marker,
    and the list of the saved styles stays pending. *)
Theorem screenshot_and_the_document (cfg : config) (testType : TestType)
  (selector expectedText : option jsstr) (root : option Node) (p : Page) :
  (highlights cfg testType selector = false
   \/ screenshots (cfg_features cfg) = false ->
   forall capture_throws,
     takeScreenshot cfg testType selector expectedText root capture_throws p = p)
  /\ (screenshots (cfg_features cfg) = true ->
      highlights cfg testType selector = true ->
      (applies root expectedText = true \/ pending p = false) ->
      let p' := takeScreenshot cfg testType selector expectedText root false p in
      forall id,
        read_style (style (elements p' id)) = read_style (style (elements p id))
        /\ otherStyle (elements p' id) = otherStyle (elements p id)
        /\ (elements p' id = elements p id
            \/ elements p' id
               = MkElement (assign_style (read_style (style (elements p id))))
                   (otherStyle (elements p id)) None)
        /\ (restorable (style (elements p id)) ->
            style (elements p' id) = style (elements p id)
            /\ (highlighted (elements p id) <> Some [] ->
                elements p' id = elements p id)))
  /\ (screenshots (cfg_features cfg) = true ->
      highlights cfg testType selector = true ->
      forall n c t,
        root = Some n -> expectedText = Some (c :: t) ->
        let p' := takeScreenshot cfg testType selector expectedText root false p in
        forall node,
          node ∈ textNodes 0 n -> includes node.2 (c :: t) = true ->
          truthy (highlighted (elements p node.1)) = false ->
          style (elements p' node.1)
          = assign_style (read_style (style (elements p node.1)))
          /\ (~ restorable (style (elements p node.1)) ->
              style (elements p' node.1) <> style (elements p node.1)))
  /\ (screenshots (cfg_features cfg) = true ->
      highlights cfg testType selector = true ->
      applies root expectedText = true ->
      let p' := takeScreenshot cfg testType selector expectedText root true p in
      p' = applyHighlighting true root expectedText p
      /\ pending p' = true
      /\ forall saved id original,
           highlightedElements p' = Elements saved -> (id, original) ∈ saved ->
           original = read_style (style (elements p id))
           /\ style (elements p' id) = assign_style highlightStyle
           /\ highlighted (elements p' id) = Some (lit "true")).
Proof.
  assert (Hon : highlights cfg testType selector = true ->
                highlighting (cfg_features cfg) = true).
  { unfold highlights. intros H. now apply andb_true_iff in H as [_ ->]. }
  split; [|split; [|split]].
  - intros Hoff capture_throws. unfold takeScreenshot.
    destruct (screenshots (cfg_features cfg)); [|reflexivity].
    destruct Hoff as [->|Hoff]; [|discriminate]. now destruct capture_throws.
  - intros Hshots Hhl Hcase p'. subst p'. unfold takeScreenshot.
    rewrite Hshots, Hhl, (Hon Hhl).
    destruct (applies root expectedText) eqn:Happlies.
    + destruct root as [n|]; [|discriminate].
      destruct expectedText as [[|c t]|]; try discriminate.
      destruct (apply_then_remove n c t p)
        as (saved & _ & _ & Hsaved & _ & Hother & Hrestored).
      cbv zeta in Hother, Hrestored. intros id.
      destruct (decide (id ∈ saved.*1)) as [Hin|Hin].
      * rewrite (Hrestored id Hin). cbn [style otherStyle].
        rewrite read_assign.
        split; [reflexivity|]. split; [reflexivity|].
        split; [now right|]. intros Hres. split; [exact Hres|].
        intros Hmark. rewrite Hres.
        apply list_elem_of_fmap in Hin as ([i original] & -> & Hin).
        apply Hsaved in Hin as (_ & Hfalsy & _). cbn [fst] in *.
        destruct (elements p i) as [st other [[|x m]|]]; cbn in *; congruence.
      * destruct (Hother id Hin) as [_ ->].
        split; [reflexivity|]. split; [reflexivity|]. split; [now left|].
        intros _. split; reflexivity.
    + destruct Hcase as [Hcase|Hcase]; [discriminate|].
      assert (H1 : applyHighlighting true root expectedText p = p).
      { unfold applyHighlighting. destruct root as [n|]; [|reflexivity].
        destruct expectedText as [[|c t]|]; try reflexivity. discriminate. }
      rewrite H1. unfold removeHighlighting. unfold pending in Hcase.
      destruct (highlightedElements p); try discriminate;
        intros id; (split; [reflexivity|]); (split; [reflexivity|]);
        (split; [now left|]); intros _; split; reflexivity.
  - intros Hshots Hhl n c t -> -> p' node Hnode Hinc Hmark. subst p'.
    unfold takeScreenshot. rewrite Hshots, Hhl, (Hon Hhl).
    destruct (apply_then_remove n c t p)
      as (saved & _ & _ & _ & Hall & _ & Hrestored).
    cbv zeta in Hrestored.
    rewrite (Hrestored _ (Hall node Hnode Hinc Hmark)). cbn [style].
    split; [reflexivity|]. intros Hno H. apply Hno. exact H.
  - intros Hshots Hhl Happlies p'. subst p'. unfold takeScreenshot.
    rewrite Hshots, Hhl, (Hon Hhl). split; [reflexivity|].
    destruct root as [n|]; [|discriminate].
    destruct expectedText as [[|c t]|]; try discriminate.
    destruct (apply_then_remove n c t p) as (saved & Hlist & _ & Hsaved & _).
    cbv zeta in Hlist, Hsaved. unfold pending. rewrite Hlist.
    split; [reflexivity|].
    intros saved' id original [= <-] Hin.
    apply Hsaved in Hin as (-> & _ & ->). repeat split.
Qed.

Lemma screenshot_and_the_document_witness :
  let plain :=
    MkElement (assign_style (MkStyle (lit "red") [] [] [] [] []))
      (lit "color: blue") None in
  let lone :=
    MkElement
      (MkInline (Assigned []) (Declared (lit "padding-left: 5px") [])
         (Assigned []) (Assigned []) (Assigned []) (Assigned []))
      (lit "color: blue") None in
  let tree := ElementNode 1 [TextNode (lit "Google Search")] in
  let shot (p : Page) (capture_throws : bool) :=
    takeScreenshot (CONFIG ∅) component_test (Some (lit "body"))
      (Some (lit "Google")) (Some tree) capture_throws p in
  elements (shot (MkPage (fun _ => plain) Undefined) false) 1 = plain
  /\ style (elements (shot (MkPage (fun _ => lone) Undefined) false) 1)
     = undeclared
  /\ pending (shot (MkPage (fun _ => plain) Undefined) true) = true.
Proof.
  intros plain lone tree shot. subst shot. cbv beta.
  pose proof (screenshot_and_the_document (CONFIG ∅) component_test
                (Some (lit "body")) (Some (lit "Google")) (Some tree)
                (MkPage (fun _ => plain) Undefined))
    as (_ & Hok & _ & Hthrows).
  pose proof (screenshot_and_the_document (CONFIG ∅) component_test
                (Some (lit "body")) (Some (lit "Google")) (Some tree)
                (MkPage (fun _ => lone) Undefined))
    as (_ & _ & Hlost & _).
  split; [|split].
  - destruct (Hok eq_refl eq_refl (or_introl eq_refl) 1%nat)
      as (_ & _ & _ & Hsame).
    apply Hsame; [reflexivity | discriminate].
  - apply (Hlost eq_refl eq_refl tree 71%N (lit "oogle") eq_refl eq_refl
             (1%nat, lit "Google Search")); [constructor | reflexivity..].
  - apply (Hthrows eq_refl eq_refl eq_refl).
Defined.

End CaptureFacts.

(** ** The time stamp and the tags of a screenshot name *)

Module NameFacts.
Import JsString Regex Config Screenshot Hooks Scenario ScreenshotFacts HooksFacts.

(** Replacing every character of a class by one character maps the class
    to that character. *)
Lemma replace_from_class_char fuel n p d s :
  (length s < fuel)%nat ->
  replace_from fuel n (Cls p) [d] s = List.map (fun c => if p c then d else c) s.
Proof.
  revert s; induction fuel as [|fuel IH]; intros s Hlen; [lia|].
  destruct s as [|x s]; [reflexivity|].
  cbn [replace_from rmatch List.map]. cbn [length] in Hlen.
  destruct (p x); cbn [accept app].
  - replace (length s <? length (x :: s))%nat with true
      by (symmetry; apply Nat.ltb_lt; cbn [length]; lia).
    f_equal. apply IH. lia.
  - f_equal. apply IH. lia.
Qed.

(** X11. The time stamp of a screenshot name is the ISO text of the date without
    its last five characters (the milliseconds and the [Z]), with a dash for
    every colon and dot: it has the resolution of a second. Two captures
    that differ only in the milliseconds of their dates, and agree on the
    scenario, the kind, the status, the text and the two identifiers, are
    written to the same path. *)
Theorem time_stamp_has_second_resolution (iso : jsstr) :
  timestamp iso
  = List.map (fun c => if one_of ":." c then 45%N else c) (take (length iso - 5) iso)
  /\ forall iso' e testType status expectedText vuId iterationId,
       take (length iso' - 5) iso' = take (length iso - 5) iso ->
       screenshotPath e iso' testType status expectedText vuId iterationId
       = screenshotPath e iso testType status expectedText vuId iterationId.
Proof.
  assert (Hstamp : forall s,
            timestamp s
            = List.map (fun c => if one_of ":." c then 45%N else c)
                (take (length s - 5) s)).
  { intros s. unfold timestamp, slice0_minus, replaceAll, colon_or_dot.
    change (lit "-") with [45%N].
    rewrite replace_from_class_char by lia.
    now rewrite length_map, <- fmap_take. }
  split; [apply Hstamp|].
  intros iso' e testType status expectedText vuId iterationId Hsame.
  unfold screenshotPath, filename, filenameParts.
  now rewrite !Hstamp, Hsame.
Qed.

Lemma time_stamp_has_second_resolution_witness :
  screenshotPath ∅ (lit "2026-11-03T12:34:56.100Z") page_test pass None 1 0
  = screenshotPath ∅ (lit "2026-11-03T12:34:56.900Z") page_test pass None 1 0.
Proof.
  apply (proj2 (time_stamp_has_second_resolution (lit "2026-11-03T12:34:56.900Z"))).
  reflexivity.
Defined.




End NameFacts.

(** ** One iteration and its cleanup *)

Module IterationFacts.
Import JsString Config Iteration.

(** X24. Once the configuration is valid the iteration first checks the
    connectivity; a request that throws ends the iteration before a browser
    context exists. Past that point the [finally] block runs on every path:
    a page that was opened is closed, and the context that was created is
    closed too unless closing the page throws, in which case it is left
    open. The error screenshot is taken exactly when the measurement
    throws. The iteration returns exactly when none of the four steps
    throws: what the cleanup throws is only logged. *)
Theorem cleanup_on_every_path (cfg : config) (w : world) :
  validateRequiredEnvironmentVariables cfg = inr tt ->
  let effects := (default_export cfg w).1 in
  let outcome := (default_export cfg w).2 in
  (exists rest, effects = HttpGet :: rest)
  /\ (http_get_throws w = true -> effects = [HttpGet])
  /\ (NewPage ∈ effects -> newPage_throws w = false -> ClosePage ∈ effects)
  /\ (NewContext ∈ effects -> newContext_throws w = false ->
      CloseContext ∈ effects
      \/ (close_throws w = true /\ ClosePage ∈ effects))
  /\ (CloseContext ∈ effects -> ClosePage ∈ effects -> close_throws w = false)
  /\ (ErrorScreenshot ∈ effects <-> Measure ∈ effects /\ measure_throws w = true)
  /\ (outcome = Returned <->
      http_get_throws w = false /\ newContext_throws w = false
      /\ newPage_throws w = false /\ measure_throws w = false).
Proof.
  intros Hvalid effects outcome. subst effects outcome.
  unfold default_export, cleanup. rewrite Hvalid.
  destruct w as [h c p m x]. cbn [http_get_throws newContext_throws
    newPage_throws measure_throws close_throws].
  destruct h, c, p, m, x; cbn [fst snd app andb];
    (split; [eexists; reflexivity|]);
    repeat split; intros;
    repeat match goal with
           | H : _ ∈ _ |- _ =>
               rewrite ?elem_of_cons, ?elem_of_nil in H;
               repeat destruct H as [H|H]; try discriminate
           | H : _ /\ _ |- _ => destruct H
           end;
    try discriminate; try reflexivity; try congruence;
    rewrite ?elem_of_cons, ?elem_of_nil; tauto.
Qed.

Lemma cleanup_on_every_path_witness :
  let cfg := CONFIG (<["TEST_URL" := lit "https://www.google.com"]> ∅) in
  let w := World false false false true true in
  ClosePage ∈ (default_export cfg w).1 /\ (default_export cfg w).2 <> Returned.
Proof.
  intros cfg w.
  pose proof (cleanup_on_every_path cfg w) as H. cbv zeta in H.
  destruct (H ltac:(vm_compute; reflexivity)) as (_ & _ & Hpage & _ & _ & _ & Hret).
  split.
  - apply Hpage; [|reflexivity]. vm_compute (default_export cfg w).1.
    rewrite !elem_of_cons. tauto.
  - intros Hr. apply Hret in Hr. destruct Hr as (_ & _ & _ & Hm). discriminate Hm.
Defined.

End IterationFacts.

(** ** The Then step of the subcomponents *)

Module LoopFacts.
Import JsString JsNumber Regex Steps.

Lemma subcomponent_loop_app pre post maxTime :
  subcomponent_loop (pre ++ post) maxTime
  = match subcomponent_loop pre maxTime with
    | inl e => inl e
    | inr _ => subcomponent_loop post maxTime
    end.
Proof.
  induction pre as [|[selector output] pre IH]; cbn; [reflexivity|].
  destruct (subcomponent_load_time selector output) as [e|L]; [reflexivity|].
  destruct (check_threshold (Some selector) L maxTime); [reflexivity | exact IH].
Qed.

(** X5. The Then step of the subcomponents stops at the first output that
    fails: it throws the error of that output, which names its selector (a
    missing metric quotes the output, an exceeded threshold carries the
    load time), and the outputs behind it are not looked at, whatever they
    hold. *)
Theorem first_failure_is_reported (pre post : list (jsstr * jsstr))
  (selector output : jsstr) (maxTime : Z) :
  subcomponent_loop pre maxTime = inr tt ->
  subcomponent_loop [(selector, output)] maxTime <> inr tt ->
  exists e,
    subcomponent_step (pre ++ (selector, output) :: post) maxTime = inl e
    /\ subcomponent_loop [(selector, output)] maxTime = inl e
    /\ (e = MetricNotFound (sub_not_found selector output)
        \/ exists loadTime,
             subcomponent_load_time selector output = inr loadTime
             /\ e = ThresholdExceeded (Some selector) loadTime maxTime).
Proof.
  intros Hpre Hfail.
  assert (Hstep : subcomponent_step (pre ++ (selector, output) :: post) maxTime
                  = subcomponent_loop (pre ++ (selector, output) :: post) maxTime)
    by (unfold subcomponent_step; now destruct pre).
  rewrite Hstep, subcomponent_loop_app, Hpre. clear Hstep.
  cbn [subcomponent_loop] in *.
  unfold subcomponent_load_time in *.
  destruct (exec subcomponent_pattern output) as [m|].
  - set (L := if is_ms _ then _ else _) in *.
    unfold check_threshold in *.
    destruct (isNaN L || ge L (of_Z maxTime)); [|congruence].
    eexists. split; [reflexivity|]. split; [reflexivity|].
    right. eexists. split; reflexivity.
  - eexists. split; [reflexivity|]. split; [reflexivity|]. now left.
Qed.

Lemma first_failure_is_reported_witness :
  subcomponent_step
    [(lit "body", lit "subcomponent_load_time...: avg=1.2s");
     (lit "#q", lit "subcomponent_load_time...: avg=6s");
     (lit "#late", lit "no metric here")] 6
  = inl (ThresholdExceeded (Some (lit "#q")) (of_Z 6) 6).
Proof.
  destruct (first_failure_is_reported
              [(lit "body", lit "subcomponent_load_time...: avg=1.2s")]
              [(lit "#late", lit "no metric here")]
              (lit "#q") (lit "subcomponent_load_time...: avg=6s") 6)
    as (e & Hstep & He & _).
  - vm_compute. reflexivity.
  - vm_compute. discriminate.
  - cbn [app] in Hstep. rewrite Hstep. rewrite <- He. vm_compute. reflexivity.
Defined.

End LoopFacts.
